(** * Image-Processing: the batch pipeline, its summary artifact and its two
    HTTP views, embedded from [processing/tasks.py], [processing/views.py],
    [processing/serializers.py], [processing/models.py] and
    [image_processor/response.py].

    Text is modelled by its UTF-8 bytes ([string]); the record store is a pair
    of row lists kept in insertion order; everything the program cannot decide
    by itself (the network, the image codec, the disks, the clock) is read
    from a [World]. *)

From Stdlib Require Import List String Ascii ZArith Bool Arith Lia.
From Stdlib Require Import Numbers.DecimalString Numbers.DecimalZ.
Import ListNotations.
Open Scope list_scope.
Open Scope string_scope.

(* ================================================================= *)
(** ** Python values, strings, paths and exceptions *)

Module Py.

Definition LF : ascii := "010"%char.
Definition CR : ascii := "013"%char.
Definition DQUOTE : ascii := "034"%char.
Definition COMMA : ascii := ","%char.
Definition SLASH : ascii := "/"%char.

(** [s.split(sep)] for a one-character separator. *)
Fixpoint split (sep : ascii) (s : string) : list string :=
  match s with
  | EmptyString => [EmptyString]
  | String c s' =>
      if Ascii.eqb c sep then EmptyString :: split sep s'
      else match split sep s' with
           | [] => [String c EmptyString]
           | piece :: pieces => String c piece :: pieces
           end
  end.

(** [sep.join(l)]. *)
Fixpoint join (sep : string) (l : list string) : string :=
  match l with
  | [] => EmptyString
  | x :: xs =>
      match xs with
      | [] => x
      | _ :: _ => x ++ sep ++ join sep xs
      end
  end.

Definition startswith (s pre : string) : bool := String.prefix pre s.

Definition endswith (s suffix : string) : bool :=
  let n := String.length s in
  let m := String.length suffix in
  (m <=? n)%nat && String.eqb (substring (n - m) m s) suffix.

Definition mem (x : string) (l : list string) : bool :=
  existsb (String.eqb x) l.

(** [str(n)] for an [int]. *)
Definition str_int (z : Z) : string := NilEmpty.string_of_int (Z.to_int z).

(** [posixpath.basename]: what follows the last slash. *)
Definition basename (p : string) : string := last (split SLASH p) EmptyString.

(** One step of [posixpath.join]. *)
Definition join2 (path b : string) : string :=
  if startswith b "/" then b
  else if String.eqb path EmptyString || endswith path "/" then path ++ b
  else path ++ "/" ++ b.

(** [os.path.join(a, *p)]. *)
Definition path_join (a : string) (p : list string) : string :=
  fold_left join2 p a.

(** The values a row dictionary or a response body holds. *)
Inductive value : Type :=
| None_
| Bool (b : bool)
| Int (z : Z)
| Str (s : string).

(** A [dict] with string keys, in insertion order. *)
Definition dict : Type := list (string * value).

Fixpoint dict_get (d : dict) (k : string) : option value :=
  match d with
  | [] => None
  | (k', v) :: d' => if String.eqb k k' then Some v else dict_get d' k
  end.

(** [d[k] = v]: overwrite in place, or append. *)
Fixpoint dict_set (d : dict) (k : string) (v : value) : dict :=
  match d with
  | [] => [(k, v)]
  | (k', v') :: d' =>
      if String.eqb k k' then (k, v) :: d' else (k', v') :: dict_set d' k v
  end.

Definition dict_of (pairs : list (string * value)) : dict :=
  fold_left (fun d kv => dict_set d (fst kv) (snd kv)) pairs [].

Definition dict_keys (d : dict) : list string := map fst d.

(** Exception classes met by the program, all of them under [Exception].
    [IOError] is Python 3's alias of [OSError]; [requests.RequestException]
    derives from it, and so does [PIL.UnidentifiedImageError], which
    [Image.open] raises on bytes it cannot identify as an image. *)
Inductive pyclass : Type :=
| Exception
| ValueError
| TypeError
| AssertionError
| KeyError
| UnboundLocalError
| UnicodeDecodeError
| OSError
| RequestException
| MissingSchema
| HTTPError
| ConnectionError
| UnidentifiedImageError
| DecompressionBombError
| csv_Error
| DoesNotExist
| MultipleObjectsReturned
| DatabaseError
| IntegrityError
| ImproperlyConfigured
| Http404.

Definition IOError : pyclass := OSError.

(** The proper ancestors of a class, [Exception] left out (all have it). *)
Definition bases (c : pyclass) : list pyclass :=
  match c with
  | UnicodeDecodeError => [ValueError]
  | RequestException => [OSError]
  | MissingSchema => [RequestException; OSError; ValueError]
  | HTTPError => [RequestException; OSError]
  | ConnectionError => [RequestException; OSError]
  | UnidentifiedImageError => [OSError]
  | IntegrityError => [DatabaseError]
  | _ => []
  end.

Definition pyclass_eq_dec (a b : pyclass) : {a = b} + {a <> b}.
Proof. decide equality. Defined.

Definition pyclass_eqb (a b : pyclass) : bool :=
  if pyclass_eq_dec a b then true else false.

Definition issubclass (c d : pyclass) : bool :=
  pyclass_eqb d Exception || pyclass_eqb c d || existsb (pyclass_eqb d) (bases c).

(** A raised exception: its class and [str(e)]. *)
Record exn : Type := Exn { exn_class : pyclass; str : string }.

Definition isinstance (e : exn) (c : pyclass) : bool :=
  issubclass (exn_class e) c.

Inductive result (A : Type) : Type :=
| Ok (a : A)
| Raise (e : exn).
Arguments Ok {A} a.
Arguments Raise {A} e.

Definition is_ok {A} (r : result A) : bool :=
  match r with Ok _ => true | Raise _ => false end.

End Py.
Import Py.

(* ================================================================= *)
(** ** The [csv] module in its default (excel) dialect

    Delimiter comma, quote character [DQUOTE] doubled inside quoted fields,
    line terminator CR LF, minimal quoting, no escape character, not strict.
    [limit] is [csv.field_size_limit()]. *)

Module csv.

Definition lineterminator : string := String CR (String LF EmptyString).

(** [csv.field_size_limit()] as the module starts. *)
Definition field_size_limit : nat := 128 * 1024.

(** *** Writing *)

(** The text of one field as [writerow] takes it. *)
Definition field_text (v : value) : string :=
  match v with
  | None_ => EmptyString
  | Bool b => if b then "True" else "False"
  | Int z => str_int z
  | Str s => s
  end.

(** Characters that make the writer quote a field. *)
Definition must_quote (c : ascii) : bool :=
  Ascii.eqb c COMMA || Ascii.eqb c DQUOTE || Ascii.eqb c CR || Ascii.eqb c LF.

Fixpoint any_char (f : ascii -> bool) (s : string) : bool :=
  match s with
  | EmptyString => false
  | String c s' => f c || any_char f s'
  end.

Fixpoint double_quotes (s : string) : string :=
  match s with
  | EmptyString => EmptyString
  | String c s' =>
      if Ascii.eqb c DQUOTE then String DQUOTE (String DQUOTE (double_quotes s'))
      else String c (double_quotes s')
  end.

(** [join_append]: one field as it goes into the record. *)
Definition join_append (field : string) : string :=
  if any_char must_quote field
  then String DQUOTE (double_quotes field ++ String DQUOTE EmptyString)
  else field.

(** [writer.writerow(row)]: the text it appends to the file. A record made of
    one empty field is written as an empty quoted field. *)
Definition writerow (row : list value) : string :=
  match map field_text row with
  | [EmptyString] => String DQUOTE (String DQUOTE lineterminator)
  | fields => join "," (map join_append fields) ++ lineterminator
  end.

(** [DictWriter._dict_to_list] with [extrasaction="raise"], [restval=""]. *)
Definition _dict_to_list (fieldnames : list string) (rowdict : dict)
  : result (list value) :=
  match filter (fun k => negb (mem k fieldnames)) (dict_keys rowdict) with
  | [] =>
      Ok (map (fun key => match dict_get rowdict key with
                          | Some v => v
                          | None => Str EmptyString
                          end) fieldnames)
  | wrong_fields =>
      Raise (Exn ValueError
               ("dict contains fields not in fieldnames: "
                ++ join ", " (map (fun x => ("'" ++ x ++ "'")%string) wrong_fields)))
  end.

(** [DictWriter.writeheader()]. *)
Definition writeheader (fieldnames : list string) : result string :=
  match _dict_to_list fieldnames (dict_of (combine fieldnames (map Str fieldnames))) with
  | Ok row => Ok (writerow row)
  | Raise e => Raise e
  end.

(** [DictWriter.writerows(rowdicts)]. *)
Fixpoint writerows (fieldnames : list string) (rowdicts : list dict)
  : result string :=
  match rowdicts with
  | [] => Ok EmptyString
  | d :: ds =>
      match _dict_to_list fieldnames d with
      | Raise e => Raise e
      | Ok row =>
          match writerows fieldnames ds with
          | Raise e => Raise e
          | Ok text => Ok (writerow row ++ text)
          end
      end
  end.

(** *** Reading *)

Inductive ParserState : Type :=
| START_RECORD
| START_FIELD
| IN_FIELD
| IN_QUOTED_FIELD
| QUOTE_IN_QUOTED_FIELD
| EAT_CRNL.

Definition ParserState_eqb (a b : ParserState) : bool :=
  match a, b with
  | START_RECORD, START_RECORD | START_FIELD, START_FIELD
  | IN_FIELD, IN_FIELD | IN_QUOTED_FIELD, IN_QUOTED_FIELD
  | QUOTE_IN_QUOTED_FIELD, QUOTE_IN_QUOTED_FIELD | EAT_CRNL, EAT_CRNL => true
  | _, _ => false
  end.

(** The reader object between two characters. *)
Record Reader : Type := mkReader {
  state : ParserState;
  field : string;
  fields : list string
}.

(** What the parser is fed: a character of the line, or the end-of-line mark
    that follows the last character of every line. *)
Inductive sym : Type :=
| Ch (c : ascii)
| EOL.

Definition parse_reset : Reader := mkReader START_RECORD EmptyString [].

Definition set_state (r : Reader) (st : ParserState) : Reader :=
  mkReader st (field r) (fields r).

Definition parse_save_field (r : Reader) : Reader :=
  mkReader (state r) EmptyString (fields r ++ [field r])%list.

Definition parse_add_char (limit : nat) (r : Reader) (c : ascii) : result Reader :=
  if (limit <=? String.length (field r))%nat
  then Raise (Exn csv_Error "field larger than field limit")
  else Ok (mkReader (state r) (field r ++ String c EmptyString) (fields r)).

Definition newline (c : ascii) : bool := Ascii.eqb c LF || Ascii.eqb c CR.

(** The [START_FIELD] case, which [START_RECORD] falls through to. *)
Definition start_field (limit : nat) (r : Reader) (c : sym) : result Reader :=
  match c with
  | EOL => Ok (set_state (parse_save_field r) START_RECORD)
  | Ch a =>
      if newline a then Ok (set_state (parse_save_field r) EAT_CRNL)
      else if Ascii.eqb a DQUOTE then Ok (set_state r IN_QUOTED_FIELD)
      else if Ascii.eqb a COMMA then Ok (parse_save_field r)
      else match parse_add_char limit r a with
           | Ok r' => Ok (set_state r' IN_FIELD)
           | Raise e => Raise e
           end
  end.

Definition parse_process_char (limit : nat) (r : Reader) (c : sym) : result Reader :=
  match state r with
  | START_RECORD =>
      match c with
      | EOL => Ok r
      | Ch a =>
          if newline a then Ok (set_state r EAT_CRNL)
          else start_field limit (set_state r START_FIELD) c
      end
  | START_FIELD => start_field limit r c
  | IN_FIELD =>
      match c with
      | EOL => Ok (set_state (parse_save_field r) START_RECORD)
      | Ch a =>
          if newline a then Ok (set_state (parse_save_field r) EAT_CRNL)
          else if Ascii.eqb a COMMA then Ok (set_state (parse_save_field r) START_FIELD)
          else parse_add_char limit r a
      end
  | IN_QUOTED_FIELD =>
      match c with
      | EOL => Ok r
      | Ch a =>
          if Ascii.eqb a DQUOTE then Ok (set_state r QUOTE_IN_QUOTED_FIELD)
          else parse_add_char limit r a
      end
  | QUOTE_IN_QUOTED_FIELD =>
      match c with
      | EOL => Ok (set_state (parse_save_field r) START_RECORD)
      | Ch a =>
          if Ascii.eqb a DQUOTE then
            match parse_add_char limit r a with
            | Ok r' => Ok (set_state r' IN_QUOTED_FIELD)
            | Raise e => Raise e
            end
          else if Ascii.eqb a COMMA then Ok (set_state (parse_save_field r) START_FIELD)
          else if newline a then Ok (set_state (parse_save_field r) EAT_CRNL)
          else match parse_add_char limit r a with
               | Ok r' => Ok (set_state r' IN_FIELD)
               | Raise e => Raise e
               end
      end
  | EAT_CRNL =>
      match c with
      | EOL => Ok (set_state r START_RECORD)
      | Ch a =>
          if newline a then Ok r
          else Raise (Exn csv_Error "new-line character seen in unquoted field")
      end
  end.

Fixpoint process_chars (limit : nat) (r : Reader) (line : string) : result Reader :=
  match line with
  | EmptyString => Ok r
  | String c rest =>
      match parse_process_char limit r (Ch c) with
      | Ok r' => process_chars limit r' rest
      | Raise e => Raise e
      end
  end.

(** One line through the parser: its characters, then the end-of-line mark. *)
Definition process_line (limit : nat) (r : Reader) (line : string) : result Reader :=
  match process_chars limit r line with
  | Ok r' => parse_process_char limit r' EOL
  | Raise e => Raise e
  end.

(** Iterating the reader to its end: the records it yields, in order, and the
    [csv.Error] that ends the iteration if there is one. Each record is one
    run of [Reader_iternext]: lines are pulled until the parser is back at
    [START_RECORD]; when the lines run out inside a record, what was read of
    it is returned. *)
Fixpoint Reader_iter (limit : nat) (r : Reader) (lines : list string)
  : list (list string) * option exn :=
  match lines with
  | [] =>
      if negb (String.eqb (field r) EmptyString)
         || ParserState_eqb (state r) IN_QUOTED_FIELD
      then ([fields (parse_save_field r)], None)
      else ([], None)
  | line :: rest =>
      match process_line limit r line with
      | Raise e => ([], Some e)
      | Ok r' =>
          match state r' with
          | START_RECORD =>
              let (rows, err) := Reader_iter limit parse_reset rest in
              (fields r' :: rows, err)
          | _ => Reader_iter limit r' rest
          end
      end
  end.

(** Iterating [io.StringIO(text)]: lines end after each LF and keep it. [cur]
    is what has been read of the current line. *)
Fixpoint readlines_from (cur : string) (text : string) : list string :=
  match text with
  | EmptyString =>
      match cur with
      | EmptyString => []
      | _ => [cur]
      end
  | String c text' =>
      if Ascii.eqb c LF then (cur ++ String c EmptyString) :: readlines_from EmptyString text'
      else readlines_from (cur ++ String c EmptyString) text'
  end.

Definition StringIO (text : string) : list string := readlines_from EmptyString text.

(** [csv.reader(f)] run to its end. *)
Definition reader (limit : nat) (f : list string) : list (list string) * option exn :=
  Reader_iter limit parse_reset f.

(** [DictReader(f).fieldnames]: the first record, [None] when there is none. *)
Definition DictReader_fieldnames (limit : nat) (f : list string)
  : result (option (list string)) :=
  match reader limit f with
  | (row :: _, _) => Ok (Some row)
  | ([], Some e) => Raise e
  | ([], None) => Ok None
  end.

(** The dictionary [DictReader] makes of one record: [dict(zip(fieldnames,
    row))], absent trailing fields set to [None]. (Surplus fields go under the
    key [None], which no string key reads.) *)
Definition row_dict (fieldnames row : list string) : dict :=
  fold_left (fun d key => dict_set d key None_)
            (skipn (List.length row) fieldnames)
            (dict_of (combine fieldnames (map Str row))).

(** Iterating [DictReader(f)]: the records after the first, blank ones
    skipped, as dictionaries. *)
Definition DictReader_rows (limit : nat) (f : list string)
  : list dict * option exn :=
  match reader limit f with
  | ([], err) => ([], err)
  | (fieldnames :: rows, err) =>
      (map (row_dict fieldnames)
           (filter (fun row => match row with [] => false | _ => true end) rows),
       err)
  end.

End csv.

(* ================================================================= *)
(** ** [processing/models.py]: the two tables and the record store *)

Module models.

Record ProcessingRequest : Type := mkProcessingRequest {
  request_pk : nat;
  request_id : string;
  created_at : Z;
  completed : bool;
  result_file : option string
}.

Record Product : Type := mkProduct {
  product_pk : nat;
  request : nat;
  serial_number : Z;
  name : string;
  input_image_urls : string;
  output_image_urls : string;
  processed : bool
}.

(** The database: both tables, rows in insertion order. *)
Record DB : Type := mkDB {
  ProcessingRequest_objects : list ProcessingRequest;
  Product_objects : list Product
}.

Definition set_result_file (r : ProcessingRequest) (f : string) : ProcessingRequest :=
  mkProcessingRequest (request_pk r) (request_id r) (created_at r) (completed r) (Some f).

Definition set_completed (r : ProcessingRequest) (b : bool) : ProcessingRequest :=
  mkProcessingRequest (request_pk r) (request_id r) (created_at r) b (result_file r).

(** [product.output_image_urls = out; product.processed = True]. *)
Definition set_output (p : Product) (out : string) : Product :=
  mkProduct (product_pk p) (request p) (serial_number p) (name p)
            (input_image_urls p) out true.

(** [ProcessingRequest.objects.filter(request_id=rid)]. *)
Definition filter_request_id (d : DB) (rid : string) : list ProcessingRequest :=
  filter (fun r => String.eqb (request_id r) rid) (ProcessingRequest_objects d).

(** [r.product_set.all()]. The model declares no ordering; the rows come in
    the order of insertion, which is the order of the primary keys. *)
Definition product_set (d : DB) (r : ProcessingRequest) : list Product :=
  filter (fun p => Nat.eqb (request p) (request_pk r)) (Product_objects d).

Definition find_product (d : DB) (pk : nat) : option Product :=
  find (fun p => Nat.eqb (product_pk p) pk) (Product_objects d).

(** [Model.save()] on a row: update the row of that key, insert when there is
    none. *)
Definition upsert {A : Type} (key : A -> nat) (x : A) (rows : list A) : list A :=
  if existsb (fun y => Nat.eqb (key y) (key x)) rows
  then map (fun y => if Nat.eqb (key y) (key x) then x else y) rows
  else (rows ++ [x])%list.

Definition save_product (p : Product) (d : DB) : DB :=
  mkDB (ProcessingRequest_objects d) (upsert product_pk p (Product_objects d)).

Definition save_request (r : ProcessingRequest) (d : DB) : DB :=
  mkDB (upsert request_pk r (ProcessingRequest_objects d)) (Product_objects d).

Definition fresh_pk {A : Type} (key : A -> nat) (rows : list A) : nat :=
  S (fold_right Nat.max 0 (map key rows)).

End models.
Import models.

(* ================================================================= *)
(** ** The world outside and the state the program acts on *)

(** What [Image.open] returns. *)
Record Image : Type := mkImage { format : string; pixels : string }.

(** Writes to the record store that the store may refuse. *)
Inductive DbOp : Type :=
| SaveProduct (p : Product)
| SaveRequest (r : ProcessingRequest)
| CreateRequest (request_id : string)
| CreateProduct (request : nat) (serial_number : Z) (name input_image_urls : string).

Record World : Type := mkWorld {
  (** [settings.MEDIA_ROOT], [settings.MEDIA_URL] *)
  MEDIA_ROOT : string;
  MEDIA_URL : string;
  (** [requests.get(url)] then [raise_for_status()], for a URL that is not
      empty: the body, or the exception raised *)
  http_get : string -> result string;
  (** [Image.open(BytesIO(content))] *)
  Image_open : string -> result Image;
  (** [img.save(img_io, format=..., quality=...)]: the bytes of [img_io] *)
  Image_save : Image -> string -> Z -> result string;
  (** [os.makedirs(path, exist_ok=True)]: the message of the [OSError] it
      raises, if it does *)
  os_makedirs : string -> option string;
  (** [open(path, "wb")] and the write that follows: the message of the
      [OSError] raised, if one is *)
  open_wb : string -> option string;
  (** what the record store answers to a write *)
  db_fault : DbOp -> option exn;
  (** [Storage.save(name, content)]: the name the file is kept under *)
  storage_save : string -> string -> result string;
  (** [Storage.url(name)] *)
  storage_url : string -> string;
  (** [str(uuid.uuid4())] of the upload being served, and its clock *)
  uuid4 : string;
  now : Z;
  (** [bytes.decode("utf-8")]: whether the bytes are valid UTF-8 *)
  utf8_valid : string -> bool;
  (** [int(s)] *)
  int_of_str : string -> option Z;
  (** [datetime.isoformat()] as the serializer renders it *)
  isoformat : Z -> string
}.

(** What the program does to the outside, newest first in a trace:
    [HttpGet url] is a call of [requests.get(url)], whatever comes of it;
    an event of the record store carries the database as the write left
    it. *)
Inductive Event : Type :=
| HttpGet (url : string)
| FileWritten (path : string) (data : string)
| Stored (name : string) (content : string)
| ProductSaved (p : Product) (after : DB)
| RequestSaved (r : ProcessingRequest) (after : DB)
| ProductCreated (p : Product) (after : DB)
| RequestCreated (r : ProcessingRequest) (after : DB).

Inductive Level : Type := INFO | ERROR.

Record State : Type := mkState {
  db : DB;
  files : list (string * string);
  trace : list Event;
  log : list (Level * string)
}.

(** Computations that read and change the state and may raise. An exception
    leaves the state as it was when it was raised. *)
Definition M (A : Type) : Type := State -> result A * State.

Definition ret {A : Type} (a : A) : M A := fun s => (Ok a, s).

Definition raise {A : Type} (e : exn) : M A := fun s => (Raise e, s).

Definition bind {A B : Type} (m : M A) (k : A -> M B) : M B :=
  fun s =>
    match m s with
    | (Ok a, s') => k a s'
    | (Raise e, s') => (Raise e, s')
    end.

(** [try: m  except Exception as e: h e]. *)
Definition try_except {A : Type} (m : M A) (h : exn -> M A) : M A :=
  fun s =>
    match m s with
    | (Ok a, s') => (Ok a, s')
    | (Raise e, s') => h e s'
    end.

Definition lift {A : Type} (r : result A) : M A := fun s => (r, s).

Declare Scope monad_scope.
Delimit Scope monad_scope with monad.
Notation "x <- m ;; k" := (bind m (fun x => k))
  (at level 61, m at next level, right associativity) : monad_scope.
Notation "' pat <- m ;; k" := (bind m (fun x => let 'pat := x in k))
  (at level 61, pat pattern, m at next level, right associativity) : monad_scope.
Notation "m ;; k" := (bind m (fun _ => k))
  (at level 61, right associativity) : monad_scope.
Open Scope monad_scope.

Definition emit (e : Event) : M unit :=
  fun s => (Ok tt, mkState (db s) (files s) (e :: trace s) (log s)).

Definition logger (lvl : Level) (msg : string) : M unit :=
  fun s => (Ok tt, mkState (db s) (files s) (trace s) ((lvl, msg) :: log s)).

Definition logger_info : string -> M unit := logger INFO.
Definition logger_error : string -> M unit := logger ERROR.

Definition write_file (path data : string) : M unit :=
  fun s => (Ok tt, mkState (db s) ((path, data) :: files s)
                           (FileWritten path data :: trace s) (log s)).

Definition store_file (name content : string) : M unit :=
  fun s => (Ok tt, mkState (db s) ((name, content) :: files s)
                           (Stored name content :: trace s) (log s)).

Section Store.

Variable w : World.

(** [ProcessingRequest.objects.get(request_id=rid)]. *)
Definition objects_get (rid : string) : M ProcessingRequest :=
  fun s =>
    match filter_request_id (db s) rid with
    | [] => (Raise (Exn DoesNotExist "ProcessingRequest matching query does not exist."), s)
    | [r] => (Ok r, s)
    | _ :: _ :: _ =>
        (Raise (Exn MultipleObjectsReturned
                    "get() returned more than one ProcessingRequest"), s)
    end.

(** [r.product_set.all()], evaluated. *)
Definition product_set_all (r : ProcessingRequest) : M (list Product) :=
  fun s => (Ok (product_set (db s) r), s).

(** [product.save()]. *)
Definition Product_save (p : Product) : M unit :=
  fun s =>
    match db_fault w (SaveProduct p) with
    | Some e => (Raise e, s)
    | None =>
        let d := save_product p (db s) in
        (Ok tt, mkState d (files s) (ProductSaved p d :: trace s) (log s))
    end.

(** [processing_request.save()]. *)
Definition ProcessingRequest_save (r : ProcessingRequest) : M unit :=
  fun s =>
    match db_fault w (SaveRequest r) with
    | Some e => (Raise e, s)
    | None =>
        let d := save_request r (db s) in
        (Ok tt, mkState d (files s) (RequestSaved r d :: trace s) (log s))
    end.

(** [ProcessingRequest.objects.create(request_id=rid)]; [request_id] is
    [unique]. *)
Definition ProcessingRequest_create (rid : string) : M ProcessingRequest :=
  fun s =>
    match db_fault w (CreateRequest rid) with
    | Some e => (Raise e, s)
    | None =>
        match filter_request_id (db s) rid with
        | _ :: _ =>
            (Raise (Exn IntegrityError "UNIQUE constraint failed: request_id"), s)
        | [] =>
            let r := mkProcessingRequest
                       (fresh_pk request_pk (ProcessingRequest_objects (db s)))
                       rid (now w) false None in
            let d := mkDB (ProcessingRequest_objects (db s) ++ [r])%list
                          (Product_objects (db s)) in
            (Ok r, mkState d (files s) (RequestCreated r d :: trace s) (log s))
        end
    end.

(** What a column keeps of a value: an integer column puts it through [int],
    a text column through [str]; [None] stays the null it is. *)
Definition int_column (v : value) : option (result Z) :=
  match v with
  | None_ => None
  | Bool b => Some (Ok (if b then 1 else 0)%Z)
  | Int z => Some (Ok z)
  | Str t =>
      match int_of_str w t with
      | Some z => Some (Ok z)
      | None =>
          Some (Raise (Exn ValueError
                           ("Field 'serial_number' expected a number but got '"
                            ++ t ++ "'.")))
      end
  end.

Definition text_column (v : value) : option string :=
  match v with
  | None_ => None
  | _ => Some (csv.field_text v)
  end.

(** [Product.objects.create(request=r, serial_number=sn, name=nm,
    input_image_urls=urls)]: the values are prepared for their columns, then
    the row is inserted; no column accepts a null. *)
Definition Product_create (r : ProcessingRequest) (sn nm urls : value) : M Product :=
  fun s =>
    match int_column sn with
    | Some (Raise e) => (Raise e, s)
    | Some (Ok n) =>
        match text_column nm, text_column urls with
        | Some nm, Some urls =>
            match db_fault w (CreateProduct (request_pk r) n nm urls) with
            | Some e => (Raise e, s)
            | None =>
                let p := mkProduct (fresh_pk product_pk (Product_objects (db s)))
                                   (request_pk r) n nm urls EmptyString false in
                let d := mkDB (ProcessingRequest_objects (db s))
                              (Product_objects (db s) ++ [p])%list in
                (Ok p, mkState d (files s) (ProductCreated p d :: trace s) (log s))
            end
        | _, _ => (Raise (Exn IntegrityError "NOT NULL constraint failed"), s)
        end
    | None => (Raise (Exn IntegrityError "NOT NULL constraint failed"), s)
    end.

(** [FieldFile.save(name, content, save=True)] on [r.result_file], whose
    field has [upload_to="results/"]. *)
Definition result_file_save (r : ProcessingRequest) (name content : string)
  : M ProcessingRequest :=
  fun s =>
    match storage_save w (path_join "results/" [name]) content with
    | Raise e => (Raise e, s)
    | Ok stored =>
        let r' := set_result_file r stored in
        (stored_ <- store_file stored content ;;
         saved_ <- ProcessingRequest_save r' ;;
         ret r') s
    end.

End Store.

(* ================================================================= *)
(** ** [processing/tasks.py]: [ImageProcessingTask] *)

Module ImageProcessingTask.

(** The instance: [self.request_id], [self.processing_request] (the row as
    this task holds it in memory), [self.output_directory]. *)
Record Task : Type := mkTask {
  self_request_id : string;
  processing_request : ProcessingRequest;
  output_directory : string
}.

Definition fieldnames : list string :=
  ["Serial Number"; "Product Name"; "Input Image Urls"; "Output Image Urls"].

(** The row appended to [output_data] for a product. *)
Definition output_row (product : Product) : dict :=
  [("Serial Number", Int (serial_number product));
   ("Product Name", Str (name product));
   ("Input Image Urls", Str (input_image_urls product));
   ("Output Image Urls", Str (output_image_urls product))].

Section Task.

Variable w : World.

(** [requests.get(url)] followed by [response.raise_for_status()]. An empty
    URL has no scheme: [requests] refuses it with [MissingSchema] before it
    goes to the network. *)
Definition requests_get (url : string) : result string :=
  if String.eqb url EmptyString
  then Raise (Exn MissingSchema "Invalid URL '': No scheme supplied.")
  else http_get w url.

Definition __init__ (request_id : string) : M Task :=
  processing_request <-
    try_except (objects_get request_id)
      (fun e =>
         if isinstance e DoesNotExist then
           let msg := "ProcessingRequest with request ID " ++ request_id
                      ++ " does not exist." in
           logger_error msg ;; raise (Exn ValueError msg)
         else raise e) ;;
  let output_directory := path_join (MEDIA_ROOT w) ["processed_images"] in
  match os_makedirs w output_directory with
  | Some msg => raise (Exn OSError msg)
  | None => ret (mkTask request_id processing_request output_directory)
  end.

(** The body of the [try] block for one URL (lines 57 to 73). It gives the
    binding of the local [filename] as the block is left, and the outcome:
    the lengthened [output_urls], or the exception raised. *)
Definition try_block (self : Task) (url : string) (filename : option string)
           (output_urls : list string)
  : State -> (option string * result (list string)) * State :=
  fun s =>
    let s := snd (emit (HttpGet url) s) in
    match requests_get url with
    | Raise e => ((filename, Raise e), s)
    | Ok content =>
        match Image_open w content with
        | Raise e => ((filename, Raise e), s)
        | Ok img =>
            match Image_save w img (format img) 50 with
            | Raise e => ((filename, Raise e), s)
            | Ok img_io =>
                let filename := "compressed_" ++ basename url in
                let file_path := path_join (output_directory self) [filename] in
                match open_wb w file_path with
                | Some msg => ((Some filename, Raise (Exn OSError msg)), s)
                | None =>
                    let s := snd (write_file file_path img_io s) in
                    let image_url :=
                      path_join (MEDIA_URL w) ["processed_images"; filename] in
                    ((Some filename, Ok (output_urls ++ [image_url])%list), s)
                end
            end
        end
    end.

(** One turn of the loop over [input_urls]: the [try] block and its three
    handlers, tried in the order they are written. The second handler formats
    [filename], which is unbound until some URL has got as far as line 64. *)
Definition process_url (self : Task) (url : string) (filename : option string)
           (output_urls : list string) : M (option string * list string) :=
  fun s =>
    let s := snd (logger_info ("Processing image from URL: " ++ url) s) in
    match try_block self url filename output_urls s with
    | ((filename, Ok output_urls), s) => (Ok (filename, output_urls), s)
    | ((filename, Raise e), s) =>
        if isinstance e RequestException then
          let msg := "Failed to fetch image from URL " ++ url ++ ": " ++ str e in
          (logger_error msg ;; raise (Exn ValueError msg)) s
        else if isinstance e IOError then
          match filename with
          | None =>
              (Raise (Exn UnboundLocalError
                          "cannot access local variable 'filename' where it is not associated with a value"),
               s)
          | Some name =>
              let msg := "Failed to save image to file " ++ name ++ ": " ++ str e in
              (logger_error msg ;; raise (Exn ValueError msg)) s
          end
        else
          (logger_error ("Failed to process image from URL " ++ url ++ ": " ++ str e) ;;
           ret (filename, output_urls)) s
    end.

(** [for url in input_urls: ...]. *)
Fixpoint for_urls (self : Task) (input_urls : list string) (filename : option string)
         (output_urls : list string) : M (option string * list string) :=
  match input_urls with
  | [] => ret (filename, output_urls)
  | url :: rest =>
      '(filename, output_urls) <- process_url self url filename output_urls ;;
      for_urls self rest filename output_urls
  end.

(** The body of the loop over [products] (lines 51 to 98). *)
Definition process_product (self : Task) (product : Product) (filename : option string)
           (output_data : list dict) : M (option string * list dict) :=
  let input_urls := split COMMA (input_image_urls product) in
  '(filename, output_urls) <- for_urls self input_urls filename [] ;;
  let product := set_output product (join "," output_urls) in
  Product_save w product ;;
  ret (filename, (output_data ++ [output_row product])%list).

(** [for product in products: ...]. *)
Fixpoint for_products (self : Task) (products : list Product) (filename : option string)
         (output_data : list dict) : M (option string * list dict) :=
  match products with
  | [] => ret (filename, output_data)
  | product :: rest =>
      '(filename, output_data) <- process_product self product filename output_data ;;
      for_products self rest filename output_data
  end.

(** The text of the summary file for [output_data]. *)
Definition csv_file (output_data : list dict) : result string :=
  match csv.writeheader fieldnames with
  | Raise e => Raise e
  | Ok header =>
      match csv.writerows fieldnames output_data with
      | Raise e => Raise e
      | Ok rows => Ok (header ++ rows)
      end
  end.

Definition generate_csv (self : Task) (output_data : list dict) : M Task :=
  try_except
    (csv_file_content <- lift (csv_file output_data) ;;
     processing_request <-
       result_file_save w (processing_request self)
                        "results/result_file.csv" csv_file_content ;;
     logger_info ("CSV file saved to: "
                  ++ match result_file processing_request with
                     | Some name => storage_url w name
                     | None => EmptyString
                     end) ;;
     ret (mkTask (self_request_id self) processing_request (output_directory self)))
    (fun e =>
       let msg := "Failed to generate and save CSV file: " ++ str e in
       logger_error msg ;; raise (Exn ValueError msg)).

Definition complete_request (self : Task) : M Task :=
  try_except
    (let processing_request := set_completed (processing_request self) true in
     ProcessingRequest_save w processing_request ;;
     logger_info ("Task completed for request ID: " ++ self_request_id self) ;;
     ret (mkTask (self_request_id self) processing_request (output_directory self)))
    (fun e =>
       let msg := "Failed to update request status to completed: " ++ str e in
       logger_error msg ;; raise (Exn ValueError msg)).

Definition process_images (self : Task) : M unit :=
  products <- product_set_all (processing_request self) ;;
  '(_, output_data) <- for_products self products None [] ;;
  self <- try_except (generate_csv self output_data)
            (fun e =>
               let msg := "Failed to generate CSV file: " ++ str e in
               logger_error msg ;; raise (Exn ValueError msg)) ;;
  try_except (complete_request self ;; ret tt)
    (fun e =>
       let msg := "Failed to complete request: " ++ str e in
       logger_error msg ;; raise (Exn ValueError msg)).

Definition run (request_id : string) : M unit :=
  logger_info ("Task request received for request ID: " ++ request_id) ;;
  try_except
    (task_instance <- __init__ request_id ;;
     process_images task_instance)
    (fun e =>
       if isinstance e ValueError then
         logger_error ("Error processing request ID " ++ request_id ++ ": " ++ str e)
       else raise e).

End Task.

End ImageProcessingTask.

(* ================================================================= *)
(** ** [image_processor/response.py] *)

Module response.

(** A [Response]: its body and the [status] it was built with. *)
Record Response : Type := mkResponse {
  data : dict;
  status : option Z
}.

(** [APIResponse(data, status=..., message=...)]. *)
Definition APIResponse (data : dict) (status : option Z) (message : string) : Response :=
  mkResponse (if String.eqb message EmptyString then data
              else dict_set data "message" (Str message))
             status.

(** [ErrorAPIResponse(message=..., status=...)]. *)
Definition ErrorAPIResponse (message : string) (status : option Z) : Response :=
  mkResponse [("error", Str message)] status.

Definition HTTP_200_OK : Z := 200.
Definition HTTP_201_CREATED : Z := 201.
Definition HTTP_400_BAD_REQUEST : Z := 400.
Definition HTTP_404_NOT_FOUND : Z := 404.

(** The status line the client gets: a response built without a status is
    sent as 200. *)
Definition status_code (r : Response) : Z :=
  match status r with
  | Some code => code
  | None => HTTP_200_OK
  end.

End response.
Import response.

(* ================================================================= *)
(** ** [processing/serializers.py] *)

Module serializers.

(** A [ModelSerializer] subclass as it is declared: the fields written in the
    class body and the [Meta.fields] list. *)
Record ModelSerializer : Type := mkSerializer {
  declared_fields : list string;
  Meta_fields : list string
}.


Definition ProcessingRequestSerializer : ModelSerializer :=
  mkSerializer ["products"] ["request_id"; "created_at"; "completed"].

(** [ModelSerializer.get_field_names]: a field declared on the class has to
    be listed in [Meta.fields]. *)
Definition get_field_names (c : ModelSerializer) : result (list string) :=
  match filter (fun f => negb (mem f (Meta_fields c))) (declared_fields c) with
  | [] => Ok (Meta_fields c)
  | field_name :: _ =>
      Raise (Exn AssertionError
                 ("The field '" ++ field_name
                  ++ "' was declared on serializer, but has not been included in the 'fields' option."))
  end.

Section Serializer.

Variable w : World.

(** The representation of one model field of a [ProcessingRequest]. *)
Definition request_field (instance : ProcessingRequest) (f : string) : result value :=
  if String.eqb f "id" then Ok (Int (Z.of_nat (request_pk instance)))
  else if String.eqb f "request_id" then Ok (Str (request_id instance))
  else if String.eqb f "created_at" then Ok (Str (isoformat w (created_at instance)))
  else if String.eqb f "completed" then Ok (Bool (completed instance))
  else if String.eqb f "result_file" then
    Ok (match result_file instance with
        | Some n => Str (storage_url w n)
        | None => None_
        end)
  else Raise (Exn ImproperlyConfigured
                  ("Field name `" ++ f ++ "` is not valid for model `ProcessingRequest`.")).

Fixpoint to_representation (instance : ProcessingRequest) (names : list string)
  : result dict :=
  match names with
  | [] => Ok []
  | f :: rest =>
      match request_field instance f with
      | Raise e => Raise e
      | Ok v =>
          match to_representation instance rest with
          | Raise e => Raise e
          | Ok d => Ok ((f, v) :: d)
          end
      end
  end.

(** [ProcessingRequestSerializer(instance).data]. *)
Definition serializer_data (instance : ProcessingRequest) : result dict :=
  match get_field_names ProcessingRequestSerializer with
  | Raise e => Raise e
  | Ok names => to_representation instance names
  end.




End Serializer.

End serializers.

(* ================================================================= *)
(** ** [processing/views.py] *)

Module views.

(** [processing/messages.py] is not among the sources: its constants are
    taken as given. *)
Record Messages : Type := mkMessages {
  NO_UPLOADED_FILE : string;
  NOT_CSV_FILE : string;
  CSV_FILE_READ_ERROR : string;
  CSV_ERROR : string;
  UPLOAD_CSV_EXCEPPTION : string;
  IMAGE_PROCESSING_EXCEPTION : string;
  MISSING_REQUEST_ID : string;
  STATUS_EXCEPTION : string
}.

Record UploadedFile : Type := mkUploadedFile {
  file_name : string;
  file_bytes : string
}.

(** The HTTP request as the views read it. *)
Record Request : Type := mkRequest {
  FILES : list (string * UploadedFile);
  query_params : list (string * string)
}.

Fixpoint lookup {A : Type} (l : list (string * A)) (k : string) : option A :=
  match l with
  | [] => None
  | (k', v) :: l' => if String.eqb k k' then Some v else lookup l' k
  end.

Definition required_columns : list string :=
  ["Serial Number"; "Product Name"; "Input Image Urls"].

(** [str(v)] inside a formatted message. *)
Definition format_value (v : value) : string :=
  match v with
  | None_ => "None"
  | _ => csv.field_text v
  end.

Section Views.

Variable w : World.
Variable messages : Messages.

(** [row[key]]. *)
Definition getitem (row : dict) (key : string) : M value :=
  match dict_get row key with
  | Some v => ret v
  | None => raise (Exn KeyError ("'" ++ key ++ "'"))
  end.

(** [for row in reader: Product.objects.create(...)], the reader ending with
    [err] when it has one. *)
Fixpoint create_products (request_id : string) (processing_request : ProcessingRequest)
         (rows : list dict) (err : option exn) : M unit :=
  match rows with
  | [] =>
      match err with
      | Some e => raise e
      | None => ret tt
      end
  | row :: rest =>
      serial_number <- getitem row "Serial Number" ;;
      name <- getitem row "Product Name" ;;
      input_image_urls <- getitem row "Input Image Urls" ;;
      Product_create w processing_request serial_number name input_image_urls ;;
      serial_number <- getitem row "Serial Number" ;;
      logger_info ("Product created for request ID: " ++ request_id
                   ++ ", Serial Number: " ++ format_value serial_number) ;;
      create_products request_id processing_request rest err
  end.

(** The first [try] block of [post] (lines 62 to 141): [Some] response when it
    returns one, [None] when it runs to its end. *)
Definition post_try (request : Request) (request_id : string) : M (option Response) :=
  match lookup (FILES request) "file" with
  | None =>
      logger_error ("No file uploaded for request ID: " ++ request_id) ;;
      ret (Some (ErrorAPIResponse (NO_UPLOADED_FILE messages) (Some HTTP_400_BAD_REQUEST)))
  | Some file_obj =>
      if negb (endswith (file_name file_obj) ".csv") then
        logger_error ("Uploaded file is not a CSV for request ID: " ++ request_id) ;;
        ret (Some (ErrorAPIResponse (NOT_CSV_FILE messages) (Some HTTP_400_BAD_REQUEST)))
      else
        processing_request <- ProcessingRequest_create w request_id ;;
        logger_info ("Processing request created. Request ID: " ++ request_id) ;;
        file_content <-
          (if utf8_valid w (file_bytes file_obj) then ret (file_bytes file_obj)
           else raise (Exn UnicodeDecodeError "'utf-8' codec can't decode bytes")) ;;
        let file_wrapper := csv.StringIO file_content in
        fieldnames <- lift (csv.DictReader_fieldnames csv.field_size_limit file_wrapper) ;;
        match fieldnames with
        | None =>
            logger_error ("Failed to read CSV file for request ID: " ++ request_id) ;;
            ret (Some (ErrorAPIResponse (CSV_FILE_READ_ERROR messages)
                                        (Some HTTP_400_BAD_REQUEST)))
        | Some fieldnames =>
            let missing_columns :=
              filter (fun col => negb (mem col fieldnames)) required_columns in
            match missing_columns with
            | _ :: _ =>
                logger_error ("Missing columns in CSV for request ID: " ++ request_id
                              ++ ". Missing: " ++ join ", " missing_columns) ;;
                ret (Some (ErrorAPIResponse ("Missing columns: " ++ join ", " missing_columns)
                                            (Some HTTP_400_BAD_REQUEST)))
            | [] =>
                let (rows, err) := csv.DictReader_rows csv.field_size_limit file_wrapper in
                create_products request_id processing_request rows err ;;
                ret None
            end
        end
  end.

(** [UploadCSVView.post]. The last handler of the first [try] builds a plain
    [Response] with a [message] keyword, which [Response] does not take. *)
Definition post (request : Request) : M Response :=
  let request_id := uuid4 w in
  logger_info ("Received CSV upload request. Request ID: " ++ request_id) ;;
  returned <-
    try_except (post_try request request_id)
      (fun e =>
         if isinstance e csv_Error then
           logger_error ("CSV processing error for request ID: " ++ request_id
                         ++ ". Error: " ++ str e) ;;
           ret (Some (ErrorAPIResponse (CSV_ERROR messages) (Some HTTP_400_BAD_REQUEST)))
         else
           logger_error ("Unexpected error during CSV upload for request ID: "
                         ++ request_id ++ ". Error: " ++ str e) ;;
           raise (Exn TypeError
                      "Response.__init__() got an unexpected keyword argument 'message'")) ;;
  match returned with
  | Some resp => ret resp
  | None =>
      returned <-
        try_except
          (ImageProcessingTask.run w request_id ;;
           logger_info ("Image processing task triggered for request ID: " ++ request_id) ;;
           ret None)
          (fun e =>
             logger_error ("Error triggering image processing task for request ID: "
                           ++ request_id ++ ". Error: " ++ str e) ;;
             ret (Some (ErrorAPIResponse (IMAGE_PROCESSING_EXCEPTION messages)
                                         (Some HTTP_400_BAD_REQUEST)))) ;;
      match returned with
      | Some resp => ret resp
      | None =>
          logger_info ("CSV upload and image processing initiated successfully for request ID: "
                       ++ request_id) ;;
          ret (APIResponse [("request_id", Str request_id)] (Some HTTP_201_CREATED) EmptyString)
      end
  end.

(** [get_object_or_404(ProcessingRequest, request_id=rid)]. *)
Definition get_object_or_404 (rid : string) : M ProcessingRequest :=
  try_except (objects_get rid)
    (fun e =>
       if isinstance e DoesNotExist
       then raise (Exn Http404 "No ProcessingRequest matches the given query.")
       else raise e).

(** [StatusCheckView.get]. *)
Definition get (request : Request) : M Response :=
  let request_id := lookup (query_params request) "request_id" in
  try_except
    (match request_id with
     | None | Some EmptyString =>
         logger_error "Missing request ID in status check request." ;;
         ret (ErrorAPIResponse (MISSING_REQUEST_ID messages) (Some HTTP_400_BAD_REQUEST))
     | Some request_id =>
         processing_request <- get_object_or_404 request_id ;;
         logger_info ("Status check for request ID: " ++ request_id) ;;
         logger_info ("Status check successful for request ID: " ++ request_id) ;;
         data <- lift (serializers.serializer_data w processing_request) ;;
         ret (APIResponse data (Some HTTP_200_OK) EmptyString)
     end)
    (fun e =>
       logger_error ("Error during status check for request ID: "
                     ++ match request_id with Some r => r | None => "None" end
                     ++ ". Error: " ++ str e) ;;
       ret (ErrorAPIResponse (STATUS_EXCEPTION messages) None)).

End Views.

End views.

(* ================================================================= *)
(** ** Vocabulary of the properties *)

Module props.
Import ImageProcessingTask.

(** The database as an event leaves it, for the events that write to it. *)
Definition snapshot (e : Event) : option DB :=
  match e with
  | ProductSaved _ d | RequestSaved _ d
  | ProductCreated _ d | RequestCreated _ d => Some d
  | HttpGet _ | FileWritten _ _ | Stored _ _ => None
  end.

(** The products saved by a trace, oldest first. *)
Fixpoint saved_products (tr : list Event) : list Product :=
  match tr with
  | [] => []
  | ProductSaved p _ :: tr' => (saved_products tr' ++ [p])%list
  | _ :: tr' => saved_products tr'
  end.

(** The URLs fetched by a trace, oldest first. *)
Fixpoint fetched (tr : list Event) : list string :=
  match tr with
  | [] => []
  | HttpGet url :: tr' => (fetched tr' ++ [url])%list
  | _ :: tr' => fetched tr'
  end.

(** The fields of an item in the summary file. *)
Definition summary_fields (p : Product) : list string :=
  [str_int (serial_number p); name p; input_image_urls p; output_image_urls p].

(** An item as [DictReader] gives it back from the summary file. *)
Definition summary_dict (p : Product) : dict :=
  [("Serial Number", Str (str_int (serial_number p)));
   ("Product Name", Str (name p));
   ("Input Image Urls", Str (input_image_urls p));
   ("Output Image Urls", Str (output_image_urls p))].

(** No field of the record is longer than [limit]. *)
Definition fields_within (limit : nat) (fs : list string) : Prop :=
  Forall (fun f => String.length f <= limit) fs.

Section Props.

Variable w : World.

(** Where the output of [url] is published and where its file is written. *)
Definition image_url (url : string) : string :=
  path_join (MEDIA_URL w) ["processed_images"; "compressed_" ++ basename url].

Definition file_path (self : Task) (url : string) : string :=
  path_join (output_directory self) ["compressed_" ++ basename url].

(** The fetch of [url] fails: [requests] raises one of its exceptions. *)
Definition fetch_fails (url : string) : bool :=
  match requests_get w url with
  | Raise e => isinstance e RequestException
  | Ok _ => false
  end.

(** [url] is fetched and transcoded. *)
Definition transcodes (url : string) : bool :=
  match requests_get w url with
  | Ok content =>
      match Image_open w content with
      | Ok img => is_ok (Image_save w img (format img) 50)
      | Raise _ => false
      end
  | Raise _ => false
  end.

(** The outputs an item is due: one per input URL that is fetched and
    transcoded, in the order of the input URLs. *)
Definition outputs_due (input_urls : list string) : list string :=
  map image_url (filter transcodes input_urls).

(** The row of an item once processed. *)
Definition processed_row (p : Product) : Product :=
  set_output p (join "," (outputs_due (split COMMA (input_image_urls p)))).

(** The database once the items [done] have been saved as processed. *)
Definition save_all (done : list Product) (d : DB) : DB :=
  fold_left (fun d q => save_product (processed_row q) d) done d.

(** No URL of the item is one whose fetch fails. *)
Definition fetchable (p : Product) : bool :=
  forallb (fun url => negb (fetch_fails url)) (split COMMA (input_image_urls p)).

End Props.

(** [table] with [f] applied to the rows whose key is in [keys]. *)
Definition mark (f : Product -> Product) (keys : list nat) (table : list Product)
  : list Product :=
  map (fun row => if existsb (Nat.eqb (product_pk row)) keys then f row else row) table.

(** What the loop over the products may add to the trace while the table of
    requests is [reqs]. *)
Definition loop_event (reqs : list ProcessingRequest) (e : Event) : Prop :=
  match e with
  | HttpGet _ | FileWritten _ _ | Stored _ _ => True
  | ProductSaved _ d => ProcessingRequest_objects d = reqs
  | _ => False
  end.

(** *** Reading a file character by character *)

(** [yields limit pending r text out]: a reader that stands at [r] inside the
    current line ([pending]: some of the line has been read) gives [out] when
    the rest of the file is [text]. *)
Definition yields (limit : nat) (pending : bool) (r : csv.Reader) (text : string)
           (out : list (list string) * option exn) : Prop :=
  forall r0 cur,
    csv.process_chars limit r0 cur = Ok r ->
    (cur = EmptyString <-> pending = false) ->
    csv.Reader_iter limit r0 (csv.readlines_from cur text) = out.

(** What ends a field, and where the parser stands after it. *)
Definition after (d : ascii) : csv.ParserState :=
  if Ascii.eqb d COMMA then csv.START_FIELD else csv.EAT_CRNL.

(** The text [writerow] gives a record of two fields or more. *)
Definition record_text (fs : list string) : string :=
  join "," (map csv.join_append fs) ++ csv.lineterminator.

Fixpoint file_text (records : list (list string)) : string :=
  match records with
  | [] => EmptyString
  | fs :: rest => record_text fs ++ file_text rest
  end.

(** A record of two fields or more, none longer than the reader accepts. *)
Definition well_sized (limit : nat) (fs : list string) : Prop :=
  2 <= List.length fs /\ Forall (fun f => String.length f <= limit) fs.

(** The header of an uploaded manifest does not pass: the file has no
    record, or reading its first record fails, or a required column is not
    in it. *)
Definition header_rejected (content : string) : bool :=
  match csv.DictReader_fieldnames csv.field_size_limit (csv.StringIO content) with
  | Ok None => true
  | Raise _ => true
  | Ok (Some fieldnames) =>
      negb (forallb (fun col => mem col fieldnames) views.required_columns)
  end.

(** Every item belongs to a request of the store. *)
Definition references_valid (d : DB) : Prop :=
  forall p, In p (Product_objects d) ->
            exists r, In r (ProcessingRequest_objects d) /\ request p = request_pk r.

(** Primary keys are unique. *)
Definition keys_unique (d : DB) : Prop :=
  NoDup (map product_pk (Product_objects d))
  /\ NoDup (map request_pk (ProcessingRequest_objects d)).

(** The job [rid] is marked completed in [d]. *)
Definition completed_in (d : DB) (rid : string) : bool :=
  existsb completed (filter_request_id d rid).

(** Every item of the job [rid] is marked processed in [d]. *)
Definition all_processed (d : DB) (rid : string) : bool :=
  forallb (fun r => forallb processed (product_set d r)) (filter_request_id d rid).

(** The job [rid] has its summary file in [d]. *)
Definition has_result_file (d : DB) (rid : string) : bool :=
  forallb (fun r => match result_file r with Some _ => true | None => false end)
          (filter_request_id d rid).

End props.

(* ================================================================= *)
(** ** Vocabulary of the further properties *)

Module cover.
Import ImageProcessingTask props.

(** [c] does not occur in [s]. *)
Definition free_of (c : ascii) (s : string) : bool :=
  negb (csv.any_char (fun x => Ascii.eqb x c) s).

(** The number of occurrences of [c] in [s]. *)
Fixpoint count_char (c : ascii) (s : string) : nat :=
  match s with
  | EmptyString => 0
  | String x s' => (if Ascii.eqb x c then 1 else 0) + count_char c s'
  end.

(** What a manifest row gives an item: its serial number, its name and its
    input URLs, when the three columns are there and the store takes them. *)
Definition manifest_item (w : World) (row : dict) : option (Z * string * string) :=
  match dict_get row "Serial Number",
        dict_get row "Product Name",
        dict_get row "Input Image Urls" with
  | Some sn, Some nm, Some urls =>
      match int_column w sn, text_column nm, text_column urls with
      | Some (Ok n), Some nm, Some urls => Some (n, nm, urls)
      | _, _, _ => None
      end
  | _, _, _ => None
  end.

(** What an item was created from. *)
Definition item_of (p : Product) : Z * string * string :=
  (serial_number p, name p, input_image_urls p).

(** An item as it is created: of the request [r], not processed, without
    outputs. *)
Definition newly_created (r : ProcessingRequest) (p : Product) : Prop :=
  request p = request_pk r /\ processed p = false
  /\ output_image_urls p = EmptyString.

(** The fields of an item that processing has no business changing. *)
Definition input_fields (p : Product) : nat * nat * Z * string * string :=
  (product_pk p, request p, serial_number p, name p, input_image_urls p).

Section Cover.

Variable w : World.

(** The exception is one the third handler of the loop takes: it is neither
    of [requests] nor an [OSError]. *)
Definition tolerated (e : exn) : bool :=
  negb (isinstance e RequestException) && negb (isinstance e IOError).

(** [url] is skipped: fetching, opening or re-encoding it raises an exception
    that the third handler takes. *)
Definition skipped (url : string) : bool :=
  match requests_get w url with
  | Raise e => tolerated e
  | Ok content =>
      match Image_open w content with
      | Raise e => tolerated e
      | Ok img =>
          match Image_save w img (format img) 50 with
          | Raise e => tolerated e
          | Ok _ => false
          end
      end
  end.

(** [url] goes through: it is fetched, transcoded and its file written. *)
Definition goes_through (self : Task) (url : string) : bool :=
  transcodes w url
  && match open_wb w (file_path self url) with
     | None => true
     | Some _ => false
     end.

(** Every URL of the item goes through or is skipped. *)
Definition passable (self : Task) (p : Product) : bool :=
  forallb (fun url => goes_through self url || skipped url)
          (split COMMA (input_image_urls p)).

(** [url] goes through, is skipped, or its fetch fails. *)
Definition settles (self : Task) (url : string) : bool :=
  goes_through self url || skipped url || fetch_fails w url.

(** The store takes the row as an item of [r]: the row has what an item is
    made of and the insertion is not refused. *)
Definition accepted (r : ProcessingRequest) (row : dict) : bool :=
  match manifest_item w row with
  | Some (n, nm, urls) =>
      match db_fault w (CreateProduct (request_pk r) n nm urls) with
      | None => true
      | Some _ => false
      end
  | None => false
  end.

End Cover.

(** [not request_id] in the status view: the query has no [request_id], or
    an empty one. *)
Definition no_request_id (request : views.Request) : bool :=
  match views.lookup (views.query_params request) "request_id" with
  | None | Some EmptyString => true
  | Some _ => false
  end.

(** The message of the upload view for a request it turns down before it
    creates anything: no [file], or a file whose name does not end in
    [.csv]. *)
Definition refused_upload (messages : views.Messages) (request : views.Request)
  : option string :=
  match views.lookup (views.FILES request) "file" with
  | None => Some (views.NO_UPLOADED_FILE messages)
  | Some file_obj =>
      if endswith (views.file_name file_obj) ".csv" then None
      else Some (views.NOT_CSV_FILE messages)
  end.

(** The request the upload view creates in the store [d]. *)
Definition created_request (w : World) (d : DB) : ProcessingRequest :=
  mkProcessingRequest (fresh_pk request_pk (ProcessingRequest_objects d))
                      (uuid4 w) (now w) false None.

(** The store is consistent: primary keys are unique and every item belongs
    to a request. *)
Definition consistent (d : DB) : Prop := keys_unique d /\ references_valid d.

(** The upload view takes the file of the request as a manifest: there is a
    file, named as a CSV file, its bytes are text, its header has the
    required columns, and the store lets the request of the upload be
    created under an identifier it does not have yet. *)
Definition admissible (w : World) (request : views.Request) (s : State)
           (file_obj : views.UploadedFile) : Prop :=
  views.lookup (views.FILES request) "file" = Some file_obj
  /\ endswith (views.file_name file_obj) ".csv" = true
  /\ db_fault w (CreateRequest (uuid4 w)) = None
  /\ filter_request_id (db s) (uuid4 w) = []
  /\ utf8_valid w (views.file_bytes file_obj) = true
  /\ header_rejected (views.file_bytes file_obj) = false.

(** The rows [DictReader] gives for the bytes of a manifest, and the error
    it ends with, if any. *)
Definition manifest_rows (file_obj : views.UploadedFile) : list dict :=
  fst (csv.DictReader_rows csv.field_size_limit
                           (csv.StringIO (views.file_bytes file_obj))).

Definition manifest_error (file_obj : views.UploadedFile) : option exn :=
  snd (csv.DictReader_rows csv.field_size_limit
                           (csv.StringIO (views.file_bytes file_obj))).

(** Two states with the same store, files and trace. *)
Definition same_effects (a b : State) : Prop :=
  db a = db b /\ files a = files b /\ trace a = trace b.

(** The answer of the upload view to a manifest whose items were handed to
    the pipeline. *)
Definition accepted_response (w : World) : Response :=
  APIResponse [("request_id", Str (uuid4 w))] (Some HTTP_201_CREATED) EmptyString.

(** The task the upload view runs for its request, the store being [d] when
    the upload comes in. *)
Definition upload_task (w : World) (d : DB) : Task :=
  mkTask (uuid4 w) (created_request w d) (path_join (MEDIA_ROOT w) ["processed_images"]).

(** The row makes an item, and each of its URLs goes through or is
    skipped. *)
Definition row_passes (w : World) (d : DB) (row : dict) : bool :=
  match manifest_item w row with
  | Some (_, _, urls) =>
      forallb (fun url => goes_through w (upload_task w d) url || skipped w url)
              (split COMMA urls)
  | None => false
  end.

(** The row makes an item, and each of its URLs goes through, is skipped or
    cannot be fetched. *)
Definition row_settles (w : World) (d : DB) (row : dict) : bool :=
  match manifest_item w row with
  | Some (_, _, urls) => forallb (settles w (upload_task w d)) (split COMMA urls)
  | None => false
  end.

(** The fetch of one of the URLs of the row fails. *)
Definition row_unfetchable (w : World) (row : dict) : bool :=
  match manifest_item w row with
  | Some (_, _, urls) => existsb (fetch_fails w) (split COMMA urls)
  | None => false
  end.

End cover.

(* ================================================================= *)
(** ** A concrete world and some stores *)

Module example.
Import ImageProcessingTask views.

(** A network where [http://x/c.jpg] refuses connections; an image library
    that cannot identify the bytes of [bad.png] and takes [huge.png] for a
    decompression bomb; disks and a record store that work. *)
Definition world : World :=
  mkWorld "/srv/media" "/media/"
    (fun url => if String.eqb url "http://x/c.jpg"
                then Raise (Exn ConnectionError "connection refused")
                else Ok ("bytes of " ++ url))
    (fun content =>
       if String.eqb content "bytes of http://x/bad.png"
       then Raise (Exn UnidentifiedImageError "cannot identify image file")
       else if String.eqb content "bytes of http://x/huge.png"
            then Raise (Exn DecompressionBombError "image size exceeds limit")
            else Ok (mkImage "JPEG" content))
    (fun img fmt quality => Ok ("compressed " ++ pixels img))
    (fun _ => None)
    (fun _ => None)
    (fun _ => None)
    (fun name content => Ok name)
    (fun name => "/media/" ++ name)
    "job-2"
    1700000000
    (fun _ => true)
    (fun t => match NilEmpty.int_of_string t with
              | Some d => Some (Z.of_int d)
              | None => None
              end)
    (fun t => str_int t).

(** The same world with a record store that refuses to save products. *)
Definition world_store_down : World :=
  mkWorld (MEDIA_ROOT world) (MEDIA_URL world) (http_get world) (Image_open world)
          (Image_save world) (os_makedirs world) (open_wb world)
          (fun op => match op with
                     | SaveProduct _ => Some (Exn DatabaseError "database is locked")
                     | _ => None
                     end)
          (storage_save world) (storage_url world) (uuid4 world) (now world)
          (utf8_valid world) (int_of_str world) (isoformat world).

Definition messages : Messages :=
  mkMessages "No file was uploaded." "The file is not a CSV file."
             "The CSV file could not be read." "The CSV file is malformed."
             "The upload failed." "Image processing failed."
             "The request ID is missing." "The status could not be read.".

Definition job : ProcessingRequest := mkProcessingRequest 1 "job-1" 1699999999 false None.

Definition item (pk : nat) (serial : Z) (name urls : string) : Product :=
  mkProduct pk 1 serial name urls EmptyString false.

Definition state_of (items : list Product) : State :=
  mkState (mkDB [job] items) [] [] [].

Definition task : Task := mkTask "job-1" job "/srv/media/processed_images".

(** One item, one URL, fetched but not an image. *)
Definition undecodable : State :=
  state_of [item 1 1 "Widget" "http://x/bad.png"].

(** One item of three URLs, the second fetched but not an image. *)
Definition second_undecodable : State :=
  state_of [item 1 1 "Widget" "http://x/a.jpg,http://x/bad.png,http://x/b.jpg"].

(** Two items, the URL of the second not fetchable. *)
Definition second_unfetchable : State :=
  state_of [item 1 1 "Widget" "http://x/a.jpg,http://x/b.jpg";
            item 2 2 "Gadget" "http://x/c.jpg"].

(** Two items that go through; one image of the second is skipped. *)
Definition sound : State :=
  state_of [item 1 1 "Widget" "http://x/a.jpg,http://x/b.jpg";
            item 2 2 "Gizmo, large" "http://x/huge.png,http://x/d.png"].

(** Two items, the first without URLs. *)
Definition no_urls : State :=
  state_of [item 1 1 "Widget" EmptyString;
            item 2 2 "Gadget" "http://x/a.jpg"].

(** The store once the items of [sound] have been processed. *)
Definition processed_store : State :=
  snd (run world "job-1" sound).

(** A manifest without the column of the input URLs. *)
Definition manifest_without_urls : string :=
  "Serial Number,Product Name" ++ String LF ("1,Widget" ++ String LF EmptyString).

Definition status_query (rid : string) : Request :=
  mkRequest [] [("request_id", rid)].

Definition upload (content : string) : Request :=
  mkRequest [("file", mkUploadedFile "manifest.csv" content)] [].

(** *** Manifests *)

Definition line (text : string) : string := text ++ String LF EmptyString.

Definition header : string := line "Serial Number,Product Name,Input Image Urls".

(** Two rows whose images go through or are skipped. *)
Definition manifest_sound : string :=
  header ++ line "1,Widget,http://x/a.jpg" ++ line "2,Gizmo,http://x/huge.png".

(** The serial number of the second row is not a number. *)
Definition manifest_bad_serial : string :=
  header ++ line "1,Widget,http://x/a.jpg" ++ line "two,Gadget,http://x/b.jpg"
         ++ line "3,Gizmo,http://x/d.png".

(** The second row has a carriage return inside a field. *)
Definition manifest_broken : string :=
  header ++ line "1,Widget,http://x/a.jpg"
         ++ "2,Gad" ++ String CR (line "get,http://x/b.jpg").

(** The image of the first row cannot be fetched. *)
Definition manifest_unfetchable : string :=
  header ++ line "1,Widget,http://x/c.jpg" ++ line "2,Gizmo,http://x/a.jpg".

(** A store with the job [job-1] and no item. *)
Definition empty_store : State := state_of [].

(** A row as [DictReader] gives it for the header above. *)
Definition row (serial name urls : string) : dict :=
  [("Serial Number", Str serial); ("Product Name", Str name);
   ("Input Image Urls", Str urls)].

End example.

(* ================================================================= *)
(** ** Tactics *)

Ltac inv H := inversion H; subst; clear H.

Ltac nodup :=
  repeat constructor; simpl; intuition (try discriminate; try lia).

(* ================================================================= *)
(** ** Reading what was written *)

Module csv_facts.
Import csv props.


Section Facts.

Variable limit : nat.

Lemma process_chars_app r cur seg :
  process_chars limit r (cur ++ seg) =
  match process_chars limit r cur with
  | Ok r' => process_chars limit r' seg
  | Raise e => Raise e
  end.
Proof.
  revert r. induction cur as [|c cur IH]; intros r; simpl.
  - reflexivity.
  - destruct (parse_process_char limit r (Ch c)); [apply IH | reflexivity].
Qed.

Lemma append_nonempty (cur : string) (c : ascii) :
  cur ++ String c EmptyString <> EmptyString.
Proof. destruct cur; discriminate. Qed.

Lemma yields_start text out :
  Reader_iter limit parse_reset (readlines_from EmptyString text) = out ->
  yields limit false parse_reset text out.
Proof.
  intros H r0 cur Hcur [_ Hp].
  pose proof (Hp eq_refl) as E. subst cur. simpl in Hcur. now inversion Hcur; subst.
Qed.

Lemma yields_false_iff r text out :
  yields limit false r text out <->
  Reader_iter limit r (readlines_from EmptyString text) = out.
Proof.
  split.
  - intros H. apply H; [reflexivity | tauto].
  - intros H r0 cur Hcur [_ Hp].
    pose proof (Hp eq_refl) as E. subst cur. simpl in Hcur. now inversion Hcur; subst.
Qed.

(** A character other than LF stays in the line. *)
Lemma yields_char p r c r' text out :
  Ascii.eqb c LF = false ->
  parse_process_char limit r (Ch c) = Ok r' ->
  yields limit true r' text out ->
  yields limit p r (String c text) out.
Proof.
  intros Hc Hstep H r0 cur Hcur _.
  simpl. rewrite Hc. apply H.
  - rewrite process_chars_app, Hcur. simpl. now rewrite Hstep.
  - split; [intros E; now apply append_nonempty in E | discriminate].
Qed.

(** LF ends the line; the parser, back at [START_RECORD], hands the record over. *)
Lemma yields_LF_record p r r1 r2 text rows err :
  parse_process_char limit r (Ch LF) = Ok r1 ->
  parse_process_char limit r1 EOL = Ok r2 ->
  state r2 = START_RECORD ->
  yields limit false parse_reset text (rows, err) ->
  yields limit p r (String LF text) (fields r2 :: rows, err).
Proof.
  intros H1 H2 Hst H r0 cur Hcur _.
  simpl. unfold process_line.
  rewrite process_chars_app, Hcur. simpl. rewrite H1, H2, Hst.
  apply yields_false_iff in H. now rewrite H.
Qed.

(** LF ends the line inside a quoted field; the record goes on. *)
Lemma yields_LF_quoted p r r1 text out :
  parse_process_char limit r (Ch LF) = Ok r1 ->
  state r1 = IN_QUOTED_FIELD ->
  yields limit false r1 text out ->
  yields limit p r (String LF text) out.
Proof.
  intros H1 Hst H r0 cur Hcur _.
  simpl. unfold process_line.
  rewrite process_chars_app, Hcur. simpl. rewrite H1.
  unfold parse_process_char at 1. rewrite Hst. rewrite Hst.
  now apply yields_false_iff in H.
Qed.

(** *** Strings *)

Lemma string_app_assoc (a b c : string) : (a ++ b) ++ c = a ++ (b ++ c).
Proof. induction a as [|x a IH]; simpl; [reflexivity | now rewrite IH]. Qed.

Lemma string_app_nil_r (a : string) : a ++ EmptyString = a.
Proof. induction a as [|x a IH]; simpl; [reflexivity | now rewrite IH]. Qed.

Lemma string_length_app (a b : string) :
  String.length (a ++ b) = String.length a + String.length b.
Proof. induction a as [|x a IH]; simpl; [reflexivity | now rewrite IH]. Qed.

Lemma must_quote_false c :
  must_quote c = false ->
  Ascii.eqb c COMMA = false /\ Ascii.eqb c DQUOTE = false
  /\ Ascii.eqb c CR = false /\ Ascii.eqb c LF = false.
Proof.
  unfold must_quote. intros H.
  repeat (apply orb_false_iff in H; destruct H as [H ?]). auto.
Qed.

Lemma add_char_ok st buf fs c :
  String.length buf < limit ->
  parse_add_char limit (mkReader st buf fs) c
  = Ok (mkReader st (buf ++ String c EmptyString) fs).
Proof.
  intros H. unfold parse_add_char. simpl.
  destruct (Nat.leb_spec limit (String.length buf)); [lia | reflexivity].
Qed.

(** *** One field *)

(** The rest of an unquoted field. *)
Lemma yields_in_field f :
  any_char must_quote f = false ->
  forall buf fs text out,
    String.length buf + String.length f <= limit ->
    yields limit true (mkReader IN_FIELD (buf ++ f) fs) text out ->
    yields limit true (mkReader IN_FIELD buf fs) (f ++ text) out.
Proof.
  induction f as [|c f IH]; intros Hq buf fs text out Hlen H; simpl in *.
  - now rewrite string_app_nil_r in H.
  - apply orb_false_iff in Hq. destruct Hq as [Hc Hq].
    destruct (must_quote_false c Hc) as (Hcomma & Hdq & Hcr & Hlf).
    eapply yields_char; [exact Hlf | | ].
    + unfold parse_process_char. simpl. unfold newline. rewrite Hlf, Hcr, Hcomma.
      simpl. apply add_char_ok. lia.
    + apply IH; [exact Hq | rewrite string_length_app; simpl; lia | ].
      now rewrite string_app_assoc.
Qed.

(** The inside of a quoted field, up to and with its closing quote. *)
Lemma yields_in_quoted f :
  forall p buf fs text out,
    String.length buf + String.length f <= limit ->
    yields limit true (mkReader QUOTE_IN_QUOTED_FIELD (buf ++ f) fs) text out ->
    yields limit p (mkReader IN_QUOTED_FIELD buf fs)
           (double_quotes f ++ String DQUOTE text) out.
Proof.
  induction f as [|c f IH]; intros p buf fs text out Hlen H; simpl in *.
  - rewrite string_app_nil_r in H.
    eapply yields_char; [reflexivity | | exact H]. reflexivity.
  - assert (Hnext : forall q,
               yields limit q (mkReader IN_QUOTED_FIELD (buf ++ String c EmptyString) fs)
                      (double_quotes f ++ String DQUOTE text) out).
    { intros q. apply IH; [rewrite string_length_app; simpl; lia | ].
      now rewrite string_app_assoc. }
    destruct (Ascii.eqb c DQUOTE) eqn:Hdq.
    + apply Ascii.eqb_eq in Hdq. subst c. simpl.
      eapply yields_char; [reflexivity | reflexivity | ].
      eapply yields_char; [reflexivity | | apply Hnext].
      unfold parse_process_char, set_state. simpl.
      rewrite add_char_ok by lia. reflexivity.
    + destruct (Ascii.eqb c LF) eqn:Hlf.
      * apply Ascii.eqb_eq in Hlf. subst c. simpl.
        eapply yields_LF_quoted; [ | | apply Hnext].
        -- unfold parse_process_char. simpl. apply add_char_ok. lia.
        -- reflexivity.
      * simpl. eapply yields_char; [exact Hlf | | apply Hnext].
        unfold parse_process_char. simpl. rewrite Hdq. apply add_char_ok. lia.
Qed.


(** A whole field and the comma or the CR that ends it. *)
Lemma yields_field st d f p fs text out :
  st = START_FIELD \/ (st = START_RECORD /\ d = COMMA) ->
  d = COMMA \/ d = CR ->
  String.length f <= limit ->
  yields limit true (mkReader (after d) EmptyString (fs ++ [f])) text out ->
  yields limit p (mkReader st EmptyString fs) (join_append f ++ String d text) out.
Proof.
  intros Hst Hd Hlen H.
  assert (Hdlf : Ascii.eqb d LF = false) by (destruct Hd; subst d; reflexivity).
  assert (Hquote : forall r,
             parse_process_char limit (mkReader st EmptyString fs) (Ch DQUOTE) = r ->
             r = Ok (mkReader IN_QUOTED_FIELD EmptyString fs)).
  { intros r <-. destruct Hst as [-> | [-> _]]; reflexivity. }
  unfold join_append. destruct (any_char must_quote f) eqn:Hq.
  - (* quoted *)
    simpl. rewrite string_app_assoc. simpl.
    eapply yields_char; [reflexivity | now apply Hquote | ].
    apply yields_in_quoted; [simpl; lia | ]. simpl.
    eapply yields_char; [exact Hdlf | | exact H].
    destruct Hd; subst d; reflexivity.
  - destruct f as [|c f].
    + (* empty *)
      simpl. eapply yields_char; [exact Hdlf | | exact H].
      destruct Hst as [-> | [-> ->]]; destruct Hd; subst; reflexivity.
    + (* unquoted, not empty *)
      simpl in Hq. apply orb_false_iff in Hq. destruct Hq as [Hc Hq].
      destruct (must_quote_false c Hc) as (Hcomma & Hdq & Hcr & Hlf).
      simpl. eapply yields_char; [exact Hlf | | ].
      * assert (E : parse_process_char limit (mkReader st EmptyString fs) (Ch c)
                    = start_field limit (mkReader START_FIELD EmptyString fs) (Ch c)).
        { destruct Hst as [-> | [-> _]]; [reflexivity | ].
          unfold parse_process_char. simpl. unfold newline. now rewrite Hlf, Hcr. }
        rewrite E. unfold start_field, newline. rewrite Hlf, Hcr, Hdq, Hcomma. simpl.
        rewrite add_char_ok by (simpl in *; lia). reflexivity.
      * apply yields_in_field; [exact Hq | simpl in *; lia | ]. simpl.
        eapply yields_char; [exact Hdlf | | exact H].
        destruct Hd; subst d; reflexivity.
Qed.

(** *** Records and files *)

Lemma yields_fields fs :
  forall p acc text rows err,
    fs <> [] ->
    Forall (fun f => String.length f <= limit) fs ->
    yields limit false parse_reset text (rows, err) ->
    yields limit p (mkReader START_FIELD EmptyString acc)
           (join "," (map join_append fs) ++ lineterminator ++ text)
           ((acc ++ fs)%list :: rows, err).
Proof.
  induction fs as [|f fs IH]; intros p acc text rows err Hne Hlen H; [congruence | ].
  inversion Hlen as [|? ? Hf Hfs]; subst.
  destruct fs as [|g l].
  - simpl. apply yields_field; [now left | now right | exact Hf | ].
    eapply yields_LF_record with (r2 := mkReader START_RECORD EmptyString (acc ++ [f])%list);
      [reflexivity | reflexivity | reflexivity | exact H].
  - change (join "," (map join_append (f :: g :: l)))
      with (join_append f ++ "," ++ join "," (map join_append (g :: l))).
    rewrite !string_app_assoc. simpl.
    apply yields_field; [now left | now left | exact Hf | ].
    replace (acc ++ f :: g :: l)%list with ((acc ++ [f]) ++ g :: l)%list
      by (now rewrite <- app_assoc).
    apply IH; [discriminate | exact Hfs | exact H].
Qed.


Lemma yields_record fs p text rows err :
  well_sized limit fs ->
  yields limit false parse_reset text (rows, err) ->
  yields limit p parse_reset (record_text fs ++ text) (fs :: rows, err).
Proof.
  intros [Hn Hlen] H.
  destruct fs as [|f [|g l]]; simpl in Hn; try lia.
  inversion Hlen as [|? ? Hf Hfs]; subst.
  unfold record_text.
  change (join "," (map join_append (f :: g :: l)))
    with (join_append f ++ "," ++ join "," (map join_append (g :: l))).
  rewrite !string_app_assoc. simpl.
  apply yields_field; [right; now split | now left | exact Hf | ].
  apply (yields_fields (g :: l) true [f]); [discriminate | exact Hfs | exact H].
Qed.

(** Reading back a file of records gives the records. *)
Lemma reader_file_text records :
  Forall (well_sized limit) records ->
  reader limit (StringIO (file_text records)) = (records, None).
Proof.
  unfold reader, StringIO. induction records as [|fs rest IH]; intros H.
  - reflexivity.
  - inversion H as [|? ? Hfs Hrest]; subst. simpl.
    apply yields_false_iff. apply yields_record; [exact Hfs | ].
    apply yields_false_iff. now apply IH.
Qed.

End Facts.

Lemma writerow_record_text (row : list value) :
  2 <= List.length row ->
  writerow row = record_text (map field_text row).
Proof.
  intros H. unfold writerow, record_text.
  destruct row as [|a [|b l]]; simpl in H; try lia.
  simpl. destruct (field_text a); reflexivity.
Qed.

End csv_facts.

(* ================================================================= *)
(** ** The loops of [process_images] *)

Module task_facts.
Import ImageProcessingTask props.

Section Facts.

Variable w : World.
Variable self : Task.

Lemma fetched_app (a b : list Event) :
  fetched (a ++ b) = (fetched b ++ fetched a)%list.
Proof.
  induction a as [|e a IH]; simpl.
  - now rewrite app_nil_r.
  - destruct e; rewrite ?IH, ?app_assoc; reflexivity.
Qed.

Lemma saved_products_app (a b : list Event) :
  saved_products (a ++ b) = (saved_products b ++ saved_products a)%list.
Proof.
  induction a as [|e a IH]; simpl.
  - now rewrite app_nil_r.
  - destruct e; rewrite ?IH, ?app_assoc; reflexivity.
Qed.

Lemma outputs_due_one url :
  outputs_due w [url] = if transcodes w url then [image_url w url] else [].
Proof. unfold outputs_due. simpl. now destruct (transcodes w url). Qed.

Lemma outputs_due_cons url urls :
  outputs_due w (url :: urls) = (outputs_due w [url] ++ outputs_due w urls)%list.
Proof. unfold outputs_due. simpl. now destruct (transcodes w url). Qed.

(** One URL: the database is not touched, the trace grows by the fetch and,
    for a URL that gets through, by the file written; when the loop goes on,
    the URL was not one whose fetch fails and [output_urls] has grown by what
    is due. *)
Lemma process_url_spec url filename output_urls s r s' :
  process_url w self url filename output_urls s = (r, s') ->
  db s' = db s
  /\ (exists tr, trace s' = (tr ++ trace s)%list
                 /\ fetched tr = [url]
                 /\ Forall (fun e => snapshot e = None) tr)
  /\ match r with
     | Ok (_, output_urls') =>
         fetch_fails w url = false
         /\ output_urls' = (output_urls ++ outputs_due w [url])%list
     | Raise _ => True
     end.
Proof.
  rewrite outputs_due_one.
  unfold process_url, try_block, fetch_fails, transcodes, image_url.
  simpl.
  assert (T1 : forall t, exists tr : list Event,
               HttpGet url :: t = (tr ++ t)%list /\ fetched tr = [url]
               /\ Forall (fun e => snapshot e = None) tr).
  { intros t. exists [HttpGet url]. repeat split; auto. }
  assert (T2 : forall t a b, exists tr : list Event,
               FileWritten a b :: HttpGet url :: t = (tr ++ t)%list
               /\ fetched tr = [url]
               /\ Forall (fun e => snapshot e = None) tr).
  { intros t a b. exists [FileWritten a b; HttpGet url]. repeat split; auto. }
  destruct (requests_get w url) as [content|e].
  2:{ destruct (isinstance e RequestException);
        [ | destruct (isinstance e IOError); [destruct filename | ]];
        cbn; intros H; inv H; cbn; rewrite ?app_nil_r; auto. }
  destruct (Image_open w content) as [img|e].
  2:{ destruct (isinstance e RequestException);
        [ | destruct (isinstance e IOError); [destruct filename | ]];
        cbn; intros H; inv H; cbn; rewrite ?app_nil_r; auto. }
  destruct (Image_save w img (format img) 50) as [img_io|e].
  2:{ destruct (isinstance e RequestException);
        [ | destruct (isinstance e IOError); [destruct filename | ]];
        cbn; intros H; inv H; cbn; rewrite ?app_nil_r; auto. }
  destruct (open_wb w _) as [msg|].
  - cbn. intros H; inv H; cbn; auto.
  - cbn. intros H; inv H; cbn; auto.
Qed.

(** A URL that is fetched, transcoded and written is not skipped. *)
Lemma process_url_total url filename output_urls s :
  transcodes w url = true ->
  open_wb w (file_path self url) = None ->
  exists s',
    process_url w self url filename output_urls s
    = (Ok (Some ("compressed_" ++ basename url),
           (output_urls ++ [image_url w url])%list), s').
Proof.
  unfold process_url, try_block, transcodes, file_path, image_url. simpl.
  destruct (requests_get w url) as [content|e]; [ | discriminate].
  destruct (Image_open w content) as [img|e]; [ | discriminate].
  destruct (Image_save w img (format img) 50) as [img_io|e]; [ | discriminate].
  intros _ ->. eexists. reflexivity.
Qed.

(** The loop over the URLs of an item. *)
Lemma for_urls_spec urls :
  forall filename output_urls s r s',
    for_urls w self urls filename output_urls s = (r, s') ->
    db s' = db s
    /\ (exists tr, trace s' = (tr ++ trace s)%list
                   /\ Forall (fun e => snapshot e = None) tr
                   /\ exists rest, urls = (fetched tr ++ rest)%list
                                   /\ (is_ok r = true -> rest = []))
    /\ match r with
       | Ok (_, output_urls') =>
           forallb (fun url => negb (fetch_fails w url)) urls = true
           /\ output_urls' = (output_urls ++ outputs_due w urls)%list
       | Raise _ => True
       end.
Proof.
  induction urls as [|url urls IH]; intros filename output_urls s r s' H.
  - inv H. cbn. rewrite app_nil_r. repeat split; auto.
    exists []. repeat split; auto. exists []. auto.
  - cbn in H. unfold bind in H.
    destruct (process_url w self url filename output_urls s) as [[[fn outs]|e] s1] eqn:H1;
      apply process_url_spec in H1; destruct H1 as (Hdb & (tr & Htr & Hf & Hq) & Hr).
    + destruct Hr as [Hff ->].
      apply IH in H. destruct H as (Hdb' & (tr' & Htr' & Hq' & rest & Hrest & Hok) & Hr').
      split; [congruence | ]. split.
      * exists (tr' ++ tr)%list. split; [rewrite Htr', Htr; now rewrite app_assoc | ].
        split; [apply Forall_app; now split | ].
        exists rest. split; [ | exact Hok].
        rewrite fetched_app, Hf, Hrest. reflexivity.
      * destruct r as [[fn' outs']|e]; [ | exact I].
        destruct Hr' as [Hall ->]. split.
        -- simpl. now rewrite Hff, Hall.
        -- rewrite (outputs_due_cons url urls). now rewrite app_assoc.
    + inv H. split; [exact Hdb | ]. split; [ | exact I].
      exists tr. repeat split; auto. exists urls. rewrite Hf. split; [reflexivity | discriminate].
Qed.

Lemma for_urls_total urls :
  forall filename output_urls s,
    (forall url, In url urls ->
                 transcodes w url = true /\ open_wb w (file_path self url) = None) ->
    exists filename' s',
      for_urls w self urls filename output_urls s
      = (Ok (filename', (output_urls ++ map (image_url w) urls)%list), s').
Proof.
  induction urls as [|url urls IH]; intros filename output_urls s H.
  - exists filename, s. cbn. now rewrite app_nil_r.
  - destruct (H url (or_introl eq_refl)) as [Ht Hw].
    destruct (process_url_total url filename output_urls s Ht Hw) as [s1 H1].
    destruct (IH (Some ("compressed_" ++ basename url))
                 (output_urls ++ [image_url w url])%list s1) as (fn' & s' & H2).
    { intros u Hu. apply H. now right. }
    exists fn', s'. cbn. unfold bind. rewrite H1, H2. now rewrite <- app_assoc.
Qed.

(** One item: either the loop over its URLs or the save raises and the
    database is as it was, or the item is saved as the row it is due. *)
Lemma process_product_spec p filename output_data s r s' :
  process_product w self p filename output_data s = (r, s') ->
  exists tr,
    trace s' = (tr ++ trace s)%list
    /\ match r with
       | Ok (_, output_data') =>
           db s' = save_product (processed_row w p) (db s)
           /\ output_data' = (output_data ++ [output_row (processed_row w p)])%list
           /\ fetchable w p = true
           /\ exists tr0, tr = ProductSaved (processed_row w p) (db s') :: tr0
                          /\ fetched tr0 = split COMMA (input_image_urls p)
                          /\ Forall (fun e => snapshot e = None) tr0
       | Raise _ =>
           db s' = db s /\ Forall (fun e => snapshot e = None) tr
       end.
Proof.
  unfold process_product, bind.
  destruct (for_urls w self (split COMMA (input_image_urls p)) filename [] s)
    as [[[fn outs]|e] s1] eqn:H1;
    apply for_urls_spec in H1;
    destruct H1 as (Hdb & (tr & Htr & Hq & rest & Hrest & Hok) & Hr).
  - destruct Hr as [Hall ->]. simpl app.
    fold (processed_row w p).
    unfold Product_save.
    destruct (db_fault w (SaveProduct (processed_row w p))) as [e|].
    + intros H; inv H. exists tr. auto.
    + cbn. intros H; inv H. cbn.
      exists (ProductSaved (processed_row w p) (save_product (processed_row w p) (db s1)) :: tr).
      split; [now rewrite Htr | ].
      split; [now rewrite Hdb | ]. split; [reflexivity | ]. split; [exact Hall | ].
      exists tr. rewrite Hdb. repeat split; auto.
      rewrite Hrest, (Hok eq_refl). now rewrite app_nil_r.
  - intros H; inv H. exists tr. auto.
Qed.

Lemma quiet_loop_event reqs tr :
  Forall (fun e => snapshot e = None) tr -> Forall (loop_event reqs) tr.
Proof.
  apply Forall_impl. intros e He. destruct e; simpl in *; try discriminate He; exact I.
Qed.

Lemma quiet_saved_products tr :
  Forall (fun e => snapshot e = None) tr -> saved_products tr = [].
Proof.
  induction 1 as [|e l He _ IHl]; [reflexivity | ].
  destruct e; simpl in *; try discriminate; exact IHl.
Qed.

(** The loop over the items: a prefix [done] of them has been saved, in
    order, each as the row it is due; the loop ends normally exactly when
    nothing is left. *)
Lemma for_products_spec ps :
  forall filename output_data s r s',
    for_products w self ps filename output_data s = (r, s') ->
    exists done rest tr,
      ps = (done ++ rest)%list
      /\ db s' = save_all w done (db s)
      /\ trace s' = (tr ++ trace s)%list
      /\ saved_products tr = map (processed_row w) done
      /\ Forall (loop_event (ProcessingRequest_objects (db s))) tr
      /\ Forall (fun q => fetchable w q = true) done
      /\ match r with
         | Ok (_, output_data') =>
             rest = []
             /\ output_data'
                = (output_data ++ map (fun q => output_row (processed_row w q)) done)%list
         | Raise _ => rest <> []
         end.
Proof.
  induction ps as [|p ps IH]; intros filename output_data s r s' H.
  - inv H. exists [], [], []. cbn. rewrite app_nil_r. repeat split; auto.
  - cbn in H. unfold bind in H.
    destruct (process_product w self p filename output_data s) as [[[fn od]|e] s1] eqn:H1;
      apply process_product_spec in H1; destruct H1 as (tr & Htr & Hr).
    + destruct Hr as (Hdb & -> & Hfetch & tr0 & -> & Hf0 & Hq0).
      apply IH in H.
      destruct H as (done & rest & tr' & -> & Hdb' & Htr' & Hsaved & Hloop & Hdone & Hr').
      assert (Hreqs : ProcessingRequest_objects (db s1) = ProcessingRequest_objects (db s))
        by (rewrite Hdb; reflexivity).
      exists (p :: done), rest,
        (tr' ++ ProductSaved (processed_row w p) (db s1) :: tr0)%list.
      split; [reflexivity | ].
      split; [rewrite Hdb', Hdb; reflexivity | ].
      split; [rewrite Htr', Htr; now rewrite <- app_assoc | ].
      split.
      { rewrite saved_products_app. simpl. rewrite Hsaved.
        now rewrite (quiet_saved_products tr0 Hq0). }
      split.
      { apply Forall_app. split; [now rewrite <- Hreqs | ].
        constructor; [exact Hreqs | now apply quiet_loop_event]. }
      split; [now constructor | ].
      destruct r as [[fn' od']|e]; [ | exact Hr'].
      destruct Hr' as [-> ->]. split; [reflexivity | ].
      simpl. now rewrite <- app_assoc.
    + destruct Hr as [Hdb Hq]. inv H.
      exists [], (p :: ps), tr.
      repeat split; auto;
        [now apply quiet_saved_products | now apply quiet_loop_event | discriminate].
Qed.

End Facts.

(** *** The table of products under the saves *)

Lemma key_inj_gen {A : Type} (key : A -> nat) (t : list A) (x y : A) :
  NoDup (map key t) -> In x t -> In y t -> key x = key y -> x = y.
Proof.
  induction t as [|a t IH]; intros Hnd Hx Hy E; [contradiction | ].
  simpl in Hnd. inversion Hnd as [|? ? Hna Hnd']; subst.
  destruct Hx as [-> | Hx], Hy as [-> | Hy]; auto.
  - exfalso. apply Hna. rewrite E. now apply in_map.
  - exfalso. apply Hna. rewrite <- E. now apply in_map.
Qed.

Lemma filter_map_invariant {A : Type} (P : A -> bool) (g : A -> A) (l : list A) :
  (forall y, In y l -> P (g y) = P y) ->
  filter P (map g l) = map g (filter P l).
Proof.
  induction l as [|a l IH]; intros H; [reflexivity | ].
  simpl. rewrite (H a (or_introl eq_refl)).
  rewrite IH by (intros y Hy; apply H; now right).
  now destruct (P a).
Qed.

Section Table.

Variable f : Product -> Product.
Hypothesis f_key : forall y, product_pk (f y) = product_pk y.

Lemma key_inj (t : list Product) (x y : Product) :
  NoDup (map product_pk t) -> In x t -> In y t ->
  product_pk x = product_pk y -> x = y.
Proof. apply key_inj_gen. Qed.

Lemma map_key_mark keys t : map product_pk (mark f keys t) = map product_pk t.
Proof.
  unfold mark. rewrite map_map. apply map_ext. intros y.
  destruct (existsb _ keys); [apply f_key | reflexivity].
Qed.

Lemma upsert_mark q t :
  NoDup (map product_pk t) -> In q t ->
  upsert product_pk (f q) t = mark f [product_pk q] t.
Proof.
  intros Hnd Hq. unfold upsert, mark.
  assert (E : existsb (fun y => Nat.eqb (product_pk y) (product_pk (f q))) t = true).
  { apply existsb_exists. exists q. split; [exact Hq | ].
    rewrite f_key. apply Nat.eqb_refl. }
  rewrite E. apply map_ext_in. intros y Hy. rewrite f_key. simpl.
  rewrite orb_false_r.
  destruct (Nat.eqb_spec (product_pk y) (product_pk q)) as [Ek|]; [ | reflexivity].
  now rewrite (key_inj t y q Hnd Hy Hq Ek).
Qed.

Lemma mark_mark k keys t :
  ~ In k keys -> mark f keys (mark f [k] t) = mark f (k :: keys) t.
Proof.
  intros Hk. unfold mark. rewrite map_map. apply map_ext. intros y. simpl.
  rewrite orb_false_r.
  destruct (Nat.eqb_spec (product_pk y) k) as [Ek|Ek]; simpl.
  - rewrite f_key, Ek.
    replace (existsb (Nat.eqb k) keys) with false; [reflexivity | ].
    symmetry. apply not_true_is_false. intros E. apply existsb_exists in E.
    destruct E as (x & Hx & Ex). apply Nat.eqb_eq in Ex. now subst.
  - reflexivity.
Qed.

Lemma find_mark keys t k :
  find (fun p => Nat.eqb (product_pk p) k) (mark f keys t)
  = if existsb (Nat.eqb k) keys
    then option_map f (find (fun p => Nat.eqb (product_pk p) k) t)
    else find (fun p => Nat.eqb (product_pk p) k) t.
Proof.
  unfold mark. induction t as [|y t IH]; simpl.
  - now destruct (existsb _ keys).
  - destruct (Nat.eqb_spec (product_pk y) k) as [Ek|Ek].
    + subst k. destruct (existsb (Nat.eqb (product_pk y)) keys); simpl;
        rewrite ?f_key, Nat.eqb_refl; reflexivity.
    + destruct (existsb (Nat.eqb (product_pk y)) keys); simpl; rewrite ?f_key;
        (destruct (Nat.eqb_spec (product_pk y) k); [contradiction | exact IH]).
Qed.

Lemma find_key_In (t : list Product) (q : Product) :
  NoDup (map product_pk t) -> In q t ->
  find (fun p => Nat.eqb (product_pk p) (product_pk q)) t = Some q.
Proof.
  intros Hnd Hq.
  destruct (find _ t) as [y|] eqn:E.
  - apply find_some in E. destruct E as [Hy Ek]. apply Nat.eqb_eq in Ek.
    now rewrite (key_inj t y q Hnd Hy Hq Ek).
  - exfalso. pose proof (find_none _ _ E q Hq) as N. simpl in N.
    now rewrite Nat.eqb_refl in N.
Qed.

End Table.

Section Run.

Variable w : World.

Lemma processed_row_key y : product_pk (processed_row w y) = product_pk y.
Proof. reflexivity. Qed.

Lemma NoDup_map_filter {A B : Type} (f : A -> B) (g : A -> bool) (l : list A) :
  NoDup (map f l) -> NoDup (map f (filter g l)).
Proof.
  induction l as [|a l IH]; simpl; intros H; [constructor | ].
  inversion H as [|? ? Hn Hl]; subst.
  destruct (g a); simpl; [constructor | ]; auto.
  intros Hin. apply Hn. apply in_map_iff in Hin. destruct Hin as (x & E & Hx).
  apply in_map_iff. exists x. split; [exact E | ]. apply filter_In in Hx. tauto.
Qed.

Lemma NoDup_map_app_l {A B : Type} (f : A -> B) (a b : list A) :
  NoDup (map f (a ++ b)) -> NoDup (map f a).
Proof. rewrite map_app. apply NoDup_app_remove_r. Qed.

(** Saving a set of rows of the table, keys unique, marks these rows. *)
Lemma save_all_spec done :
  forall d,
    NoDup (map product_pk (Product_objects d)) ->
    incl done (Product_objects d) ->
    NoDup (map product_pk done) ->
    ProcessingRequest_objects (save_all w done d) = ProcessingRequest_objects d
    /\ Product_objects (save_all w done d)
       = mark (processed_row w) (map product_pk done) (Product_objects d).
Proof.
  induction done as [|q done IH]; intros d Hnd Hincl Hdone.
  - split; [reflexivity | ]. unfold mark. simpl. symmetry. apply map_id.
  - simpl in Hdone. inversion Hdone as [|? ? Hq Hdone']; subst.
    assert (Hqd : In q (Product_objects d)) by (apply Hincl; now left).
    unfold save_all. simpl. fold (save_all w done (save_product (processed_row w q) d)).
    assert (E : Product_objects (save_product (processed_row w q) d)
                = mark (processed_row w) [product_pk q] (Product_objects d)).
    { unfold save_product. simpl. apply upsert_mark; auto using processed_row_key. }
    destruct (IH (save_product (processed_row w q) d)) as [Hr Hp].
    + rewrite E, map_key_mark; auto using processed_row_key.
    + intros y Hy. rewrite E. unfold mark. apply in_map_iff. exists y.
      split; [ | apply Hincl; now right]. simpl.
      destruct (Nat.eqb_spec (product_pk y) (product_pk q)) as [Ek|]; [ | reflexivity].
      exfalso. apply Hq. rewrite <- Ek. now apply in_map.
    + exact Hdone'.
    + split; [rewrite Hr; reflexivity | ].
      rewrite Hp, E. simpl. apply mark_mark; auto using processed_row_key.
Qed.

Lemma csv_file_rows (ps : list Product) :
  csv_file (map output_row ps)
  = Ok (file_text (fieldnames :: map summary_fields ps)).
Proof.
  unfold csv_file.
  assert (Hh : csv.writeheader fieldnames = Ok (record_text fieldnames))
    by reflexivity.
  rewrite Hh.
  assert (Hr : csv.writerows fieldnames (map output_row ps)
               = Ok (file_text (map summary_fields ps))).
  { induction ps as [|p ps IH]; [reflexivity | ].
    simpl map. simpl csv.writerows.
    change (csv._dict_to_list fieldnames (output_row p))
      with (Ok [Int (serial_number p); Str (name p); Str (input_image_urls p);
                Str (output_image_urls p)]).
    rewrite IH. rewrite csv_facts.writerow_record_text by (simpl; lia). reflexivity. }
  rewrite Hr. reflexivity.
Qed.

(** The whole of [process_images]: the loop saves a prefix [done] of the
    items; past the loop the summary file is stored, the request is saved
    with it, and the request is saved as completed, in that order, and any of
    the three may fail. *)
Lemma process_images_spec self s r s' :
  process_images w self s = (r, s') ->
  let r0 := processing_request self in
  let ps := product_set (db s) r0 in
  exists done rest tr1 tr2,
    ps = (done ++ rest)%list
    /\ trace s' = (tr2 ++ tr1 ++ trace s)%list
    /\ saved_products tr1 = map (processed_row w) done
    /\ Forall (loop_event (ProcessingRequest_objects (db s))) tr1
    /\ Forall (fun q => fetchable w q = true) done
    /\ let D0 := save_all w done (db s) in
       (((exists e, r = Raise e) /\ db s' = D0
         /\ Forall (fun e => snapshot e = None) tr2)
        \/ (rest = []
            /\ exists stored,
                let text := file_text
                              (fieldnames :: map summary_fields (map (processed_row w) ps)) in
                let r1 := set_result_file r0 stored in
                let D1 := save_request r1 D0 in
                let r2 := set_completed r1 true in
                let D2 := save_request r2 D1 in
                In (stored, text) (files s')
                /\ (((exists e, r = Raise e) /\ db s' = D1
                     /\ tr2 = [RequestSaved r1 D1; Stored stored text])
                    \/ (r = Ok tt /\ db s' = D2
                        /\ tr2 = [RequestSaved r2 D2; RequestSaved r1 D1;
                                  Stored stored text])))).
Proof.
  intros H r0 ps. unfold process_images, bind, product_set_all in H.
  fold r0 in H. fold ps in H.
  destruct (for_products w self ps None [] s) as [[[fn od]|e] s1] eqn:H1;
    apply for_products_spec in H1;
    destruct H1 as (done & rest & tr1 & Hps & Hdb & Htr & Hsaved & Hloop & Hdone & Hr).
  2:{ inv H. exists done, rest, tr1, []. repeat split; auto.
      left. repeat split; eauto. }
  destruct Hr as [-> ->]. rewrite app_nil_r in Hps. subst done.
  exists ps, [], tr1.
  simpl app in H. rewrite <- (map_map (processed_row w) output_row) in H.
  unfold try_except, generate_csv, try_except, bind, lift in H.
  rewrite csv_file_rows in H.
  unfold result_file_save in H. fold r0 in H.
  destruct (storage_save w _ _) as [stored|e] eqn:Hstore.
  2:{ cbn in H. inv H. exists []. cbn. rewrite app_nil_r. repeat split; auto.
      left. repeat split; eauto. }
  unfold bind, store_file, ProcessingRequest_save, ret in H. cbn in H.
  destruct (db_fault w (SaveRequest (set_result_file r0 stored))) as [e|] eqn:Hf1.
  { cbn in H. inv H. eexists [_]. cbn. rewrite app_nil_r.
    split; [reflexivity | ]. split; [now rewrite Htr | ].
    repeat split; auto. left. repeat split; eauto. }
  cbn in H. unfold complete_request, try_except, bind, ProcessingRequest_save in H.
  cbn in H.
  destruct (db_fault w (SaveRequest (set_completed (set_result_file r0 stored) true)))
    as [e|] eqn:Hf2.
  - cbn in H. inv H. eexists [_; _]. cbn. rewrite app_nil_r.
    split; [reflexivity | ]. split; [now rewrite Htr | ].
    repeat split; auto. right. split; [reflexivity | ].
    exists stored. cbn. split; [now left | ].
    left. rewrite Hdb. repeat split; eauto.
  - cbn in H. inv H. eexists [_; _; _]. cbn. rewrite app_nil_r.
    split; [reflexivity | ]. split; [now rewrite Htr | ].
    repeat split; auto. right. split; [reflexivity | ].
    exists stored. cbn. split; [now left | ].
    right. rewrite Hdb. repeat split; eauto.
Qed.

Lemma keys_disjoint {A : Type} (key : A -> nat) (a b : list A) (x y : A) :
  NoDup (map key (a ++ b)) -> In x a -> In y b -> key x <> key y.
Proof.
  induction a as [|z a IH]; intros Hnd Hx Hy; [contradiction | ].
  simpl in Hnd. inversion Hnd as [|? ? Hn Hnd']; subst.
  destruct Hx as [-> | Hx]; [ | now apply IH].
  intros E. apply Hn. rewrite E. apply in_map. apply in_or_app. now right.
Qed.

Lemma not_fetchable p :
  (exists url, In url (split COMMA (input_image_urls p)) /\ fetch_fails w url = true) ->
  fetchable w p = false.
Proof.
  intros (url & Hin & Hf). apply not_true_is_false. intros H.
  unfold fetchable in H. rewrite forallb_forall in H.
  specialize (H url Hin). now rewrite Hf in H.
Qed.

(** A fetch that fails raises [ValueError]; nothing but the fetch is done. *)
Lemma process_url_fetch_fails self url filename output_urls s :
  fetch_fails w url = true ->
  exists msg s',
    process_url w self url filename output_urls s = (Raise (Exn ValueError msg), s')
    /\ db s' = db s /\ files s' = files s /\ trace s' = HttpGet url :: trace s.
Proof.
  unfold fetch_fails, process_url, try_block. simpl.
  destruct (requests_get w url) as [content|e]; [discriminate | ].
  intros ->. cbn. eexists _, _. repeat split.
Qed.

(** What becomes of a URL that is fetched and whose image cannot be opened
    depends on the class of the exception: an [OSError] goes to the handler
    written for the file, which raises; any other is logged and the URL
    skipped. *)
Lemma open_os_error_raises self url filename output_urls s content e :
  requests_get w url = Ok content ->
  Image_open w content = Raise e ->
  isinstance e RequestException = false ->
  isinstance e IOError = true ->
  exists e' s',
    process_url w self url filename output_urls s = (Raise e', s')
    /\ db s' = db s
    /\ exn_class e' = match filename with
                      | None => UnboundLocalError
                      | Some _ => ValueError
                      end.
Proof.
  intros Hget Hopen Hreq Hio.
  unfold process_url, try_block. simpl. rewrite Hget, Hopen, Hreq, Hio.
  destruct filename; cbn; eexists _, _; repeat split.
Qed.

Lemma open_other_error_skips self url filename output_urls s content e :
  requests_get w url = Ok content ->
  Image_open w content = Raise e ->
  isinstance e RequestException = false ->
  isinstance e IOError = false ->
  exists s',
    process_url w self url filename output_urls s = (Ok (filename, output_urls), s')
    /\ db s' = db s.
Proof.
  intros Hget Hopen Hreq Hio.
  unfold process_url, try_block. simpl. rewrite Hget, Hopen, Hreq, Hio.
  cbn. eexists. repeat split.
Qed.

(** The loop over the URLs does not go past a URL whose fetch fails. *)
Lemma for_urls_stops self before u after :
  fetch_fails w u = true ->
  forall filename output_urls s,
  exists e s' tr pre,
    for_urls w self (before ++ u :: after) filename output_urls s = (Raise e, s')
    /\ db s' = db s
    /\ trace s' = (tr ++ trace s)%list
    /\ Forall (fun ev => snapshot ev = None) tr
    /\ (before ++ [u])%list = (fetched tr ++ pre)%list.
Proof.
  intros Hu. induction before as [|b before IH]; intros filename output_urls s.
  - destruct (process_url_fetch_fails self u filename output_urls s Hu)
      as (msg & s' & H & Hdb & _ & Htr).
    exists (Exn ValueError msg), s', [HttpGet u], [].
    cbn. unfold bind. rewrite H. repeat split; auto.
  - cbn. unfold bind.
    destruct (process_url w self b filename output_urls s) as [[[fn outs]|e] s1] eqn:H1;
      apply process_url_spec in H1; destruct H1 as (Hdb & (tr & Htr & Hf & Hq) & _).
    + destruct (IH fn outs s1) as (e & s' & tr' & pre & H & Hdb' & Htr' & Hq' & Hpre).
      exists e, s', (tr' ++ tr)%list, pre. split; [exact H | ].
      split; [congruence | ]. split; [rewrite Htr', Htr; now rewrite app_assoc | ].
      split; [apply Forall_app; now split | ].
      rewrite fetched_app, Hf. simpl. now rewrite Hpre.
    + exists e, s1, tr, (before ++ [u])%list. repeat split; auto. now rewrite Hf.
Qed.

(** An item with a URL whose fetch fails is not saved, and no item after it
    is; what was saved before it stays saved. *)
Lemma process_images_fetch_failure self s p :
  keys_unique (db s) ->
  In p (product_set (db s) (processing_request self)) ->
  fetchable w p = false ->
  exists e s' tr,
    process_images w self s = (Raise e, s')
    /\ trace s' = (tr ++ trace s)%list
    /\ ProcessingRequest_objects (db s') = ProcessingRequest_objects (db s)
    /\ find_product (db s') (product_pk p) = Some p
    /\ (forall l1 l2,
          product_set (db s) (processing_request self) = (l1 ++ p :: l2)%list ->
          forall q, In q l2 -> find_product (db s') (product_pk q) = Some q)
    /\ (forall q, In q (saved_products tr) ->
                  find_product (db s') (product_pk q) = Some q).
Proof.
  intros [Hkeys _] Hp Hnf.
  destruct (process_images w self s) as [r s'] eqn:H.
  apply process_images_spec in H. cbv zeta in H.
  destruct H as (done & rest & tr1 & tr2 & Hps & Htr & Hsaved & _ & Hdone & Hcase).
  set (ps := product_set (db s) (processing_request self)) in *.
  assert (Hpsnd : NoDup (map product_pk ps)) by (now apply NoDup_map_filter).
  assert (Hincl : incl ps (Product_objects (db s))).
  { intros y Hy. apply filter_In in Hy. tauto. }
  assert (Hpd : ~ In p done).
  { intros Hin. rewrite Forall_forall in Hdone. specialize (Hdone p Hin). congruence. }
  assert (Hprest : In p rest).
  { rewrite Hps in Hp. apply in_app_or in Hp. tauto. }
  destruct Hcase as [([e ->] & Hdb & Hq2) | (-> & _)]; [ | contradiction].
  rewrite Hps in Hpsnd.
  destruct (save_all_spec done (db s)) as [Hreqs Hprods]; auto.
  { intros y Hy. apply Hincl. rewrite Hps. apply in_or_app. now left. }
  { now apply NoDup_map_app_l in Hpsnd. }
  assert (Hother : forall q, In q rest ->
            find_product (db s') (product_pk q) = Some q).
  { intros q Hq. unfold find_product. rewrite Hdb, Hprods.
    rewrite find_mark by apply processed_row_key.
    replace (existsb (Nat.eqb (product_pk q)) (map product_pk done)) with false.
    - apply find_key_In; [exact Hkeys | ]. apply Hincl. rewrite Hps.
      apply in_or_app. now right.
    - symmetry. apply not_true_is_false. intros E. apply existsb_exists in E.
      destruct E as (k & Hk & Ek). apply Nat.eqb_eq in Ek. subst k.
      apply in_map_iff in Hk. destruct Hk as (y & Ey & Hy).
      now apply (keys_disjoint product_pk done rest y q Hpsnd Hy Hq). }
  exists e, s', (tr2 ++ tr1)%list.
  split; [reflexivity | ]. split; [now rewrite Htr, app_assoc | ].
  split; [now rewrite Hdb | ]. split; [now apply Hother | ]. split.
  - intros l1 l2 E q Hq. apply Hother.
    rewrite Hps in E. apply app_eq_app in E.
    destruct E as [l [[E1 E2] | [E1 E2]]].
    + destruct l as [|x l]; simpl in E2.
      * rewrite <- E2. now right.
      * inversion E2; subst. exfalso. apply Hpd. apply in_or_app. right. now left.
    + rewrite E2. apply in_or_app. right. now right.
  - intros q Hq. rewrite saved_products_app, Hsaved in Hq.
    rewrite (quiet_saved_products tr2 Hq2), app_nil_r in Hq.
    apply in_map_iff in Hq. destruct Hq as (q0 & <- & Hq0).
    unfold find_product. rewrite Hdb, Hprods.
    rewrite find_mark by apply processed_row_key.
    rewrite processed_row_key.
    replace (existsb (Nat.eqb (product_pk q0)) (map product_pk done)) with true.
    + rewrite find_key_In; [reflexivity | exact Hkeys | ].
      apply Hincl. rewrite Hps. apply in_or_app. now left.
    + symmetry. apply existsb_exists. exists (product_pk q0).
      split; [now apply in_map | apply Nat.eqb_refl].
Qed.

(** The items of a request in a table where they are all marked. *)
Lemma product_set_mark (t : list Product) (k : nat) :
  let P := fun p => Nat.eqb (request p) k in
  filter P (mark (processed_row w) (map product_pk (filter P t)) t)
  = map (processed_row w) (filter P t).
Proof.
  intros P. unfold mark. rewrite filter_map_invariant.
  - apply map_ext_in. intros y Hy.
    replace (existsb (Nat.eqb (product_pk y)) (map product_pk (filter P t))) with true;
      [reflexivity | ].
    symmetry. apply existsb_exists. exists (product_pk y).
    split; [now apply in_map | apply Nat.eqb_refl].
  - intros y _. now destruct (existsb _ _).
Qed.

(** Saving a request that is in the table keeps it the one row of its
    identifier. *)
Lemma filter_save_request (d : DB) (rid : string) (r0 r1 : ProcessingRequest) :
  NoDup (map request_pk (ProcessingRequest_objects d)) ->
  filter_request_id d rid = [r0] ->
  request_pk r1 = request_pk r0 ->
  request_id r1 = rid ->
  filter_request_id (save_request r1 d) rid = [r1].
Proof.
  intros Hnd Hf Hpk Hid. unfold filter_request_id in *. simpl.
  assert (Hin : In r0 (ProcessingRequest_objects d) /\ String.eqb (request_id r0) rid = true).
  { apply (filter_In (fun r => String.eqb (request_id r) rid)). rewrite Hf. now left. }
  destruct Hin as [Hin Hrid]. unfold upsert.
  replace (existsb _ (ProcessingRequest_objects d)) with true.
  2:{ symmetry. apply existsb_exists. exists r0. split; [exact Hin | ].
      rewrite Hpk. apply Nat.eqb_refl. }
  rewrite filter_map_invariant.
  - rewrite Hf. simpl. now rewrite Hpk, Nat.eqb_refl.
  - intros y Hy. rewrite Hpk.
    destruct (Nat.eqb_spec (request_pk y) (request_pk r0)) as [E|]; [ | reflexivity].
    rewrite (key_inj_gen request_pk _ y r0 Hnd Hy Hin E), Hid.
    now rewrite String.eqb_refl.
Qed.

Lemma save_request_keys (r1 r0 : ProcessingRequest) (d : DB) :
  In r0 (ProcessingRequest_objects d) ->
  request_pk r1 = request_pk r0 ->
  map request_pk (ProcessingRequest_objects (save_request r1 d))
  = map request_pk (ProcessingRequest_objects d).
Proof.
  intros Hin Hpk. simpl. unfold upsert.
  replace (existsb _ (ProcessingRequest_objects d)) with true.
  2:{ symmetry. apply existsb_exists. exists r0. split; [exact Hin | ].
      rewrite Hpk. apply Nat.eqb_refl. }
  rewrite map_map. apply map_ext. intros y.
  destruct (Nat.eqb_spec (request_pk y) (request_pk r1)); congruence.
Qed.

Lemma save_all_requests done :
  forall d, ProcessingRequest_objects (save_all w done d) = ProcessingRequest_objects d.
Proof.
  induction done as [|q done IH]; intros d; [reflexivity | ].
  unfold save_all. simpl. fold (save_all w done (save_product (processed_row w q) d)).
  now rewrite IH.
Qed.

Lemma completed_in_requests (d d' : DB) (rid : string) :
  ProcessingRequest_objects d = ProcessingRequest_objects d' ->
  completed_in d rid = completed_in d' rid.
Proof. unfold completed_in, filter_request_id. now intros ->. Qed.

Lemma forallb_processed (ps : list Product) :
  forallb processed (map (processed_row w) ps) = true.
Proof. induction ps as [|p ps IH]; [reflexivity | exact IH]. Qed.

(** The store after the loop has saved every item of the request [r0], after
    the request has been saved with its file, and after it has been saved as
    completed. *)
Lemma finish_facts (d : DB) (rid stored : string) (r0 : ProcessingRequest) :
  keys_unique d ->
  filter_request_id d rid = [r0] ->
  let ps := product_set d r0 in
  let D0 := save_all w ps d in
  let r1 := set_result_file r0 stored in
  let D1 := save_request r1 D0 in
  let r2 := set_completed r1 true in
  let D2 := save_request r2 D1 in
  filter_request_id D1 rid = [r1]
  /\ filter_request_id D2 rid = [r2]
  /\ product_set D1 r1 = map (processed_row w) ps
  /\ product_set D2 r2 = map (processed_row w) ps.
Proof.
  intros [Hkp Hkr] Hf ps D0 r1 D1 r2 D2.
  assert (Hin : In r0 (ProcessingRequest_objects d)
                /\ String.eqb (request_id r0) rid = true).
  { apply (filter_In (fun r => String.eqb (request_id r) rid)).
    unfold filter_request_id in Hf. rewrite Hf. now left. }
  destruct Hin as [Hin Hrid]. apply String.eqb_eq in Hrid.
  assert (Hreq0 : ProcessingRequest_objects D0 = ProcessingRequest_objects d)
    by apply save_all_requests.
  assert (Hprod0 : Product_objects D0
                   = mark (processed_row w) (map product_pk ps) (Product_objects d)).
  { apply save_all_spec; auto.
    - intros y Hy. apply filter_In in Hy. tauto.
    - now apply NoDup_map_filter. }
  assert (H1 : filter_request_id D1 rid = [r1]).
  { apply filter_save_request with (r0 := r0); auto.
    - now rewrite Hreq0.
    - unfold filter_request_id. now rewrite Hreq0. }
  assert (H2 : filter_request_id D2 rid = [r2]).
  { apply filter_save_request with (r0 := r1); auto.
    unfold D1. rewrite (save_request_keys r1 r0); [now rewrite Hreq0 | now rewrite Hreq0 | reflexivity]. }
  split; [exact H1 | ]. split; [exact H2 | ].
  assert (Hset : filter (fun p => Nat.eqb (request p) (request_pk r0)) (Product_objects D0)
                 = map (processed_row w) ps).
  { rewrite Hprod0. apply product_set_mark. }
  split; exact Hset.
Qed.

Lemma In_upsert {A : Type} (key : A -> nat) (x : A) (rows : list A) :
  In x (upsert key x rows).
Proof.
  unfold upsert.
  destruct (existsb (fun y => Nat.eqb (key y) (key x)) rows) eqn:E.
  - apply existsb_exists in E. destruct E as (y & Hy & Ey).
    apply in_map_iff. exists y. now rewrite Ey.
  - apply in_or_app. right. now left.
Qed.

(** Reading the summary file of a list of items gives back the header and
    the fields of the items. *)
Lemma summary_read_back (limit : nat) (items : list Product) :
  fields_within limit fieldnames ->
  Forall (fun p => fields_within limit (summary_fields p)) items ->
  csv.reader limit (csv.StringIO (file_text (fieldnames :: map summary_fields items)))
  = (fieldnames :: map summary_fields items, None).
Proof.
  intros Hh Hitems. apply csv_facts.reader_file_text.
  constructor.
  - split; [simpl; lia | exact Hh].
  - apply Forall_map. revert Hitems. apply Forall_impl.
    intros p Hp. split; [simpl; lia | exact Hp].
Qed.

(** [__init__] loads the one row of the identifier and touches nothing. *)
Lemma init_spec rid s r s1 :
  __init__ w rid s = (r, s1) ->
  db s1 = db s /\ trace s1 = trace s /\ files s1 = files s
  /\ match r with
     | Ok task =>
         exists r0, filter_request_id (db s) rid = [r0]
                    /\ task = mkTask rid r0 (path_join (MEDIA_ROOT w) ["processed_images"])
     | Raise e => isinstance e ValueError = true -> filter_request_id (db s) rid = []
     end.
Proof.
  unfold __init__, bind, try_except, objects_get.
  destruct (filter_request_id (db s) rid) as [|r0 [|r0' l]] eqn:Hf.
  - cbn. intros H; inv H. auto.
  - destruct (os_makedirs w _) as [msg|]; cbn; intros H; inv H; repeat split; eauto.
    discriminate.
  - cbn. intros H; inv H. repeat split; auto. discriminate.
Qed.

(** What [run] does around [process_images]. *)
Lemma run_spec rid s r s' :
  run w rid s = (r, s') ->
  (db s' = db s /\ trace s' = trace s /\ files s' = files s
   /\ (r = Ok tt -> filter_request_id (db s) rid = [])
   /\ (forall e, r = Raise e -> isinstance e ValueError = false))
  \/ exists r0 s1 r1 s2,
       filter_request_id (db s) rid = [r0]
       /\ db s1 = db s /\ trace s1 = trace s /\ files s1 = files s
       /\ process_images w (mkTask rid r0 (path_join (MEDIA_ROOT w) ["processed_images"])) s1
          = (r1, s2)
       /\ db s' = db s2 /\ trace s' = trace s2 /\ files s' = files s2
       /\ match r1 with
          | Ok _ => r = Ok tt
          | Raise e => r = if isinstance e ValueError then Ok tt else Raise e
          end.
Proof.
  unfold run, bind, try_except.
  destruct (logger_info _ s) as [r00 s0] eqn:Hlog.
  assert (Hs0 : r00 = Ok tt /\ db s0 = db s /\ trace s0 = trace s /\ files s0 = files s)
    by (inv Hlog; auto).
  destruct Hs0 as (-> & Hd0 & Ht0 & Hf0).
  destruct (__init__ w rid s0) as [[task|e] s1] eqn:Hinit;
    apply init_spec in Hinit; destruct Hinit as (Hd1 & Ht1 & Hf1 & Hr).
  - destruct Hr as (r0 & Hfilter & ->).
    destruct (process_images w _ s1) as [[[]|e] s2] eqn:Hp.
    + intros H; inv H. right. exists r0, s1, (Ok tt), s'.
      rewrite <- Hd0. repeat split; auto; congruence.
    + destruct (isinstance e ValueError) eqn:Hv.
      * unfold logger_error, logger. intros H; inv H. cbn.
        right. exists r0, s1, (Raise e), s2.
        rewrite <- Hd0, Hv. repeat split; auto; congruence.
      * unfold raise. intros H; inv H.
        right. exists r0, s1, (Raise e), s'.
        rewrite <- Hd0, Hv. repeat split; auto; congruence.
  - destruct (isinstance e ValueError) eqn:Hv.
    + unfold logger_error, logger. intros H; inv H. cbn.
      left. rewrite <- Hd0. repeat split; try congruence. intros _. now apply Hr.
    + unfold raise. intros H; inv H. left. repeat split; try congruence.
Qed.

(** The failures the pipeline reports are [ValueError]s. *)
Lemma generate_csv_raises self output_data s e s' :
  generate_csv w self output_data s = (Raise e, s') -> exn_class e = ValueError.
Proof.
  unfold generate_csv, try_except.
  destruct (bind _ _ s) as [[task|e0] s1]; intros H; inv H. reflexivity.
Qed.

Lemma complete_request_raises self s e s' :
  complete_request w self s = (Raise e, s') -> exn_class e = ValueError.
Proof.
  unfold complete_request, try_except.
  destruct (bind _ _ s) as [[task|e0] s1]; intros H; inv H. reflexivity.
Qed.

Lemma process_url_write_fails self url filename output_urls s msg :
  transcodes w url = true ->
  open_wb w (file_path self url) = Some msg ->
  exists s',
    process_url w self url filename output_urls s
    = (Raise (Exn ValueError ("Failed to save image to file compressed_"
                              ++ basename url ++ ": " ++ msg)), s')
    /\ db s' = db s.
Proof.
  unfold process_url, try_block, transcodes, file_path. simpl.
  destruct (requests_get w url) as [content|e]; [ | discriminate].
  destruct (Image_open w content) as [img|e]; [ | discriminate].
  destruct (Image_save w img (format img) 50) as [img_io|e]; [ | discriminate].
  intros _ ->. cbn. eexists. split; reflexivity.
Qed.

(** An identifier the store does not know: [run] logs and returns. *)
Lemma run_unknown_request rid s :
  filter_request_id (db s) rid = [] ->
  exists msg s',
    run w rid s = (Ok tt, s')
    /\ db s' = db s
    /\ log s' = (ERROR, "Error processing request ID " ++ rid ++ ": " ++ msg)
                :: (ERROR, msg)
                :: (INFO, "Task request received for request ID: " ++ rid)
                :: log s.
Proof.
  intros Hf.
  unfold run, bind, try_except, __init__, bind, try_except, objects_get,
    logger_info, logger.
  cbn [db]. rewrite Hf. cbn. eexists _, _. repeat split.
Qed.

End Run.

(** *** The upload view *)

Section Upload.

Import views.

Lemma parse_add_char_error limit r c e :
  csv.parse_add_char limit r c = Raise e -> exn_class e = csv_Error.
Proof.
  unfold csv.parse_add_char. destruct (limit <=? _)%nat; intros H; now inv H.
Qed.

Lemma parse_process_char_error limit r c e :
  csv.parse_process_char limit r c = Raise e -> exn_class e = csv_Error.
Proof.
  unfold csv.parse_process_char, csv.start_field.
  destruct (csv.state r), c as [a|];
    repeat match goal with
           | |- context [if ?b then _ else _] => destruct b
           | |- context [match csv.parse_add_char ?l ?x ?y with _ => _ end] =>
               destruct (csv.parse_add_char l x y) eqn:?
           end;
    intros H; inv H;
    try reflexivity;
    try (eapply parse_add_char_error; eassumption).
Qed.

Lemma process_line_error limit line :
  forall r e, csv.process_line limit r line = Raise e -> exn_class e = csv_Error.
Proof.
  unfold csv.process_line.
  induction line as [|c line IH]; intros r e; simpl.
  - apply parse_process_char_error.
  - destruct (csv.parse_process_char limit r (csv.Ch c)) eqn:E.
    + apply IH.
    + intros H; inv H. eapply parse_process_char_error; eassumption.
Qed.

(** The reader fails with [csv.Error] only. *)
Lemma reader_error_class limit lines :
  forall r rows e,
    csv.Reader_iter limit r lines = (rows, Some e) -> exn_class e = csv_Error.
Proof.
  induction lines as [|line lines IH]; intros r rows e; simpl.
  - destruct (_ || _); intros H; inv H.
  - destruct (csv.process_line limit r line) as [r'|e'] eqn:E.
    + destruct (csv.state r');
        try (apply IH);
        destruct (csv.Reader_iter limit csv.parse_reset lines) as [rows' err] eqn:E';
        intros H; inv H; eapply IH; eassumption.
    + intros H; inv H. eapply process_line_error; eassumption.
Qed.

Lemma filter_none {A : Type} (f : A -> bool) (l : list A) :
  (forall x, In x l -> f x = false) -> filter f l = [].
Proof.
  induction l as [|a l IH]; intros H; [reflexivity | ].
  simpl. rewrite (H a (or_introl eq_refl)). apply IH. intros x Hx. apply H. now right.
Qed.

Lemma fresh_pk_gt {A : Type} (key : A -> nat) (rows : list A) (x : A) :
  In x rows -> key x < fresh_pk key rows.
Proof.
  unfold fresh_pk. induction rows as [|a rows IH]; intros H; [contradiction | ].
  simpl. destruct H as [-> | H]; [lia | ]. specialize (IH H). lia.
Qed.

Lemma missing_columns_nonempty (fieldnames : list string) :
  forallb (fun col => mem col fieldnames) required_columns = false ->
  exists col cols,
    filter (fun col => negb (mem col fieldnames)) required_columns = col :: cols.
Proof.
  intros H.
  destruct (filter (fun col => negb (mem col fieldnames)) required_columns)
    as [|col cols] eqn:E; [ | eauto].
  exfalso. rewrite <- not_true_iff_false in H. apply H.
  apply forallb_forall. intros col Hcol.
  destruct (mem col fieldnames) eqn:Em; [reflexivity | ].
  assert (Hin : In col (filter (fun col => negb (mem col fieldnames)) required_columns)).
  { apply filter_In. split; [exact Hcol | now rewrite Em]. }
  rewrite E in Hin. contradiction.
Qed.

End Upload.

End task_facts.

(* ================================================================= *)
(** ** Further properties of the code *)

Module cover_facts.
Import ImageProcessingTask props cover task_facts.

(** *** Comma-separated lists *)

Lemma split_nonempty (sep : ascii) (s : string) : split sep s <> [].
Proof.
  destruct s as [|c s]; simpl; [discriminate | ].
  destruct (Ascii.eqb c sep); [discriminate | ].
  destruct (split sep s); discriminate.
Qed.

Lemma join_cons (sep x : string) (l : list string) :
  l <> [] -> join sep (x :: l) = x ++ sep ++ join sep l.
Proof. destruct l; [congruence | reflexivity]. Qed.

Lemma join_split (s : string) : join "," (split COMMA s) = s.
Proof.
  induction s as [|c s IH]; [reflexivity | ].
  simpl split. destruct (Ascii.eqb c COMMA) eqn:E.
  - apply Ascii.eqb_eq in E. subst c.
    rewrite join_cons by apply split_nonempty. simpl. now rewrite IH.
  - destruct (split COMMA s) as [|piece pieces] eqn:Es.
    + now apply split_nonempty in Es.
    + destruct pieces as [|q pieces].
      * simpl in *. now rewrite IH.
      * rewrite join_cons by discriminate. rewrite join_cons in IH by discriminate.
        rewrite <- IH. reflexivity.
Qed.

Lemma split_free (sep : ascii) (s : string) :
  Forall (fun piece => free_of sep piece = true) (split sep s).
Proof.
  induction s as [|c s IH]; simpl.
  - constructor; [reflexivity | constructor].
  - destruct (Ascii.eqb c sep) eqn:E.
    + constructor; [reflexivity | exact IH].
    + destruct (split sep s) as [|piece pieces]; [repeat constructor | ].
      * unfold free_of. simpl. now rewrite E.
      * inversion IH as [|? ? Hp Hps]; subst. constructor; [ | exact Hps].
        unfold free_of in *. simpl. now rewrite E.
Qed.

Lemma split_length (sep : ascii) (s : string) :
  List.length (split sep s) = S (count_char sep s).
Proof.
  induction s as [|c s IH]; [reflexivity | ].
  simpl. destruct (Ascii.eqb c sep); simpl.
  - now rewrite IH.
  - destruct (split sep s); simpl in *; [discriminate | exact IH].
Qed.

Lemma split_free_string (s : string) :
  free_of COMMA s = true -> split COMMA s = [s].
Proof.
  unfold free_of. induction s as [|c s IH]; [reflexivity | ].
  simpl. intros H. apply negb_true_iff in H. apply orb_false_iff in H.
  destruct H as [Hc Hs]. rewrite Hc. rewrite IH by (now rewrite Hs). reflexivity.
Qed.

Lemma split_app_comma (a rest : string) :
  free_of COMMA a = true ->
  split COMMA (a ++ "," ++ rest) = a :: split COMMA rest.
Proof.
  unfold free_of. induction a as [|c a IH]; intros H; [reflexivity | ].
  simpl in H. apply negb_true_iff in H. apply orb_false_iff in H.
  destruct H as [Hc Ha]. simpl. rewrite Hc.
  simpl in IH. rewrite IH by (now rewrite Ha). reflexivity.
Qed.

Lemma split_join (l : list string) :
  l <> [] ->
  Forall (fun piece => free_of COMMA piece = true) l ->
  split COMMA (join "," l) = l.
Proof.
  induction l as [|x l IH]; intros Hne Hfree; [congruence | ].
  inversion Hfree as [|? ? Hx Hl]; subst.
  destruct l as [|y l].
  - simpl. now apply split_free_string.
  - rewrite join_cons by discriminate. rewrite split_app_comma by exact Hx.
    rewrite IH; [reflexivity | discriminate | exact Hl].
Qed.

Lemma free_of_app (c : ascii) (a b : string) :
  free_of c (a ++ b) = free_of c a && free_of c b.
Proof.
  unfold free_of. induction a as [|x a IH]; simpl; [reflexivity | ].
  destruct (Ascii.eqb x c); simpl; [reflexivity | exact IH].
Qed.

Lemma free_of_join2 (c : ascii) (a b : string) :
  Ascii.eqb SLASH c = false ->
  free_of c a = true -> free_of c b = true -> free_of c (join2 a b) = true.
Proof.
  intros Hc Ha Hb. unfold join2.
  destruct (startswith b "/"); [exact Hb | ].
  destruct (_ || _).
  - now rewrite free_of_app, Ha, Hb.
  - assert (Hs : free_of c "/" = true).
    { unfold free_of. cbn [csv.any_char]. unfold SLASH in Hc. now rewrite Hc. }
    now rewrite !free_of_app, Ha, Hb, Hs.
Qed.

Lemma free_of_last (c : ascii) (l : list string) :
  Forall (fun piece => free_of c piece = true) l ->
  free_of c (last l EmptyString) = true.
Proof.
  induction 1 as [|x l Hx Hl IH]; [reflexivity | ].
  destruct l; [exact Hx | exact IH].
Qed.

Lemma split_keeps_free (c sep : ascii) (s : string) :
  free_of c s = true -> Forall (fun piece => free_of c piece = true) (split sep s).
Proof.
  unfold free_of. induction s as [|x s IH]; simpl; intros H.
  - constructor; [reflexivity | constructor].
  - apply negb_true_iff in H. apply orb_false_iff in H. destruct H as [Hx Hs].
    assert (IH' := IH ltac:(now rewrite Hs)).
    destruct (Ascii.eqb x sep).
    + constructor; [reflexivity | exact IH'].
    + destruct (split sep s) as [|piece pieces].
      * constructor; [simpl; now rewrite Hx | constructor].
      * inversion IH' as [|? ? Hp Hps]; subst. constructor; [ | exact Hps].
        simpl. rewrite Hx. exact Hp.
Qed.

Lemma basename_free (c : ascii) (url : string) :
  free_of c url = true -> free_of c (basename url) = true.
Proof. intros H. apply free_of_last. now apply split_keeps_free. Qed.


Section Paths.

Variable w : World.

Lemma image_url_free (url : string) :
  free_of COMMA (MEDIA_URL w) = true ->
  free_of COMMA url = true ->
  free_of COMMA (image_url w url) = true.
Proof.
  intros Hm Hu. unfold image_url, path_join. cbn [fold_left].
  apply free_of_join2; [reflexivity | | ].
  - apply free_of_join2; [reflexivity | exact Hm | reflexivity].
  - rewrite free_of_app. now rewrite (basename_free COMMA url Hu).
Qed.

Lemma outputs_due_free (urls : list string) :
  free_of COMMA (MEDIA_URL w) = true ->
  Forall (fun url => free_of COMMA url = true) urls ->
  Forall (fun out => free_of COMMA out = true) (outputs_due w urls).
Proof.
  intros Hm Hurls. unfold outputs_due. apply Forall_map.
  induction Hurls as [|url urls Hu _ IH]; simpl; [constructor | ].
  destruct (transcodes w url); [constructor | exact IH].
  - now apply image_url_free.
  - exact IH.
Qed.



End Paths.

(** *** Dictionaries *)

Lemma dict_get_set_same (d : dict) (k : string) (v : value) :
  dict_get (dict_set d k v) k = Some v.
Proof.
  induction d as [|[k' v'] d IH]; simpl.
  - now rewrite String.eqb_refl.
  - destruct (String.eqb k k') eqn:E; simpl; rewrite ?String.eqb_refl, ?E; auto.
Qed.

Lemma dict_get_set_other (d : dict) (k k' : string) (v : value) :
  k' <> k -> dict_get (dict_set d k v) k' = dict_get d k'.
Proof.
  intros Hk. apply String.eqb_neq in Hk.
  induction d as [|[k0 v0] d IH]; simpl.
  - now rewrite Hk.
  - destruct (String.eqb k k0) eqn:E; simpl.
    + apply String.eqb_eq in E. subst k0. now rewrite Hk.
    + now rewrite IH.
Qed.

Lemma dict_keys_set (d : dict) (k : string) (v : value) :
  dict_get d k <> None -> dict_keys (dict_set d k v) = dict_keys d.
Proof.
  unfold dict_keys. induction d as [|[k0 v0] d IH]; simpl; [congruence | ].
  destruct (String.eqb k k0) eqn:E; simpl.
  - apply String.eqb_eq in E. now subst.
  - intros H. now rewrite IH.
Qed.

End cover_facts.

(* ================================================================= *)
(** ** Facts about the views *)

Module view_facts.
Import ImageProcessingTask props cover task_facts cover_facts views.

Section ViewFacts.

Variable w : World.
Variable messages : Messages.

(** The serializer of a request raises, whatever the request. *)
Lemma serializer_data_raises (instance : ProcessingRequest) :
  exists msg,
    serializers.serializer_data w instance = Raise (Exn AssertionError msg).
Proof. eexists. reflexivity. Qed.

(** [get_object_or_404] changes nothing. *)
Lemma get_object_or_404_state rid s r s' :
  get_object_or_404 rid s = (r, s') -> s' = s.
Proof.
  unfold get_object_or_404, try_except, objects_get.
  destruct (filter_request_id (db s) rid) as [|r0 [|r1 l]]; simpl.
  - unfold raise. now intros [= _ <-].
  - now intros [= _ <-].
  - unfold raise. now intros [= _ <-].
Qed.

(** One row that the store takes. *)
Lemma create_products_accepted rid pr row rest err s :
  accepted w pr row = true ->
  exists n nm urls message,
    manifest_item w row = Some (n, nm, urls)
    /\ let p := mkProduct (fresh_pk product_pk (Product_objects (db s)))
                          (request_pk pr) n nm urls EmptyString false in
       let d := mkDB (ProcessingRequest_objects (db s))
                     (Product_objects (db s) ++ [p])%list in
       create_products w rid pr (row :: rest) err s
       = create_products w rid pr rest err
           (mkState d (files s) (ProductCreated p d :: trace s)
                    ((INFO, message) :: log s)).
Proof.
  unfold accepted, manifest_item. intros H.
  destruct (dict_get row "Serial Number") as [sn|] eqn:E1; [ | discriminate].
  destruct (dict_get row "Product Name") as [nm|] eqn:E2; [ | discriminate].
  destruct (dict_get row "Input Image Urls") as [urls|] eqn:E3; [ | discriminate].
  destruct (int_column w sn) as [[n|e]|] eqn:E4; try discriminate.
  destruct (text_column nm) as [nm'|] eqn:E5; [ | discriminate].
  destruct (text_column urls) as [urls'|] eqn:E6; [ | discriminate].
  destruct (db_fault w (CreateProduct (request_pk pr) n nm' urls')) eqn:E7; [discriminate | ].
  exists n, nm', urls'. eexists. split; [reflexivity | ].
  cbn [create_products]. unfold bind, getitem. rewrite E1, E2, E3.
  unfold ret at 1 2 3. cbv beta iota. unfold Product_create.
  rewrite E4, E5, E6, E7. cbv beta iota zeta.
  unfold ret at 1. cbv beta iota. unfold logger_info, logger. cbv beta iota.
  reflexivity.
Qed.

(** One row that the store does not take: the loop ends there, on an
    exception, and nothing is stored for the row. *)
Lemma create_products_refused rid pr row rest err s :
  accepted w pr row = false ->
  exists e,
    create_products w rid pr (row :: rest) err s = (Raise e, s)
    /\ (manifest_item w row = None ->
        exn_class e = KeyError \/ exn_class e = ValueError
        \/ exn_class e = IntegrityError).
Proof.
  unfold accepted, manifest_item. intros H.
  cbn [create_products]. unfold bind, getitem.
  destruct (dict_get row "Serial Number") as [sn|] eqn:E1;
    [ | eexists; split; [reflexivity | intros _; left; reflexivity]].
  destruct (dict_get row "Product Name") as [nm|] eqn:E2;
    [ | eexists; split; [reflexivity | intros _; left; reflexivity]].
  destruct (dict_get row "Input Image Urls") as [urls|] eqn:E3;
    [ | eexists; split; [reflexivity | intros _; left; reflexivity]].
  unfold ret at 1 2 3. cbv beta iota. unfold Product_create.
  destruct (int_column w sn) as [[n|e]|] eqn:E4.
  - destruct (text_column nm) as [nm'|] eqn:E5;
      [ | eexists; split; [reflexivity | intros _; right; right; reflexivity]].
    destruct (text_column urls) as [urls'|] eqn:E6;
      [ | eexists; split; [reflexivity | intros _; right; right; reflexivity]].
    destruct (db_fault w (CreateProduct (request_pk pr) n nm' urls')) eqn:E7;
      [ | discriminate].
    eexists; split; [reflexivity | discriminate].
  - exists e. split; [reflexivity | ]. intros _. right; left.
    unfold int_column in E4. destruct sn; try discriminate.
    destruct (int_of_str w s0); [discriminate | ]. now inv E4.
  - eexists; split; [reflexivity | intros _; right; right; reflexivity].
Qed.

(** The loop over the rows of the manifest: the rows up to the first one the
    store does not take become items, appended to the table in the order of
    the rows, each with a key above every key of the table; whatever ends
    the loop, they stay. *)
Lemma create_products_spec rid pr rows err :
  forall s r s',
    create_products w rid pr rows err s = (r, s') ->
    exists made rest created,
      rows = (made ++ rest)%list
      /\ forallb (accepted w pr) made = true
      /\ ProcessingRequest_objects (db s') = ProcessingRequest_objects (db s)
      /\ Product_objects (db s') = (Product_objects (db s) ++ created)%list
      /\ map (fun p => Some (item_of p)) created = map (manifest_item w) made
      /\ Forall (newly_created pr) created
      /\ NoDup (map product_pk created)
      /\ (forall p q, In p created -> In q (Product_objects (db s)) ->
                      product_pk q < product_pk p)
      /\ files s' = files s
      /\ match r with
         | Ok _ => rest = [] /\ err = None
         | Raise e =>
             (rest = [] /\ err = Some e)
             \/ exists row rest',
                 rest = row :: rest' /\ accepted w pr row = false
                 /\ (manifest_item w row = None ->
                     exn_class e = KeyError \/ exn_class e = ValueError
                     \/ exn_class e = IntegrityError)
         end.
Proof.
  induction rows as [|row rows IH]; intros s r s' H.
  - exists [], [], []. cbn [create_products] in H.
    assert (Hs : s' = s /\ r = match err with Some e => Raise e | None => Ok tt end).
    { destruct err; unfold raise, ret in H; inv H; auto. }
    destruct Hs as [-> ->].
    split; [reflexivity | ]. split; [reflexivity | ]. split; [reflexivity | ].
    split; [symmetry; apply app_nil_r | ]. split; [reflexivity | ].
    split; [constructor | ]. split; [constructor | ].
    split; [intros ? ? [] | ]. split; [reflexivity | ].
    destruct err; auto.
  - destruct (accepted w pr row) eqn:Ha.
    + destruct (create_products_accepted rid pr row rows err s Ha)
        as (n & nm & urls & message & Hitem & Hstep).
      cbv zeta in Hstep. rewrite Hstep in H. clear Hstep.
      apply IH in H. cbn [db files Product_objects ProcessingRequest_objects] in H.
      destruct H as (made & rest & created & -> & Hmade & Hreq & Hprod & Hitems
                     & Hnew & Hnd & Hgt & Hfiles & Hr).
      set (p := mkProduct (fresh_pk product_pk (Product_objects (db s)))
                          (request_pk pr) n nm urls EmptyString false) in *.
      exists (row :: made), rest, (p :: created).
      split; [reflexivity | ].
      split; [cbn [forallb]; now rewrite Ha, Hmade | ].
      split; [exact Hreq | ].
      split; [rewrite Hprod, <- app_assoc; reflexivity | ].
      split; [cbn [map]; rewrite Hitem, Hitems; reflexivity | ].
      split; [constructor; [repeat split | exact Hnew] | ].
      split.
      { cbn [map]. constructor; [ | exact Hnd]. intros Hin.
        apply in_map_iff in Hin. destruct Hin as (q & Hq & Hin).
        assert (Hlt : product_pk p < product_pk q).
        { apply Hgt; [exact Hin | ]. apply in_or_app. right. now left. }
        lia. }
      split.
      { intros x q [<- | Hx] Hq.
        - cbn [product_pk p]. now apply fresh_pk_gt.
        - apply Hgt; [exact Hx | ]. apply in_or_app. now left. }
      split; [exact Hfiles | exact Hr].
    + destruct (create_products_refused rid pr row rows err s Ha) as (e & He & Hcls).
      rewrite He in H. inv H.
      exists [], (row :: rows), [].
      split; [reflexivity | ]. split; [reflexivity | ]. split; [reflexivity | ].
      split; [symmetry; apply app_nil_r | ]. split; [reflexivity | ].
      split; [constructor | ]. split; [constructor | ].
      split; [intros ? ? [] | ]. split; [reflexivity | ].
      right. exists row, rows. auto.
Qed.

(** The state once the upload view has created its request. *)
Lemma header_accepted content :
  header_rejected content = false ->
  exists fieldnames,
    csv.DictReader_fieldnames csv.field_size_limit (csv.StringIO content)
    = Ok (Some fieldnames)
    /\ filter (fun col => negb (mem col fieldnames)) required_columns = [].
Proof.
  unfold header_rejected. intros H.
  destruct (csv.DictReader_fieldnames _ _) as [[fieldnames|]|e]; try discriminate.
  exists fieldnames. split; [reflexivity | ].
  apply negb_false_iff in H. apply filter_none. intros col Hcol.
  rewrite forallb_forall in H. now rewrite (H col Hcol).
Qed.

(** The first [try] block of the upload view on a file it accepts: the
    request is created, then the rows are gone through. *)
Lemma post_try_accepted request rid s file_obj :
  lookup (FILES request) "file" = Some file_obj ->
  endswith (file_name file_obj) ".csv" = true ->
  db_fault w (CreateRequest rid) = None ->
  filter_request_id (db s) rid = [] ->
  utf8_valid w (file_bytes file_obj) = true ->
  header_rejected (file_bytes file_obj) = false ->
  let pr := mkProcessingRequest (fresh_pk request_pk (ProcessingRequest_objects (db s)))
                                rid (now w) false None in
  let d := mkDB (ProcessingRequest_objects (db s) ++ [pr])%list (Product_objects (db s)) in
  let s1 := mkState d (files s) (RequestCreated pr d :: trace s)
                    ((INFO, "Processing request created. Request ID: " ++ rid) :: log s) in
  post_try w messages request rid s
  = (create_products w rid pr
       (fst (csv.DictReader_rows csv.field_size_limit (csv.StringIO (file_bytes file_obj))))
       (snd (csv.DictReader_rows csv.field_size_limit (csv.StringIO (file_bytes file_obj)))) ;;
     ret None) s1.
Proof.
  intros Hfile Hname Hfault Hfresh Hutf Hhead pr d s1.
  destruct (header_accepted _ Hhead) as (fieldnames & Hread & Hmiss).
  unfold post_try. rewrite Hfile, Hname. cbn [negb].
  unfold bind at 1. unfold ProcessingRequest_create. rewrite Hfault, Hfresh.
  fold pr. fold d. unfold bind at 1. unfold logger_info at 1. unfold logger at 1.
  cbn [db files trace log]. fold s1.
  rewrite Hutf. unfold bind at 1. unfold ret at 1.
  unfold bind at 1. unfold lift. rewrite Hread, Hmiss.
  destruct (csv.DictReader_rows _ _) as [rows err]. reflexivity.
Qed.

End ViewFacts.

End view_facts.

(* ================================================================= *)
(** ** Facts about a run where nothing fails *)

Module pipeline_facts.
Import ImageProcessingTask props cover task_facts cover_facts.

Section PipelineFacts.

Variable w : World.

Lemma tolerated_classes e :
  tolerated e = true ->
  isinstance e RequestException = false /\ isinstance e IOError = false.
Proof.
  unfold tolerated. intros H. apply andb_true_iff in H. destruct H as [H1 H2].
  now apply negb_true_iff in H1, H2.
Qed.

(** A URL that is skipped: the loop goes on with what it had, and no file
    is written. *)
Lemma process_url_skipped self url filename output_urls s :
  skipped w url = true ->
  exists s',
    process_url w self url filename output_urls s = (Ok (filename, output_urls), s')
    /\ db s' = db s /\ files s' = files s /\ trace s' = HttpGet url :: trace s
    /\ exists line,
        log s' = (ERROR, line) :: (INFO, "Processing image from URL: " ++ url) :: log s.
Proof.
  unfold skipped, process_url, try_block. simpl.
  destruct (requests_get w url) as [content|e].
  - destruct (Image_open w content) as [img|e].
    + destruct (Image_save w img (format img) 50) as [img_io|e]; [discriminate | ].
      intros H. apply tolerated_classes in H. destruct H as [-> ->].
      cbn. eexists. repeat split. eexists. reflexivity.
    + intros H. apply tolerated_classes in H. destruct H as [-> ->].
      cbn. eexists. repeat split. eexists. reflexivity.
  - intros H. apply tolerated_classes in H. destruct H as [-> ->].
    cbn. eexists. repeat split. eexists. reflexivity.
Qed.

Lemma skipped_not_transcoded url : skipped w url = true -> transcodes w url = false.
Proof.
  unfold skipped, transcodes.
  destruct (requests_get w url) as [content|e]; [ | reflexivity].
  destruct (Image_open w content) as [img|e]; [ | reflexivity].
  destruct (Image_save w img (format img) 50); [discriminate | reflexivity].
Qed.

(** The loop over URLs that go through or are skipped comes to its end. *)
Lemma for_urls_passable self urls :
  forall filename output_urls s,
    forallb (fun url => goes_through w self url || skipped w url) urls = true ->
    exists fn s',
      for_urls w self urls filename output_urls s
      = (Ok (fn, (output_urls ++ outputs_due w urls)%list), s').
Proof.
  induction urls as [|url urls IH]; intros filename output_urls s H.
  - cbn. rewrite app_nil_r. eexists _, _. reflexivity.
  - cbn [forallb] in H. apply andb_true_iff in H. destruct H as [Hu Hrest].
    cbn [for_urls]. unfold bind. rewrite outputs_due_cons, outputs_due_one.
    apply orb_true_iff in Hu. destruct Hu as [Hu | Hu].
    + unfold goes_through in Hu. apply andb_true_iff in Hu. destruct Hu as [Ht Hw].
      destruct (open_wb w (file_path self url)) eqn:Hopen; [discriminate | ].
      destruct (process_url_total w self url filename output_urls s Ht Hopen)
        as (s1 & ->).
      rewrite Ht. rewrite app_assoc. apply IH, Hrest.
    + destruct (process_url_skipped self url filename output_urls s Hu)
        as (s1 & -> & _).
      rewrite (skipped_not_transcoded url Hu). cbn [app]. apply IH, Hrest.
Qed.

Lemma process_product_passable self p filename output_data s :
  passable w self p = true ->
  db_fault w (SaveProduct (processed_row w p)) = None ->
  exists fn s',
    process_product w self p filename output_data s
    = (Ok (fn, (output_data ++ [output_row (processed_row w p)])%list), s').
Proof.
  unfold passable. intros Hp Hsave.
  unfold process_product, bind.
  destruct (for_urls_passable self _ filename [] s Hp) as (fn & s1 & ->).
  cbn [app]. fold (processed_row w p). unfold Product_save. rewrite Hsave.
  eexists _, _. reflexivity.
Qed.

Lemma for_products_passable self ps :
  forall filename output_data s,
    (forall p, In p ps ->
               passable w self p = true
               /\ db_fault w (SaveProduct (processed_row w p)) = None) ->
    exists fn s',
      for_products w self ps filename output_data s
      = (Ok (fn, (output_data ++ map (fun q => output_row (processed_row w q)) ps)%list),
         s').
Proof.
  induction ps as [|p ps IH]; intros filename output_data s H.
  - cbn. rewrite app_nil_r. eexists _, _. reflexivity.
  - cbn [for_products]. unfold bind.
    destruct (H p (or_introl eq_refl)) as [Hp Hsave].
    destruct (process_product_passable self p filename output_data s Hp Hsave)
      as (fn & s1 & ->).
    cbn [map]. replace (output_data ++ output_row (processed_row w p)
                          :: map (fun q => output_row (processed_row w q)) ps)%list
      with ((output_data ++ [output_row (processed_row w p)])
              ++ map (fun q => output_row (processed_row w q)) ps)%list
      by (rewrite <- app_assoc; reflexivity).
    apply IH. intros q Hq. apply H. now right.
Qed.

(** With a record store and a file storage that take what they are given,
    and URLs that go through or are skipped, [process_images] comes to its
    end. *)
Lemma process_images_total self s :
  (forall op, db_fault w op = None) ->
  (forall name content, is_ok (storage_save w name content) = true) ->
  (forall p, In p (product_set (db s) (processing_request self)) ->
             passable w self p = true) ->
  exists s', process_images w self s = (Ok tt, s').
Proof.
  intros Hdb Hstore Hpass.
  unfold process_images. unfold bind at 1. unfold product_set_all.
  unfold bind at 1.
  destruct (for_products_passable self (product_set (db s) (processing_request self))
              None [] s) as (fn & s1 & ->).
  { intros p Hp. split; [now apply Hpass | apply Hdb]. }
  cbn [app]. rewrite <- (map_map (processed_row w) output_row).
  unfold bind at 1. unfold try_except at 1.
  unfold generate_csv, try_except, bind, lift. rewrite csv_file_rows.
  unfold result_file_save.
  match goal with
  | |- context [storage_save w ?n ?c] =>
      pose proof (Hstore n c) as Hs; destruct (storage_save w n c) as [stored|e]
  end; [ | discriminate].
  unfold bind, store_file, ProcessingRequest_save, ret. cbn.
  rewrite Hdb. cbn. unfold complete_request, try_except, bind, ProcessingRequest_save.
  cbn. rewrite Hdb. cbn. eexists. reflexivity.
Qed.

(** [run] on a job of the store, the output directory being there. *)
Lemma run_known_request rid s r0 :
  filter_request_id (db s) rid = [r0] ->
  os_makedirs w (path_join (MEDIA_ROOT w) ["processed_images"]) = None ->
  let self := mkTask rid r0 (path_join (MEDIA_ROOT w) ["processed_images"]) in
  let s0 := mkState (db s) (files s) (trace s)
                    ((INFO, "Task request received for request ID: " ++ rid) :: log s) in
  run w rid s
  = try_except (process_images w self)
      (fun e =>
         if isinstance e ValueError then
           logger_error ("Error processing request ID " ++ rid ++ ": " ++ str e)
         else raise e) s0.
Proof.
  intros Hget Hdir self s0.
  unfold run. unfold bind at 1. unfold logger_info at 1. unfold logger at 1.
  fold s0. unfold try_except at 1. unfold bind at 1.
  unfold __init__. unfold bind at 1. unfold try_except at 1. unfold objects_get.
  cbn [db s0]. rewrite Hget. rewrite Hdir. unfold ret at 1. fold self.
  unfold try_except. reflexivity.
Qed.

(** The store at the end of a run where nothing fails. *)
Lemma run_completes rid s r0 :
  keys_unique (db s) ->
  filter_request_id (db s) rid = [r0] ->
  os_makedirs w (path_join (MEDIA_ROOT w) ["processed_images"]) = None ->
  (forall op, db_fault w op = None) ->
  (forall name content, is_ok (storage_save w name content) = true) ->
  (forall p, In p (product_set (db s) r0) ->
             passable w (mkTask rid r0 (path_join (MEDIA_ROOT w) ["processed_images"])) p
             = true) ->
  exists s' stored,
    run w rid s = (Ok tt, s')
    /\ filter_request_id (db s') rid
       = [set_completed (set_result_file r0 stored) true]
    /\ product_set (db s') r0 = map (processed_row w) (product_set (db s) r0)
    /\ In (stored,
           file_text (fieldnames
                        :: map summary_fields
                             (map (processed_row w) (product_set (db s) r0))))
          (files s').
Proof.
  intros Hkeys Hget Hdir Hdb Hstore Hpass.
  rewrite (run_known_request rid s r0 Hget Hdir). cbv zeta.
  set (self := mkTask rid r0 (path_join (MEDIA_ROOT w) ["processed_images"])) in *.
  set (s0 := mkState (db s) (files s) (trace s) _).
  destruct (process_images_total self s0 Hdb Hstore Hpass) as (s' & Hrun).
  unfold try_except. rewrite Hrun.
  apply process_images_spec in Hrun. cbv zeta in Hrun.
  destruct Hrun as (done & rest & tr1 & tr2 & Hps & Htr & Hsaved & Hloop & Hfetch & Hend).
  destruct Hend as [((e & He) & _) | (-> & stored & Hfile & Hend)]; [discriminate | ].
  destruct Hend as [((e & He) & _) | (_ & Hdb' & _)]; [discriminate | ].
  rewrite app_nil_r in Hps. subst done.
  cbn [processing_request self db s0] in *.
  destruct (finish_facts w (db s) rid stored r0 Hkeys Hget) as (_ & H2 & _ & H4).
  cbv zeta in H2, H4.
  exists s', stored. split; [reflexivity | ]. rewrite Hdb'.
  split; [exact H2 | ]. split; [exact H4 | exact Hfile].
Qed.

(** *** What a run leaves alone *)

Lemma filter_map_fixed {A : Type} (P : A -> bool) (g : A -> A) (l : list A) :
  (forall y, In y l -> P (g y) = P y /\ (P y = true -> g y = y)) ->
  filter P (map g l) = filter P l.
Proof.
  induction l as [|y l IH]; intros H; [reflexivity | ].
  cbn [map filter]. destruct (H y (or_introl eq_refl)) as [H1 H2].
  rewrite H1, IH by (intros z Hz; apply H; now right).
  destruct (P y) eqn:E; [now rewrite H2 | reflexivity].
Qed.

Lemma filter_upsert_other {A : Type} (key : A -> nat) (x : A) (rows : list A) (k : nat) :
  key x = k ->
  filter (fun y => negb (Nat.eqb (key y) k)) (upsert key x rows)
  = filter (fun y => negb (Nat.eqb (key y) k)) rows.
Proof.
  intros <-. unfold upsert.
  destruct (existsb _ rows).
  - apply filter_map_fixed. intros y _.
    destruct (Nat.eqb (key y) (key x)) eqn:E.
    + rewrite Nat.eqb_refl. split; [reflexivity | discriminate].
    + rewrite E. auto.
  - rewrite filter_app. cbn [filter]. rewrite Nat.eqb_refl. cbn. apply app_nil_r.
Qed.

Lemma NoDup_upsert {A : Type} (key : A -> nat) (x : A) (rows : list A) :
  NoDup (map key rows) -> NoDup (map key (upsert key x rows)).
Proof.
  intros Hnd. unfold upsert.
  destruct (existsb (fun y => Nat.eqb (key y) (key x)) rows) eqn:E.
  - replace (map key (map (fun y => if Nat.eqb (key y) (key x) then x else y) rows))
      with (map key rows); [exact Hnd | ].
    rewrite map_map. apply map_ext. intros y.
    destruct (Nat.eqb (key y) (key x)) eqn:Ey; [ | reflexivity].
    now apply Nat.eqb_eq in Ey.
  - rewrite map_app. cbn [map].
    assert (Hadd : Add (key x) (map key rows) (map key rows ++ [key x])).
    { pose proof (Add_app (key x) (map key rows) []) as H.
      now rewrite app_nil_r in H. }
    apply (NoDup_Add Hadd). split; [exact Hnd | ].
    intros Hin. apply in_map_iff in Hin. destruct Hin as (y & Hy & Hin).
    assert (existsb (fun y => Nat.eqb (key y) (key x)) rows = true).
    { apply existsb_exists. exists y. split; [exact Hin | now apply Nat.eqb_eq]. }
    congruence.
Qed.

Lemma In_upsert_inv {A : Type} (key : A -> nat) (x y : A) (rows : list A) :
  In y (upsert key x rows) -> y = x \/ In y rows.
Proof.
  unfold upsert. destruct (existsb _ rows).
  - intros H. apply in_map_iff in H. destruct H as (z & Hz & Hin).
    destruct (Nat.eqb (key z) (key x)); subst; auto.
  - intros H. apply in_app_or in H. destruct H as [H | [H | []]]; auto.
Qed.

Lemma In_upsert_key {A : Type} (key : A -> nat) (x y : A) (rows : list A) :
  In y rows -> exists z, In z (upsert key x rows) /\ key z = key y.
Proof.
  intros H. unfold upsert. destruct (existsb _ rows).
  - destruct (Nat.eqb (key y) (key x)) eqn:E.
    + exists x. split; [ | apply Nat.eqb_eq in E; congruence].
      apply in_map_iff. exists y. now rewrite E.
    + exists y. split; [ | reflexivity]. apply in_map_iff. exists y. now rewrite E.
  - exists y. split; [apply in_or_app; now left | reflexivity].
Qed.

Lemma map_input_fields_mark keys t :
  map input_fields (mark (processed_row w) keys t) = map input_fields t.
Proof.
  unfold mark. rewrite map_map. apply map_ext. intros y.
  now destruct (existsb _ keys).
Qed.

(** The tables after [process_images], however it ends: the items of a
    prefix [done] of the job are rewritten as processed, and the table of
    requests has had the request of the task saved into it, if anything. *)
Lemma process_images_store self s r s' :
  keys_unique (db s) ->
  process_images w self s = (r, s') ->
  exists done rest saves,
    product_set (db s) (processing_request self) = (done ++ rest)%list
    /\ (r = Ok tt -> rest = [])
    /\ Product_objects (db s')
       = mark (processed_row w) (map product_pk done) (Product_objects (db s))
    /\ ProcessingRequest_objects (db s')
       = fold_left (fun t x => upsert request_pk x t) saves
                   (ProcessingRequest_objects (db s))
    /\ Forall (fun x => request_pk x = request_pk (processing_request self)) saves.
Proof.
  intros [Hkeys Hreqs] Hrun.
  apply process_images_spec in Hrun. cbv zeta in Hrun.
  destruct Hrun as (done & rest & tr1 & tr2 & Hps & Htr & Hsaved & Hloop & Hfetch & Hend).
  assert (Hpsnd : NoDup (map product_pk (product_set (db s) (processing_request self)))).
  { unfold product_set. now apply NoDup_map_filter. }
  assert (Hincl : incl done (Product_objects (db s))).
  { intros y Hy. assert (Hy' : In y (product_set (db s) (processing_request self))).
    { rewrite Hps. apply in_or_app. now left. }
    unfold product_set in Hy'. apply filter_In in Hy'. tauto. }
  destruct (save_all_spec w done (db s)) as [Hr0 Hprods]; auto.
  { rewrite Hps in Hpsnd. now apply NoDup_map_app_l in Hpsnd. }
  exists done, rest.
  destruct Hend as [((e & ->) & -> & _) | (-> & stored & _ & Hend)].
  - exists []. split; [exact Hps | ]. split; [discriminate | ].
    split; [exact Hprods | ]. split; [exact Hr0 | constructor].
  - destruct Hend as [((e & ->) & -> & _) | (-> & -> & _)].
    + exists [set_result_file (processing_request self) stored].
      split; [exact Hps | ]. split; [discriminate | ].
      split; [exact Hprods | ]. split; [cbn; now rewrite Hr0 | ].
      repeat constructor.
    + exists [set_result_file (processing_request self) stored;
              set_completed (set_result_file (processing_request self) stored) true].
      split; [exact Hps | ]. split; [reflexivity | ].
      split; [exact Hprods | ]. split; [cbn; now rewrite Hr0 | ].
      repeat constructor.
Qed.

Lemma saves_keep_keys (saves : list ProcessingRequest) :
  forall reqs, NoDup (map request_pk reqs) ->
               NoDup (map request_pk
                          (fold_left (fun t x => upsert request_pk x t) saves reqs)).
Proof.
  induction saves as [|x saves IH]; intros reqs H; [exact H | ].
  cbn [fold_left]. apply IH. now apply NoDup_upsert.
Qed.

Lemma saves_keep_others (saves : list ProcessingRequest) (k : nat) :
  Forall (fun x => request_pk x = k) saves ->
  forall reqs,
    filter (fun y => negb (Nat.eqb (request_pk y) k))
           (fold_left (fun t x => upsert request_pk x t) saves reqs)
    = filter (fun y => negb (Nat.eqb (request_pk y) k)) reqs.
Proof.
  induction 1 as [|x saves Hx _ IH]; intros reqs; [reflexivity | ].
  cbn [fold_left]. rewrite IH. now apply filter_upsert_other.
Qed.

Lemma saves_keep_references (saves : list ProcessingRequest) :
  forall reqs y,
    In y reqs ->
    exists z, In z (fold_left (fun t x => upsert request_pk x t) saves reqs)
              /\ request_pk z = request_pk y.
Proof.
  induction saves as [|x saves IH]; intros reqs y Hy; [now exists y | ].
  cbn [fold_left].
  destruct (In_upsert_key request_pk x y reqs Hy) as (z & Hz & E).
  destruct (IH _ z Hz) as (z' & Hz' & E'). exists z'. split; [exact Hz' | congruence].
Qed.

(** *** Consistency of the store *)

Lemma process_images_consistent self s r s' :
  consistent (db s) ->
  process_images w self s = (r, s') ->
  consistent (db s').
Proof.
  intros [Hkeys Hrefs] Hrun.
  destruct (process_images_store self s r s' Hkeys Hrun)
    as (done & rest & saves & _ & _ & Hprods & Hreqs & _).
  destruct Hkeys as [Hk1 Hk2]. split; [split | ].
  - rewrite Hprods, map_key_mark; [exact Hk1 | apply processed_row_key].
  - rewrite Hreqs. now apply saves_keep_keys.
  - intros p Hp. rewrite Hprods in Hp. unfold mark in Hp.
    apply in_map_iff in Hp. destruct Hp as (q & Hq & Hin).
    destruct (Hrefs q Hin) as (x & Hx & E).
    destruct (saves_keep_references saves _ x Hx) as (z & Hz & E').
    exists z. rewrite Hreqs. split; [exact Hz | ].
    rewrite E'. rewrite <- E. destruct (existsb _ _); now subst p.
Qed.

Lemma run_consistent rid s r s' :
  consistent (db s) -> run w rid s = (r, s') -> consistent (db s').
Proof.
  intros Hc Hrun. apply run_spec in Hrun.
  destruct Hrun as [(-> & _) | (r0 & s1 & r1 & s2 & _ & E1 & _ & _ & Hp & -> & _)];
    [exact Hc | ].
  eapply process_images_consistent; [ | exact Hp]. now rewrite E1.
Qed.

(** *** Runs where the only failures are fetches *)

Lemma process_url_settles self url filename output_urls s r s' :
  settles w self url = true ->
  process_url w self url filename output_urls s = (r, s') ->
  (exists res, r = Ok res) \/ (exists msg, r = Raise (Exn ValueError msg)).
Proof.
  unfold settles. intros H Hrun. apply orb_true_iff in H. destruct H as [H | H].
  - apply orb_true_iff in H. destruct H as [H | H].
    + unfold goes_through in H. apply andb_true_iff in H. destruct H as [Ht Hw].
      destruct (open_wb w (file_path self url)) eqn:Hopen; [discriminate | ].
      destruct (process_url_total w self url filename output_urls s Ht Hopen)
        as (s1 & E).
      rewrite E in Hrun. inv Hrun. left. eauto.
    + destruct (process_url_skipped self url filename output_urls s H) as (s1 & E & _).
      rewrite E in Hrun. inv Hrun. left. eauto.
  - destruct (process_url_fetch_fails w self url filename output_urls s H)
      as (msg & s1 & E & _).
    rewrite E in Hrun. inv Hrun. right. eauto.
Qed.

Lemma for_urls_settles self urls :
  forall filename output_urls s r s',
    forallb (settles w self) urls = true ->
    for_urls w self urls filename output_urls s = (r, s') ->
    (exists res, r = Ok res) \/ (exists msg, r = Raise (Exn ValueError msg)).
Proof.
  induction urls as [|url urls IH]; intros filename output_urls s r s' H Hrun.
  - inv Hrun. left. eauto.
  - cbn [forallb] in H. apply andb_true_iff in H. destruct H as [Hu Hrest].
    cbn [for_urls] in Hrun. unfold bind in Hrun.
    destruct (process_url w self url filename output_urls s) as [r1 s1] eqn:E.
    destruct (process_url_settles self url filename output_urls s r1 s1 Hu E)
      as [([fn outs] & ->) | (msg & ->)].
    + eapply IH; eassumption.
    + inv Hrun. right. eauto.
Qed.

Lemma for_products_settles self ps :
  forall filename output_data s r s',
    (forall p, db_fault w (SaveProduct p) = None) ->
    (forall p, In p ps ->
               forallb (settles w self) (split COMMA (input_image_urls p)) = true) ->
    for_products w self ps filename output_data s = (r, s') ->
    (exists res, r = Ok res) \/ (exists msg, r = Raise (Exn ValueError msg)).
Proof.
  induction ps as [|p ps IH]; intros filename output_data s r s' Hdb H Hrun.
  - inv Hrun. left. eauto.
  - cbn [for_products] in Hrun. unfold bind at 1 in Hrun.
    unfold process_product in Hrun. unfold bind at 1 in Hrun.
    destruct (for_urls w self (split COMMA (input_image_urls p)) filename [] s)
      as [r1 s1] eqn:E.
    destruct (for_urls_settles self _ filename [] s r1 s1 (H p (or_introl eq_refl)) E)
      as [([fn outs] & ->) | (msg & ->)].
    + unfold bind at 1 in Hrun. unfold Product_save in Hrun. rewrite Hdb in Hrun.
      unfold ret at 1 in Hrun. cbv beta iota zeta in Hrun.
      eapply IH; [exact Hdb | | exact Hrun]. intros q Hq. apply H. now right.
    + inv Hrun. right. eauto.
Qed.

(** What [generate_csv] and [complete_request] raise, [process_images]
    raises again as a [ValueError] of its own. *)
Lemma process_images_settles self s r s' :
  (forall p, db_fault w (SaveProduct p) = None) ->
  (forall p, In p (product_set (db s) (processing_request self)) ->
             forallb (settles w self) (split COMMA (input_image_urls p)) = true) ->
  process_images w self s = (r, s') ->
  r = Ok tt \/ exists msg, r = Raise (Exn ValueError msg).
Proof.
  intros Hdb Hset H. unfold process_images in H.
  unfold bind at 1 in H. unfold product_set_all in H. unfold bind at 1 in H.
  destruct (for_products w self (product_set (db s) (processing_request self)) None [] s)
    as [r1 s1] eqn:E.
  destruct (for_products_settles self _ None [] s r1 s1 Hdb Hset E)
    as [([fn data] & ->) | (msg & ->)].
  2:{ inv H. right. eauto. }
  unfold bind at 1 in H. unfold try_except at 1 in H.
  destruct (generate_csv w self data s1) as [[self'|e] s2].
  2:{ cbn in H. inv H. right. eauto. }
  unfold try_except at 1 in H.
  destruct ((complete_request w self' ;; ret tt) s2) as [[[]|e] s3].
  - inv H. now left.
  - cbn in H. inv H. right. eauto.
Qed.

(** Rewriting items of one job leaves the items of the other jobs as they
    are. *)
Lemma mark_other_jobs (t done : list Product) (job other : nat) :
  NoDup (map product_pk t) ->
  incl done t ->
  (forall q, In q done -> request q = job) ->
  other <> job ->
  filter (fun p => Nat.eqb (request p) other)
         (mark (processed_row w) (map product_pk done) t)
  = filter (fun p => Nat.eqb (request p) other) t.
Proof.
  intros Hnd Hincl Hjob Hother. unfold mark. apply filter_map_fixed.
  intros y Hy. split; [now destruct (existsb _ _) | ].
  intros Hreq. apply Nat.eqb_eq in Hreq.
  destruct (existsb (Nat.eqb (product_pk y)) (map product_pk done)) eqn:E;
    [ | reflexivity].
  apply existsb_exists in E. destruct E as (k & Hk & Ek).
  apply Nat.eqb_eq in Ek. subst k. apply in_map_iff in Hk.
  destruct Hk as (q & Eq & Hq).
  assert (q = y) by (apply (key_inj t); auto). subst q.
  specialize (Hjob y Hq). congruence.
Qed.

End PipelineFacts.

End pipeline_facts.

(* ================================================================= *)
(** ** Facts about the upload view as a whole *)

Module upload_facts.
Import ImageProcessingTask props cover task_facts cover_facts view_facts
       pipeline_facts views.

Section UploadFacts.

Variable w : World.
Variable messages : Messages.

(** How [post] ends, by how its first [try] block ends. *)
Lemma post_cases request s r s' :
  post w messages request s = (r, s') ->
  exists s0 r1 s1,
    same_effects s0 s
    /\ post_try w messages request (uuid4 w) s0 = (r1, s1)
    /\ match r1 with
       | Ok (Some resp) => r = Ok resp /\ same_effects s' s1
       | Raise e =>
           same_effects s' s1
           /\ if isinstance e csv_Error
              then r = Ok (ErrorAPIResponse (CSV_ERROR messages) (Some HTTP_400_BAD_REQUEST))
              else exists msg, r = Raise (Exn TypeError msg)
       | Ok None =>
           exists r2 s2,
             run w (uuid4 w) s1 = (r2, s2)
             /\ same_effects s' s2
             /\ r = Ok (if is_ok r2 then accepted_response w
                        else ErrorAPIResponse (IMAGE_PROCESSING_EXCEPTION messages)
                                              (Some HTTP_400_BAD_REQUEST))
       end.
Proof.
  unfold post. unfold bind at 1. unfold logger_info at 1. unfold logger at 1.
  cbv beta iota.
  set (s0 := mkState (db s) (files s) (trace s) _).
  intros H. exists s0.
  unfold bind at 1 in H. unfold try_except at 1 in H.
  destruct (post_try w messages request (uuid4 w) s0) as [[[resp|]|e] s1] eqn:Htry;
    eexists _, _; (split; [repeat split | ]); (split; [reflexivity | ]).
  - unfold ret in H. inv H. repeat split.
  - unfold bind at 1 in H. unfold try_except at 1 in H. unfold bind at 1 in H.
    destruct (run w (uuid4 w) s1) as [[[]|e] s2] eqn:Hrun.
    + cbn in H. inv H. eexists _, _. split; [reflexivity | ]. repeat split.
    + cbn in H. inv H. eexists _, _. split; [reflexivity | ]. repeat split.
  - cbv beta iota. destruct (isinstance e csv_Error) eqn:E; cbn in H; inv H.
    + repeat split.
    + split; [repeat split | ]. eexists. reflexivity.
Qed.

(** What the first [try] block of the upload view does to the store,
    however it ends: nothing, or it adds the request of the upload and,
    after it, items of that request with keys that are new. *)
Lemma post_try_store request rid s r s' :
  post_try w messages request rid s = (r, s') ->
  files s' = files s
  /\ (db s' = db s
      \/ exists created,
          let pr := mkProcessingRequest
                      (fresh_pk request_pk (ProcessingRequest_objects (db s)))
                      rid (now w) false None in
          ProcessingRequest_objects (db s')
          = (ProcessingRequest_objects (db s) ++ [pr])%list
          /\ Product_objects (db s') = (Product_objects (db s) ++ created)%list
          /\ Forall (newly_created pr) created
          /\ NoDup (map product_pk created)
          /\ (forall p q, In p created -> In q (Product_objects (db s)) ->
                          product_pk q < product_pk p))
  /\ (forall resp, r = Ok (Some resp) ->
                   status resp = Some HTTP_400_BAD_REQUEST
                   /\ exists msg, data resp = [("error", Str msg)]).
Proof.
  intros H. unfold post_try in H.
  destruct (lookup (FILES request) "file") as [file_obj|].
  2:{ cbn in H. inv H. split; [reflexivity | ]. split; [now left | ].
      intros resp [= <-]. split; [reflexivity | eexists; reflexivity]. }
  destruct (endswith (file_name file_obj) ".csv"); cbn [negb] in H.
  2:{ cbn in H. inv H. split; [reflexivity | ]. split; [now left | ].
      intros resp [= <-]. split; [reflexivity | eexists; reflexivity]. }
  unfold bind at 1 in H. unfold ProcessingRequest_create in H.
  destruct (db_fault w (CreateRequest rid)).
  { inv H. split; [reflexivity | ]. split; [now left | discriminate]. }
  destruct (filter_request_id (db s) rid).
  2:{ inv H. split; [reflexivity | ]. split; [now left | discriminate]. }
  set (pr := mkProcessingRequest _ rid (now w) false None) in *.
  assert (Hnone : forall s1,
             files s1 = files s ->
             db s1 = mkDB (ProcessingRequest_objects (db s) ++ [pr])%list
                          (Product_objects (db s)) ->
             db s1 = db s
             \/ exists created,
                 ProcessingRequest_objects (db s1)
                 = (ProcessingRequest_objects (db s) ++ [pr])%list
                 /\ Product_objects (db s1) = (Product_objects (db s) ++ created)%list
                 /\ Forall (newly_created pr) created
                 /\ NoDup (map product_pk created)
                 /\ (forall p q, In p created -> In q (Product_objects (db s)) ->
                                 product_pk q < product_pk p)).
  { intros s1 Hf Hd. right. exists []. rewrite Hd. cbn.
    rewrite app_nil_r. repeat split; try constructor. intros ? ? []. }
  unfold bind at 1 in H. unfold logger_info at 1 in H. unfold logger at 1 in H.
  cbn [db files trace log] in H.
  destruct (utf8_valid w (file_bytes file_obj)).
  2:{ cbn in H. inv H. cbv zeta.
      split; [reflexivity | ]. split; [now apply Hnone | discriminate]. }
  unfold bind at 1 in H. unfold ret at 1 in H. unfold bind at 1 in H.
  unfold lift in H.
  destruct (csv.DictReader_fieldnames _ _) as [[fieldnames|]|e].
  - destruct (filter _ required_columns) as [|col cols].
    + destruct (csv.DictReader_rows _ _) as [rows err].
      unfold bind at 1 in H.
      match type of H with
      | context [create_products w rid pr rows err ?s1] =>
          destruct (create_products w rid pr rows err s1) as [[u|e] s2] eqn:Hc
      end; apply create_products_spec in Hc;
        destruct Hc as (made & rest & created & _ & _ & Hreq & Hprod & _ & Hnew
                        & Hnd & Hgt & Hfiles & _);
        cbn [db files ProcessingRequest_objects Product_objects] in *;
        unfold ret in H; inv H;
        (split; [exact Hfiles | ]);
        (split; [right; exists created; cbv zeta; repeat split; auto | discriminate]).
    + cbn in H. inv H. cbv zeta.
      split; [reflexivity | ]. split; [now apply Hnone | ].
      intros resp [= <-]. split; [reflexivity | eexists; reflexivity].
  - cbn in H. inv H. cbv zeta.
    split; [reflexivity | ]. split; [now apply Hnone | ].
    intros resp [= <-]. split; [reflexivity | eexists; reflexivity].
  - inv H. cbv zeta.
    split; [reflexivity | ]. split; [now apply Hnone | discriminate].
Qed.

Lemma post_try_consistent request rid s r s' :
  consistent (db s) ->
  post_try w messages request rid s = (r, s') ->
  consistent (db s').
Proof.
  intros Hc H. apply post_try_store in H.
  destruct H as (_ & [-> | (created & Hreq & Hprod & Hnew & Hnd & Hgt)] & _);
    [exact Hc | ].
  destruct Hc as [[Hk1 Hk2] Hrefs]. split; [split | ].
  - rewrite Hprod, map_app. apply NoDup_app; [exact Hk1 | exact Hnd | ].
    intros k Hk Hk'. apply in_map_iff in Hk, Hk'.
    destruct Hk as (q & <- & Hq). destruct Hk' as (p & E & Hp).
    specialize (Hgt p q Hp Hq). lia.
  - rewrite Hreq, map_app. apply NoDup_app; [exact Hk2 | repeat constructor; intros [] | ].
    intros k Hk [<- | []]. apply in_map_iff in Hk. destruct Hk as (x & E & Hx).
    pose proof (fresh_pk_gt request_pk _ x Hx) as Hlt. cbn [request_pk] in E. lia.
  - intros p Hp. rewrite Hprod in Hp. rewrite Hreq. apply in_app_or in Hp.
    destruct Hp as [Hp | Hp].
    + destruct (Hrefs p Hp) as (x & Hx & E). exists x.
      split; [apply in_or_app; now left | exact E].
    + rewrite Forall_forall in Hnew. destruct (Hnew p Hp) as (E & _).
      eexists. split; [apply in_or_app; right; now left | exact E].
Qed.

(** The upload view keeps the store consistent, however it ends. *)
Lemma post_consistent request s r s' :
  consistent (db s) ->
  post w messages request s = (r, s') ->
  consistent (db s').
Proof.
  intros Hc H. apply post_cases in H.
  destruct H as (s0 & r1 & s1 & (E0 & _) & Htry & Hcase).
  assert (Hc1 : consistent (db s1)).
  { eapply post_try_consistent; [ | exact Htry]. now rewrite E0. }
  destruct r1 as [[resp|]|e].
  - destruct Hcase as (_ & -> & _). exact Hc1.
  - destruct Hcase as (r2 & s2 & Hrun & (-> & _) & _).
    eapply run_consistent; [exact Hc1 | exact Hrun].
  - destruct Hcase as ((-> & _) & _). exact Hc1.
Qed.

(** *** A file the view takes as a manifest *)

Lemma first_refused {A : Type} (f : A -> bool) (made : list A) (row : A)
      (rest made' rest' : list A) :
  (made ++ row :: rest)%list = (made' ++ rest')%list ->
  forallb f made = true -> f row = false ->
  forallb f made' = true ->
  (rest' = [] \/ exists x l, rest' = x :: l /\ f x = false) ->
  made' = made /\ rest' = row :: rest.
Proof.
  revert made'. induction made as [|a made IH]; intros made' E Hm Hr Hm' Hrest.
  - destruct made' as [|b made'].
    + cbn in E. now subst rest'.
    + cbn in E. inv E. cbn in Hm'. rewrite Hr in Hm'. discriminate.
  - cbn [forallb] in Hm. apply andb_true_iff in Hm. destruct Hm as [Ha Hm].
    destruct made' as [|b made'].
    + cbn in E. subst rest'. destruct Hrest as [Hrest | (x & l & Hrest & Hx)].
      * discriminate.
      * inv Hrest. congruence.
    + cbn in E. inv E. cbn [forallb] in Hm'. apply andb_true_iff in Hm'.
      destruct Hm' as [_ Hm'].
      destruct (IH made' H1 Hm Hr Hm' Hrest) as [-> ->]. auto.
Qed.

(** The first [try] block on a file the view takes as a manifest: the
    request is created, and the rows up to the first one that the store
    does not take become its items. *)
Lemma post_try_creates request s file_obj r s' :
  admissible w request s file_obj ->
  post_try w messages request (uuid4 w) s = (r, s') ->
  let pr := created_request w (db s) in
  exists made rest created,
    manifest_rows file_obj = (made ++ rest)%list
    /\ forallb (accepted w pr) made = true
    /\ ProcessingRequest_objects (db s')
       = (ProcessingRequest_objects (db s) ++ [pr])%list
    /\ Product_objects (db s') = (Product_objects (db s) ++ created)%list
    /\ map (fun p => Some (item_of p)) created = map (manifest_item w) made
    /\ Forall (newly_created pr) created
    /\ files s' = files s
    /\ match r with
       | Ok resp => resp = None /\ rest = [] /\ manifest_error file_obj = None
       | Raise e =>
           (rest = [] /\ manifest_error file_obj = Some e)
           \/ exists row rest',
               rest = row :: rest' /\ accepted w pr row = false
               /\ (manifest_item w row = None ->
                   exn_class e = KeyError \/ exn_class e = ValueError
                   \/ exn_class e = IntegrityError)
       end.
Proof.
  intros (Hfile & Hname & Hfault & Hfresh & Hutf & Hhead) H pr.
  rewrite (post_try_accepted w messages request (uuid4 w) s file_obj
             Hfile Hname Hfault Hfresh Hutf Hhead) in H.
  cbv zeta in H. fold (created_request w (db s)) in H. fold pr in H.
  fold (manifest_rows file_obj) in H. fold (manifest_error file_obj) in H.
  unfold bind at 1 in H.
  match type of H with
  | context [create_products w ?rid pr ?rows ?err ?s1] =>
      destruct (create_products w rid pr rows err s1) as [[u|e] s2] eqn:Hc
  end; apply create_products_spec in Hc;
    destruct Hc as (made & rest & created & Hrows & Hmade & Hreq & Hprod & Hitems & Hnew
                    & _ & _ & Hfiles & Hend);
    cbn [db files ProcessingRequest_objects Product_objects] in *;
    unfold ret in H; inv H; exists made, rest, created;
    (split; [exact Hrows | ]); (split; [exact Hmade | ]); (split; [exact Hreq | ]);
    (split; [exact Hprod | ]); (split; [exact Hitems | ]); (split; [exact Hnew | ]);
    (split; [exact Hfiles | ]).
  - destruct Hend as [-> ->]. auto.
  - exact Hend.
Qed.

Lemma isinstance_row_error e :
  exn_class e = KeyError \/ exn_class e = ValueError \/ exn_class e = IntegrityError ->
  isinstance e csv_Error = false.
Proof. unfold isinstance. intros [-> | [-> | ->]]; reflexivity. Qed.

Lemma manifest_error_class file_obj e :
  manifest_error file_obj = Some e -> isinstance e csv_Error = true.
Proof.
  unfold manifest_error, csv.DictReader_rows, csv.reader. intros H.
  destruct (csv.Reader_iter _ _ _) as [[|fieldnames rows] err] eqn:Hiter;
    cbn [snd] in H; subst err;
    apply reader_error_class in Hiter; unfold isinstance; now rewrite Hiter.
Qed.

Lemma admissible_same_store request s s0 file_obj :
  db s0 = db s -> admissible w request s file_obj -> admissible w request s0 file_obj.
Proof. unfold admissible. intros ->. auto. Qed.

(** Every row of a manifest being taken and the reader ending without an
    error, the first [try] block runs to its end. *)
Lemma post_try_all_rows request s file_obj r s' :
  admissible w request s file_obj ->
  forallb (accepted w (created_request w (db s))) (manifest_rows file_obj) = true ->
  post_try w messages request (uuid4 w) s = (r, s') ->
  exists created,
    ProcessingRequest_objects (db s')
    = (ProcessingRequest_objects (db s) ++ [created_request w (db s)])%list
    /\ Product_objects (db s') = (Product_objects (db s) ++ created)%list
    /\ map (fun p => Some (item_of p)) created
       = map (manifest_item w) (manifest_rows file_obj)
    /\ Forall (newly_created (created_request w (db s))) created
    /\ files s' = files s
    /\ match r with
       | Ok resp => resp = None /\ manifest_error file_obj = None
       | Raise e => manifest_error file_obj = Some e
       end.
Proof.
  intros Hadm Hall H.
  destruct (post_try_creates request s file_obj r s' Hadm H)
    as (made & rest & created & Hrows & _ & Hreq & Hprod & Hitems & Hnew & Hfiles & Hend).
  assert (Hrest : rest = []
                  /\ match r with
                     | Ok resp => resp = None /\ manifest_error file_obj = None
                     | Raise e => manifest_error file_obj = Some e
                     end).
  { destruct r as [resp|e].
    - destruct Hend as (-> & -> & ->). auto.
    - destruct Hend as [(-> & ->) | (row & rest' & -> & Hrow & _)]; [auto | ].
      rewrite Hrows, forallb_app in Hall. apply andb_true_iff in Hall.
      destruct Hall as [_ Hall]. cbn [forallb] in Hall. rewrite Hrow in Hall.
      discriminate. }
  destruct Hrest as [-> Hr]. rewrite app_nil_r in Hrows. subst made.
  exists created. auto 10.
Qed.

(** *** The store the pipeline is run on *)

Lemma upload_store (s s1 : State) (created : list Product) :
  consistent (db s) ->
  filter_request_id (db s) (uuid4 w) = [] ->
  ProcessingRequest_objects (db s1)
  = (ProcessingRequest_objects (db s) ++ [created_request w (db s)])%list ->
  Product_objects (db s1) = (Product_objects (db s) ++ created)%list ->
  Forall (newly_created (created_request w (db s))) created ->
  filter_request_id (db s1) (uuid4 w) = [created_request w (db s)]
  /\ product_set (db s1) (created_request w (db s)) = created.
Proof.
  intros [_ Hrefs] Hfresh Hreq Hprod Hnew. split.
  - unfold filter_request_id in *. rewrite Hreq, filter_app, Hfresh. cbn.
    now rewrite String.eqb_refl.
  - unfold product_set. rewrite Hprod, filter_app.
    rewrite filter_none.
    + cbn [app]. apply forallb_filter_id. apply forallb_forall. intros p Hp.
      rewrite Forall_forall in Hnew. destruct (Hnew p Hp) as (E & _).
      rewrite E. apply Nat.eqb_refl.
    + intros p Hp. destruct (Hrefs p Hp) as (x & Hx & ->).
      apply Nat.eqb_neq. pose proof (fresh_pk_gt request_pk _ x Hx) as Hlt.
      cbn [created_request request_pk]. lia.
Qed.

Lemma created_from_rows (created : list Product) (rows : list dict) (p : Product) :
  map (fun p => Some (item_of p)) created = map (manifest_item w) rows ->
  In p created ->
  exists row, In row rows /\ manifest_item w row = Some (item_of p).
Proof.
  intros E Hp.
  assert (H : In (Some (item_of p)) (map (manifest_item w) rows)).
  { rewrite <- E. apply in_map_iff. now exists p. }
  apply in_map_iff in H. destruct H as (row & Hrow & Hin). now exists row.
Qed.

Lemma rows_to_created (created : list Product) (rows : list dict) (row : dict)
      (it : Z * string * string) :
  map (fun p => Some (item_of p)) created = map (manifest_item w) rows ->
  In row rows -> manifest_item w row = Some it ->
  exists p, In p created /\ item_of p = it.
Proof.
  intros E Hrow Hit.
  assert (H : In (Some it) (map (fun p => Some (item_of p)) created)).
  { rewrite E, <- Hit. now apply in_map. }
  apply in_map_iff in H. destruct H as (p & [= Hp] & Hin). now exists p.
Qed.

Lemma row_passes_accepted (d : DB) (row : dict) :
  (forall op, db_fault w op = None) ->
  row_passes w d row = true -> accepted w (created_request w d) row = true.
Proof.
  unfold row_passes, accepted. intros Hdb.
  destruct (manifest_item w row) as [[[n nm] urls]|]; [ | discriminate].
  now rewrite Hdb.
Qed.

Lemma row_settles_accepted (d : DB) (row : dict) :
  (forall op, db_fault w op = None) ->
  row_settles w d row = true -> accepted w (created_request w d) row = true.
Proof.
  unfold row_settles, accepted. intros Hdb.
  destruct (manifest_item w row) as [[[n nm] urls]|]; [ | discriminate].
  now rewrite Hdb.
Qed.

(** The upload view on a manifest it takes, every row of which the store
    takes: the pipeline is run on the store with the request and the items
    of the manifest, and its outcome decides the answer. *)
Lemma post_runs_pipeline request s file_obj r s' :
  consistent (db s) ->
  admissible w request s file_obj ->
  forallb (accepted w (created_request w (db s))) (manifest_rows file_obj) = true ->
  manifest_error file_obj = None ->
  post w messages request s = (r, s') ->
  exists created s1 r2 s2,
    map (fun p => Some (item_of p)) created
    = map (manifest_item w) (manifest_rows file_obj)
    /\ Forall (newly_created (created_request w (db s))) created
    /\ consistent (db s1)
    /\ filter_request_id (db s1) (uuid4 w) = [created_request w (db s)]
    /\ product_set (db s1) (created_request w (db s)) = created
    /\ run w (uuid4 w) s1 = (r2, s2)
    /\ same_effects s' s2
    /\ r = Ok (if is_ok r2 then accepted_response w
               else ErrorAPIResponse (IMAGE_PROCESSING_EXCEPTION messages)
                                     (Some HTTP_400_BAD_REQUEST)).
Proof.
  intros Hc Hadm Hall Herr H. apply post_cases in H.
  destruct H as (s0 & r1 & s1 & (E0 & _) & Htry & Hcase).
  apply (admissible_same_store request s s0 file_obj E0) in Hadm.
  rewrite <- E0 in Hall, Hc.
  pose proof (post_try_consistent request (uuid4 w) s0 r1 s1 Hc Htry) as Hc1.
  destruct (post_try_all_rows request s0 file_obj r1 s1 Hadm Hall Htry)
    as (created & Hreq & Hprod & Hitems & Hnew & _ & Hend).
  destruct r1 as [resp|e]; [ | congruence]. destruct Hend as [-> _].
  destruct Hcase as (r2 & s2 & Hrun & Hsame & ->).
  destruct Hadm as (_ & _ & _ & Hfresh & _).
  destruct (upload_store s0 s1 created Hc Hfresh Hreq Hprod Hnew) as [Hget Hset].
  rewrite E0 in *.
  exists created, s1, r2, s2. auto 10.
Qed.

(** *** The summary file read as a manifest *)

Lemma fieldnames_within : fields_within csv.field_size_limit fieldnames.
Proof.
  unfold fields_within, fieldnames.
  repeat (apply Forall_cons || apply Forall_nil); apply Nat.leb_le; vm_compute;
    reflexivity.
Qed.

Lemma summary_rows (items : list Product) :
  Forall (fun p => fields_within csv.field_size_limit (summary_fields p)) items ->
  csv.DictReader_fieldnames csv.field_size_limit
    (csv.StringIO (file_text (fieldnames :: map summary_fields items)))
  = Ok (Some fieldnames)
  /\ csv.DictReader_rows csv.field_size_limit
       (csv.StringIO (file_text (fieldnames :: map summary_fields items)))
     = (map summary_dict items, None).
Proof.
  intros Hitems.
  assert (Hread := summary_read_back csv.field_size_limit items fieldnames_within Hitems).
  split.
  - unfold csv.DictReader_fieldnames. now rewrite Hread.
  - unfold csv.DictReader_rows. rewrite Hread. f_equal.
    clear. induction items as [|p items IH]; [reflexivity | ].
    simpl. f_equal. exact IH.
Qed.

Lemma manifest_item_summary (p : Product) :
  int_of_str w (str_int (serial_number p)) = Some (serial_number p) ->
  manifest_item w (summary_dict p) = Some (item_of p).
Proof.
  intros H. unfold manifest_item, summary_dict. cbn [dict_get].
  cbn. rewrite H. reflexivity.
Qed.

End UploadFacts.

End upload_facts.

(* ================================================================= *)
(** ** The properties of the specification *)

Import ImageProcessingTask props task_facts.

(** C2. An item with an input URL whose fetch fails is fatal. Processing the
    item raises without saving it, and no URL after the failing one is
    fetched; the batch raises, the row of the item and the rows of the items
    after it are what they were (their [processed] flags are not set), the
    table of requests is what it was (the [completed] flag is not set), and
    every item saved before the failure is in the store as it was saved. *)
Theorem fetch_failure_is_fatal
        (w : World) (self : Task) (s : State) (p : Product)
        (before : list string) (u : string) (after : list string) :
  keys_unique (db s) ->
  In p (product_set (db s) (processing_request self)) ->
  split COMMA (input_image_urls p) = (before ++ u :: after)%list ->
  fetch_fails w u = true ->
  (forall filename output_data s0,
      exists e s1 tr pre,
        process_product w self p filename output_data s0 = (Raise e, s1)
        /\ db s1 = db s0
        /\ trace s1 = (tr ++ trace s0)%list
        /\ saved_products tr = []
        /\ (before ++ [u])%list = (fetched tr ++ pre)%list)
  /\ exists e s' tr,
      process_images w self s = (Raise e, s')
      /\ trace s' = (tr ++ trace s)%list
      /\ ProcessingRequest_objects (db s') = ProcessingRequest_objects (db s)
      /\ find_product (db s') (product_pk p) = Some p
      /\ (forall l1 l2,
             product_set (db s) (processing_request self) = (l1 ++ p :: l2)%list ->
             forall q, In q l2 -> find_product (db s') (product_pk q) = Some q)
      /\ (forall q, In q (saved_products tr) ->
                    find_product (db s') (product_pk q) = Some q).
Proof.
  intros Hkeys Hp Hsplit Hu. split.
  - intros filename output_data s0.
    destruct (for_urls_stops w self before u after Hu filename [] s0)
      as (e & s1 & tr & pre & H & Hdb & Htr & Hq & Hpre).
    exists e, s1, tr, pre. unfold process_product, bind. rewrite Hsplit, H.
    repeat split; auto. now apply quiet_saved_products.
  - apply process_images_fetch_failure; auto.
    apply not_fetchable. exists u. split; [ | exact Hu].
    rewrite Hsplit. apply in_elt.
Qed.

(** C9. An item whose [input_image_urls] is the empty string has the one
    URL [""]: the split of a string is never the empty list. Processing it
    makes exactly one fetch, of the empty URL, which fails; the item is not
    saved, the batch raises, and neither its row nor the table of requests
    changes. *)
Theorem empty_url_field_is_fatal
        (w : World) (self : Task) (s : State) (p : Product) :
  keys_unique (db s) ->
  In p (product_set (db s) (processing_request self)) ->
  input_image_urls p = EmptyString ->
  split COMMA (input_image_urls p) = [EmptyString]
  /\ (forall t, split COMMA t <> [])
  /\ fetch_fails w EmptyString = true
  /\ (forall filename output_data s0,
         exists msg s1,
           process_product w self p filename output_data s0
           = (Raise (Exn ValueError msg), s1)
           /\ db s1 = db s0
           /\ trace s1 = HttpGet EmptyString :: trace s0)
  /\ exists e s',
      process_images w self s = (Raise e, s')
      /\ find_product (db s') (product_pk p) = Some p
      /\ ProcessingRequest_objects (db s') = ProcessingRequest_objects (db s).
Proof.
  intros Hkeys Hp Hurls.
  assert (Hsplit : split COMMA (input_image_urls p) = [EmptyString])
    by (now rewrite Hurls).
  assert (Hfail : fetch_fails w EmptyString = true) by reflexivity.
  split; [exact Hsplit | ]. split.
  { intros t. destruct t as [|c t]; simpl; [discriminate | ].
    destruct (Ascii.eqb c COMMA); [discriminate | ].
    destruct (split COMMA t); discriminate. }
  split; [exact Hfail | ]. split.
  - intros filename output_data s0.
    destruct (process_url_fetch_fails w self EmptyString filename [] s0 Hfail)
      as (msg & s1 & H & Hdb & _ & Htr).
    exists msg, s1. unfold process_product, bind. rewrite Hsplit.
    cbn [for_urls]. unfold bind. rewrite H. auto.
  - destruct (process_images_fetch_failure w self s p Hkeys Hp)
      as (e & s' & tr & H & _ & Hreqs & Hrow & _).
    { apply not_fetchable. exists EmptyString. rewrite Hsplit. split; [now left | exact Hfail]. }
    exists e, s'. auto.
Qed.

(** C4. The items of a job are processed in the order of the store, which
    is the order of the manifest: the items saved by a run are a prefix
    [done] of the items of the job, all of them when the run ends normally,
    saved in that order. Each is saved with [processed] set and with one
    output for each input URL that is fetched and transcoded, in the order
    of the input URLs: no more outputs than inputs, and as many when every
    input is fetched and transcoded, in which case, the files being
    written, the loop over the URLs does give them all. *)
Theorem outputs_follow_inputs
        (w : World) (self : Task) (s : State) (r : result unit) (s' : State) :
  keys_unique (db s) ->
  process_images w self s = (r, s') ->
  exists done rest tr,
    product_set (db s) (processing_request self) = (done ++ rest)%list
    /\ trace s' = (tr ++ trace s)%list
    /\ saved_products tr = map (processed_row w) done
    /\ (r = Ok tt -> rest = [])
    /\ forall p, In p done ->
         let input_urls := split COMMA (input_image_urls p) in
         find_product (db s') (product_pk p) = Some (processed_row w p)
         /\ processed (processed_row w p) = true
         /\ output_image_urls (processed_row w p)
            = join "," (map (image_url w) (filter (transcodes w) input_urls))
         /\ (forall filename s0 fn outs s1,
                for_urls w self input_urls filename [] s0 = (Ok (fn, outs), s1) ->
                outs = map (image_url w) (filter (transcodes w) input_urls))
         /\ List.length (outputs_due w input_urls) <= List.length input_urls
         /\ ((forall url, In url input_urls ->
                          transcodes w url = true
                          /\ open_wb w (file_path self url) = None) ->
             List.length (outputs_due w input_urls) = List.length input_urls
             /\ forall filename s0,
                 exists fn s1,
                   for_urls w self input_urls filename [] s0
                   = (Ok (fn, map (image_url w) input_urls), s1)).
Proof.
  intros [Hkeys _] H.
  apply process_images_spec in H. cbv zeta in H.
  destruct H as (done & rest & tr1 & tr2 & Hps & Htr & Hsaved & _ & _ & Hcase).
  set (ps := product_set (db s) (processing_request self)) in *.
  assert (Hpsnd : NoDup (map product_pk ps)) by (now apply NoDup_map_filter).
  assert (Hincl : incl done (Product_objects (db s))).
  { intros y Hy. assert (Hy' : In y ps) by (rewrite Hps; apply in_or_app; now left).
    apply filter_In in Hy'. tauto. }
  destruct (save_all_spec w done (db s)) as [_ Hprods]; auto.
  { rewrite Hps in Hpsnd. now apply NoDup_map_app_l in Hpsnd. }
  assert (Hfinal : Product_objects (db s') = Product_objects (save_all w done (db s))
                   /\ saved_products tr2 = [] /\ (r = Ok tt -> rest = [])).
  { destruct Hcase as [([e ->] & -> & Hq) | (-> & stored & _ & [([e ->] & -> & ->) | (-> & -> & ->)])];
      repeat split; auto; try discriminate.
    now apply quiet_saved_products. }
  destruct Hfinal as (Hfinal & Hsaved2 & Hok).
  exists done, rest, (tr2 ++ tr1)%list.
  split; [exact Hps | ]. split; [now rewrite Htr, app_assoc | ].
  split; [now rewrite saved_products_app, Hsaved, Hsaved2, app_nil_r | ].
  split; [exact Hok | ].
  intros p Hp input_urls. split.
  { unfold find_product. rewrite Hfinal, Hprods.
    rewrite find_mark by apply processed_row_key.
    replace (existsb (Nat.eqb (product_pk p)) (map product_pk done)) with true.
    - rewrite find_key_In; [reflexivity | exact Hkeys | now apply Hincl].
    - symmetry. apply existsb_exists. exists (product_pk p).
      split; [now apply in_map | apply Nat.eqb_refl]. }
  split; [reflexivity | ]. split; [reflexivity | ]. split.
  { intros filename s0 fn outs s1 Hrun.
    apply for_urls_spec in Hrun. destruct Hrun as (_ & _ & _ & ->). reflexivity. }
  split.
  { unfold outputs_due. rewrite length_map. apply filter_length_le. }
  intros Hall. split.
  - unfold outputs_due. rewrite length_map. f_equal.
    apply forallb_filter_id. apply forallb_forall. intros url Hurl. now apply Hall.
  - intros filename s0.
    destruct (for_urls_total w self input_urls filename [] s0 Hall) as (fn & s1 & Hrun).
    exists fn, s1. exact Hrun.
Qed.

(** C3. Through a run of a job the [completed] flag is false until every
    item of the job is marked processed and the summary file has been
    stored and recorded: of the writes of the run only the last can leave
    the job completed, and it does so after the file was stored and the
    request saved with it, when all the items are processed. A flag that is
    true stays true, at every write of the run and at its end. *)
Theorem completed_only_at_the_end
        (w : World) (rid : string) (s : State) (r : result unit) (s' : State) :
  keys_unique (db s) ->
  run w rid s = (r, s') ->
  exists tr,
    trace s' = (tr ++ trace s)%list
    /\ (completed_in (db s) rid = true ->
        completed_in (db s') rid = true
        /\ forall e d, In e tr -> snapshot e = Some d -> completed_in d rid = true)
    /\ (completed_in (db s) rid = false ->
        (forall e d, In e tr -> snapshot e = Some d -> completed_in d rid = true ->
                     d = db s' /\ exists tr', tr = e :: tr')
        /\ (completed_in (db s') rid = true ->
            r = Ok tt
            /\ all_processed (db s') rid = true
            /\ has_result_file (db s') rid = true
            /\ exists r2 r1 d1 stored text tr0,
                tr = RequestSaved r2 (db s') :: RequestSaved r1 d1
                       :: Stored stored text :: tr0
                /\ completed r2 = true
                /\ result_file r2 = Some stored
                /\ In (stored, text) (files s')
                /\ completed_in d1 rid = false
                /\ all_processed d1 rid = true)).
Proof.
  intros Hkeys Hrun. apply run_spec in Hrun.
  destruct Hrun as [(Hdb & Htr & _ & _ & _) | (r0 & s1 & r1 & s2 & Hf & Hd1 & Ht1 & Hf1 & Hp & Hd2 & Ht2 & Hf2 & Hr)].
  { exists []. split; [exact Htr | ]. rewrite Hdb. split.
    - intros E. split; [exact E | intros e d []].
    - intros E. split; [intros e d [] | congruence]. }
  apply process_images_spec in Hp. cbv zeta in Hp. simpl processing_request in Hp.
  destruct Hp as (done & rest & tr1 & tr2 & Hps & Htr & _ & Hloop & _ & Hcase).
  rewrite Hd1 in *.
  assert (Hc0 : completed_in (db s) rid = completed r0).
  { unfold completed_in. rewrite Hf. simpl. apply orb_false_r. }
  assert (Hloop' : forall e d, In e tr1 -> snapshot e = Some d ->
                               completed_in d rid = completed_in (db s) rid).
  { intros e d He Hsnap. rewrite Forall_forall in Hloop. specialize (Hloop e He).
    apply completed_in_requests. destruct e; simpl in *; try discriminate; try contradiction.
    inv Hsnap. exact Hloop. }
  assert (Hquiet : forall tr0 e d, Forall (fun e => snapshot e = None) tr0 ->
                                   In e tr0 -> snapshot e = Some d -> False).
  { intros tr0 e d Hq He Hsnap. rewrite Forall_forall in Hq.
    rewrite (Hq e He) in Hsnap. discriminate. }
  exists (tr2 ++ tr1)%list.
  split; [rewrite Ht2, Htr, Ht1; now rewrite app_assoc | ].
  rewrite Hd2.
  destruct Hcase as [([e ->] & Hdb & Hq) | (-> & stored & Hfile & Hcase)].
  - (* the run stopped before the request was saved *)
    assert (Hc : completed_in (db s2) rid = completed_in (db s) rid).
    { apply completed_in_requests. rewrite Hdb. apply save_all_requests. }
    rewrite Hc. split.
    + intros E. split; [exact E | ]. intros e0 d He Hsnap.
      apply in_app_or in He. destruct He as [He | He].
      * exfalso. eapply Hquiet; eauto.
      * rewrite (Hloop' e0 d He Hsnap). exact E.
    + intros E. split; [ | congruence]. intros e0 d He Hsnap Hd.
      apply in_app_or in He. destruct He as [He | He].
      * exfalso. eapply Hquiet; eauto.
      * rewrite (Hloop' e0 d He Hsnap) in Hd. congruence.
  - rewrite app_nil_r in Hps. subst done.
    destruct (finish_facts w (db s) rid stored r0 Hkeys Hf) as (HD1 & HD2 & HP1 & HP2).
    cbv zeta in HD1, HD2, HP1, HP2.
    set (ps := product_set (db s) r0) in *.
    set (D0 := save_all w ps (db s)) in *.
    set (q1 := set_result_file r0 stored) in *.
    set (D1 := save_request q1 D0) in *.
    set (q2 := set_completed q1 true) in *.
    set (D2 := save_request q2 D1) in *.
    assert (Hc1 : completed_in D1 rid = completed r0).
    { unfold completed_in. rewrite HD1. simpl. apply orb_false_r. }
    assert (Hc2 : completed_in D2 rid = true).
    { unfold completed_in. rewrite HD2. reflexivity. }
    assert (Ha1 : all_processed D1 rid = true).
    { unfold all_processed. rewrite HD1. simpl. rewrite HP1, forallb_processed. reflexivity. }
    assert (Ha2 : all_processed D2 rid = true).
    { unfold all_processed. rewrite HD2. simpl. rewrite HP2, forallb_processed. reflexivity. }
    destruct Hcase as [([e ->] & Hdb & ->) | (-> & Hdb & ->)]; rewrite Hdb.
    + (* saved with its file, not completed *)
      rewrite Hc1, <- Hc0. split.
      * intros E. split; [exact E | ]. intros e0 d He Hsnap.
        destruct He as [<- | [<- | He]]; simpl in Hsnap; try discriminate.
        -- inv Hsnap. now rewrite Hc1, <- Hc0.
        -- rewrite (Hloop' e0 d He Hsnap). exact E.
      * intros E. split; [ | congruence]. intros e0 d He Hsnap Hd.
        destruct He as [<- | [<- | He]]; simpl in Hsnap; try discriminate.
        -- inv Hsnap. rewrite Hc1, <- Hc0 in Hd. congruence.
        -- rewrite (Hloop' e0 d He Hsnap) in Hd. congruence.
    + (* completed *)
      rewrite Hc2. split.
      * intros E. split; [reflexivity | ]. intros e0 d He Hsnap.
        destruct He as [<- | [<- | [<- | He]]]; simpl in Hsnap; try discriminate.
        -- now inv Hsnap.
        -- inv Hsnap. now rewrite Hc1, <- Hc0.
        -- rewrite (Hloop' e0 d He Hsnap). exact E.
      * intros E. split.
        -- intros e0 d He Hsnap Hd.
           destruct He as [<- | [<- | [<- | He]]]; simpl in Hsnap; try discriminate.
           ++ inv Hsnap. split; [reflexivity | simpl; eauto].
           ++ inv Hsnap. rewrite Hc1, <- Hc0 in Hd. congruence.
           ++ rewrite (Hloop' e0 d He Hsnap) in Hd. congruence.
        -- intros _. split; [exact Hr | ]. split; [exact Ha2 | ]. split.
           { unfold has_result_file. rewrite HD2. reflexivity. }
           exists q2, q1, D1, stored,
             (file_text (fieldnames :: map summary_fields (map (processed_row w) ps))),
             tr1.
           split; [reflexivity | ]. split; [reflexivity | ]. split; [reflexivity | ].
           split; [ | split; [rewrite Hc1, <- Hc0; exact E | exact Ha1]].
           rewrite Hf2. exact Hfile.
Qed.

(** C5. The summary file of a run that ends normally is the header record
    of the four fields Serial Number, Product Name, Input Image Urls and
    Output Image Urls (separated by commas, no blank after them), followed
    by one record for each item of the job, in the order they were
    processed, each made of the serial number, the name, the input URLs as
    they are stored and the output URLs joined by commas. Reading the file
    back with a field size limit that no field exceeds gives the header and
    these records, field for field, and by column name the same values;
    the text of a serial number is read back as the number. *)
Theorem summary_round_trip
        (w : World) (self : Task) (s s' : State) (limit : nat) :
  keys_unique (db s) ->
  process_images w self s = (Ok tt, s') ->
  fields_within limit fieldnames ->
  Forall (fun p => fields_within limit (summary_fields p))
         (map (processed_row w) (product_set (db s) (processing_request self))) ->
  exists stored text body request,
    let items := map (processed_row w) (product_set (db s) (processing_request self)) in
    In (stored, text) (files s')
    /\ In request (ProcessingRequest_objects (db s'))
    /\ request_pk request = request_pk (processing_request self)
    /\ result_file request = Some stored
    /\ product_set (db s') (processing_request self) = items
    /\ csv_file (map output_row items) = Ok text
    /\ text = "Serial Number,Product Name,Input Image Urls,Output Image Urls"
              ++ csv.lineterminator ++ body
    /\ csv.reader limit (csv.StringIO text) = (fieldnames :: map summary_fields items, None)
    /\ csv.DictReader_fieldnames limit (csv.StringIO text) = Ok (Some fieldnames)
    /\ csv.DictReader_rows limit (csv.StringIO text) = (map summary_dict items, None)
    /\ forall p, In p items ->
         option_map Z.of_int (NilEmpty.int_of_string (nth 0 (summary_fields p) EmptyString))
         = Some (serial_number p).
Proof.
  intros [Hkeys _] H Hh Hitems.
  apply process_images_spec in H. cbv zeta in H.
  destruct H as (done & rest & tr1 & tr2 & Hps & _ & _ & _ & _ & Hcase).
  destruct Hcase as [([e He] & _) | (-> & stored & Hfile & Hcase)]; [discriminate | ].
  destruct Hcase as [([e He] & _) | (_ & Hdb & _)]; [discriminate | ].
  rewrite app_nil_r in Hps. subst done.
  set (ps := product_set (db s) (processing_request self)) in *.
  set (items := map (processed_row w) ps) in *.
  assert (Hread := summary_read_back limit items Hh Hitems).
  exists stored, (file_text (fieldnames :: map summary_fields items)),
    (file_text (map summary_fields items)),
    (set_completed (set_result_file (processing_request self) stored) true).
  cbv zeta. split; [exact Hfile | ]. split.
  { rewrite Hdb. simpl. apply In_upsert. }
  split; [reflexivity | ]. split; [reflexivity | ]. split.
  { unfold product_set at 1. rewrite Hdb. simpl.
    destruct (save_all_spec w ps (db s)) as [_ Hprods]; auto.
    - intros y Hy. apply filter_In in Hy. tauto.
    - now apply NoDup_map_filter.
    - rewrite Hprods. apply product_set_mark. }
  split; [apply csv_file_rows | ]. split; [reflexivity | ].
  split; [exact Hread | ]. split.
  { unfold csv.DictReader_fieldnames. now rewrite Hread. }
  split.
  { unfold csv.DictReader_rows. rewrite Hread. f_equal.
    clear. induction items as [|p items IH]; [reflexivity | ].
    simpl. f_equal. exact IH. }
  intros p _. simpl. unfold str_int. rewrite NilEmpty.isi. simpl.
  now rewrite DecimalZ.of_to.
Qed.

(** C10. The upload view creates the request before it looks at the header
    of the file. For an upload whose file has no record, or whose first
    record cannot be read, or lacks a required column, the view answers with
    an error response of status 400, and the store has gained the request,
    not completed and without a result file, and no item: none was created,
    and none of the store belongs to it. *)
Theorem upload_keeps_request_on_invalid_header
        (w : World) (messages : views.Messages) (request : views.Request)
        (s : State) (file_obj : views.UploadedFile) :
  views.lookup (views.FILES request) "file" = Some file_obj ->
  endswith (views.file_name file_obj) ".csv" = true ->
  db_fault w (CreateRequest (uuid4 w)) = None ->
  filter_request_id (db s) (uuid4 w) = [] ->
  utf8_valid w (views.file_bytes file_obj) = true ->
  header_rejected (views.file_bytes file_obj) = true ->
  references_valid (db s) ->
  exists message s',
    let created :=
      mkProcessingRequest (fresh_pk request_pk (ProcessingRequest_objects (db s)))
                          (uuid4 w) (now w) false None in
    views.post w messages request s
    = (Ok (ErrorAPIResponse message (Some HTTP_400_BAD_REQUEST)), s')
    /\ ProcessingRequest_objects (db s')
       = (ProcessingRequest_objects (db s) ++ [created])%list
    /\ Product_objects (db s') = Product_objects (db s)
    /\ filter_request_id (db s') (uuid4 w) = [created]
    /\ product_set (db s') created = [].
Proof.
  intros Hfile Hname Hfault Hfresh Hutf Hrej Hrefs.
  set (created := mkProcessingRequest
                    (fresh_pk request_pk (ProcessingRequest_objects (db s)))
                    (uuid4 w) (now w) false None).
  assert (Hstore : forall s',
             db s' = mkDB (ProcessingRequest_objects (db s) ++ [created])%list
                          (Product_objects (db s)) ->
             ProcessingRequest_objects (db s')
             = (ProcessingRequest_objects (db s) ++ [created])%list
             /\ Product_objects (db s') = Product_objects (db s)
             /\ filter_request_id (db s') (uuid4 w) = [created]
             /\ product_set (db s') created = []).
  { intros s' ->. split; [reflexivity | ]. split; [reflexivity | ]. split.
    - unfold filter_request_id in *. simpl. rewrite filter_app, Hfresh. simpl.
      now rewrite String.eqb_refl.
    - unfold product_set. simpl.
      apply filter_none. intros p Hp.
      destruct (Hrefs p Hp) as (r & Hr & ->).
      apply Nat.eqb_neq.
      pose proof (fresh_pk_gt request_pk _ r Hr). lia. }
  unfold header_rejected in Hrej.
  unfold views.post, bind, try_except, views.post_try.
  rewrite Hfile, Hname. cbn [negb]. unfold bind, ProcessingRequest_create.
  cbn [logger_info logger db fst snd]. rewrite Hfault, Hfresh.
  cbn [logger_info logger lift db files trace log]. rewrite Hutf. unfold ret at 1. cbv beta iota.
  destruct (csv.DictReader_fieldnames csv.field_size_limit
              (csv.StringIO (views.file_bytes file_obj)))
    as [[fieldnames|]|e] eqn:Hread.
  - apply negb_true_iff in Hrej.
    destruct (missing_columns_nonempty fieldnames Hrej) as (col & cols & Hmiss).
    rewrite Hmiss. cbn. eexists _, _. split; [reflexivity | ]. now apply Hstore.
  - cbn. eexists _, _. split; [reflexivity | ]. now apply Hstore.
  - assert (Hcls : isinstance e csv_Error = true).
    { unfold csv.DictReader_fieldnames, csv.reader in Hread.
      destruct (csv.Reader_iter _ _ _) as [[|row rows] [e'|]] eqn:Hiter; inv Hread.
      apply reader_error_class in Hiter. unfold isinstance. now rewrite Hiter. }
    cbn. rewrite Hcls. cbn. eexists _, _. split; [reflexivity | ]. now apply Hstore.
Qed.

(** Bytes that are not UTF-8 are another matter: the handler that catches
    the decoding error builds a [Response] with a keyword it does not take,
    and the view raises; the request has been stored all the same. *)
Lemma upload_of_undecodable_bytes_raises :
  forall (w : World) (messages : views.Messages) (request : views.Request)
         (s : State) (file_obj : views.UploadedFile),
    views.lookup (views.FILES request) "file" = Some file_obj ->
    endswith (views.file_name file_obj) ".csv" = true ->
    db_fault w (CreateRequest (uuid4 w)) = None ->
    filter_request_id (db s) (uuid4 w) = [] ->
    utf8_valid w (views.file_bytes file_obj) = false ->
    exists msg s',
      views.post w messages request s = (Raise (Exn TypeError msg), s')
      /\ filter_request_id (db s') (uuid4 w)
         = [mkProcessingRequest (fresh_pk request_pk (ProcessingRequest_objects (db s)))
                                (uuid4 w) (now w) false None].
Proof.
  intros w messages request s file_obj Hfile Hname Hfault Hfresh Hutf.
  unfold views.post, bind, try_except, views.post_try.
  rewrite Hfile, Hname. cbn [negb]. unfold bind, ProcessingRequest_create.
  cbn [logger_info logger db fst snd]. rewrite Hfault, Hfresh.
  cbn [logger_info logger lift db files trace log]. rewrite Hutf. cbn.
  eexists _, _. split; [reflexivity | ].
  unfold filter_request_id in *. simpl. rewrite filter_app, Hfresh. simpl.
  now rewrite String.eqb_refl.
Qed.

(** C1 (the code does not do this). A URL that is fetched and whose bytes
    are not an image is not skipped: [Image.open] raises
    [UnidentifiedImageError], an [OSError], which the handler written for
    the file catches. For a single such URL the handler reads [filename]
    before any assignment and [process_images] raises [UnboundLocalError];
    when it is the second of three URLs the handler raises [ValueError].
    Either way the item is not saved: no output list, [processed] false. *)
Theorem undecodable_image_is_not_skipped :
  requests_get example.world "http://x/bad.png" = Ok "bytes of http://x/bad.png"
  /\ Image_open example.world "bytes of http://x/bad.png"
     = Raise (Exn UnidentifiedImageError "cannot identify image file")
  /\ isinstance (Exn UnidentifiedImageError "cannot identify image file") IOError = true
  /\ (exists msg s',
         process_images example.world example.task example.undecodable
         = (Raise (Exn UnboundLocalError msg), s')
         /\ db s' = db example.undecodable
         /\ saved_products (trace s') = [])
  /\ (exists s',
         process_images example.world example.task example.second_undecodable
         = (Raise (Exn ValueError
                       "Failed to save image to file compressed_a.jpg: cannot identify image file"),
            s')
         /\ db s' = db example.second_undecodable
         /\ saved_products (trace s') = []).
Proof.
  split; [reflexivity | ]. split; [reflexivity | ]. split; [reflexivity | ].
  split.
  - eexists _, _. split; [vm_compute; reflexivity | ]. split; reflexivity.
  - eexists. split; [vm_compute; reflexivity | ]. split; reflexivity.
Qed.

(** C8, as the code has it. [run] catches [ValueError], logs it and returns:
    no [ValueError] leaves it. That is how the pipeline reports an
    identifier the store does not know, a fetch that fails, an image file
    that cannot be written, a summary file that cannot be made and a request
    that cannot be marked completed. An exception of another class goes
    through [run] to its caller. *)
Theorem run_catches_value_errors
        (w : World) (rid : string) (s : State) (r : result unit) (s' : State) :
  run w rid s = (r, s') ->
  (forall e, r = Raise e -> isinstance e ValueError = false)
  /\ (filter_request_id (db s) rid = [] ->
      r = Ok tt
      /\ exists msg rest,
          log s' = (ERROR, "Error processing request ID " ++ rid ++ ": " ++ msg) :: rest)
  /\ ((db s' = db s /\ trace s' = trace s)
      \/ exists r0 s1 r1 s2,
          filter_request_id (db s) rid = [r0]
          /\ db s1 = db s
          /\ process_images
               w (mkTask rid r0 (path_join (MEDIA_ROOT w) ["processed_images"])) s1
             = (r1, s2)
          /\ db s' = db s2
          /\ match r1 with
             | Ok _ => r = Ok tt
             | Raise e => r = if isinstance e ValueError then Ok tt else Raise e
             end)
  /\ (forall self url filename output_urls s0,
         fetch_fails w url = true ->
         exists msg s1,
           process_url w self url filename output_urls s0
           = (Raise (Exn ValueError msg), s1))
  /\ (forall self url filename output_urls s0 msg,
         transcodes w url = true ->
         open_wb w (file_path self url) = Some msg ->
         exists msg' s1,
           process_url w self url filename output_urls s0
           = (Raise (Exn ValueError msg'), s1))
  /\ (forall self output_data s0 e s1,
         generate_csv w self output_data s0 = (Raise e, s1) ->
         exn_class e = ValueError)
  /\ (forall self s0 e s1,
         complete_request w self s0 = (Raise e, s1) -> exn_class e = ValueError).
Proof.
  intros Hrun. split; [ | split; [ | split; [ | split; [ | split; [ | split]]]]].
  - apply run_spec in Hrun.
    destruct Hrun as [(_ & _ & _ & _ & Hv) | (r0 & s1 & r1 & s2 & _ & _ & _ & _ & _ & _ & _ & _ & Hr)];
      [exact Hv | ].
    intros e ->. destruct r1 as [u|e1]; [discriminate | ].
    destruct (isinstance e1 ValueError) eqn:Hv; [discriminate | ]. now inv Hr.
  - intros Hf. destruct (run_unknown_request w rid s Hf) as (msg & s'' & H & _ & Hlog).
    rewrite H in Hrun. inv Hrun. split; [reflexivity | eauto].
  - apply run_spec in Hrun.
    destruct Hrun as [(Hdb & Htr & _) | (r0 & s1 & r1 & s2 & Hf & Hd1 & _ & _ & Hp & Hd2 & _ & _ & Hr)].
    + left. auto.
    + right. exists r0, s1, r1, s2. auto.
  - intros self url filename output_urls s0 Hu.
    destruct (process_url_fetch_fails w self url filename output_urls s0 Hu)
      as (msg & s1 & H & _). eauto.
  - intros self url filename output_urls s0 msg Ht Hw.
    destruct (process_url_write_fails w self url filename output_urls s0 msg Ht Hw)
      as (s1 & H & _). eauto.
  - intros self output_data s0 e s1. apply generate_csv_raises.
  - intros self s0 e s1. apply complete_request_raises.
Qed.

(** C8, as it is stated, fails: a record store that refuses to save an item
    makes [run] raise. *)
Lemma run_does_not_always_return :
  ~ (forall (w : World) (rid : string) (s : State), is_ok (fst (run w rid s)) = true).
Proof.
  intros H. specialize (H example.world_store_down "job-1" example.sound).
  vm_compute in H. discriminate H.
Qed.

(** The image that cannot be opened (C1) also takes [run] down with it. *)
Lemma undecodable_image_escapes_run :
  exists msg s',
    run example.world "job-1" example.undecodable
    = (Raise (Exn UnboundLocalError msg), s').
Proof. eexists _, _. vm_compute. reflexivity. Qed.

(** C6 (the code does not do this). The serializer declares [products] and
    leaves it out of [Meta.fields]: taking its [data] raises for every
    request, and the view answers the query for a job that exists, here one
    whose items are processed, with its error response and no field of the
    job or of its items. *)
Theorem status_query_of_existing_job_fails :
  (forall (w : World) (instance : ProcessingRequest),
      exists msg,
        serializers.serializer_data w instance = Raise (Exn AssertionError msg))
  /\ completed_in (db example.processed_store) "job-1" = true
  /\ fst (views.get example.world example.messages
                    (example.status_query "job-1") example.processed_store)
     = Ok (ErrorAPIResponse "The status could not be read." None)
  /\ ErrorAPIResponse "The status could not be read." None
     = mkResponse [("error", Str "The status could not be read.")] None.
Proof.
  split; [intros w instance; eexists; reflexivity | ].
  split; [vm_compute; reflexivity | ].
  split; [vm_compute; reflexivity | reflexivity].
Qed.

(** C7 (the code does not do this). The query for an identifier the store
    does not know is answered with the response of the catch-all handler,
    built without a status and so sent as 200, not 404: [Http404] is caught
    inside the view. It is the response a job that exists gets. *)
Theorem unknown_request_is_not_reported_as_not_found :
  filter_request_id (db example.processed_store) "no-such-job" = []
  /\ fst (views.get example.world example.messages
                    (example.status_query "no-such-job") example.processed_store)
     = Ok (ErrorAPIResponse "The status could not be read." None)
  /\ status_code (ErrorAPIResponse "The status could not be read." None) = HTTP_200_OK
  /\ HTTP_200_OK <> HTTP_404_NOT_FOUND
  /\ fst (views.get example.world example.messages
                    (example.status_query "no-such-job") example.processed_store)
     = fst (views.get example.world example.messages
                      (example.status_query "job-1") example.processed_store).
Proof.
  split; [vm_compute; reflexivity | ].
  split; [vm_compute; reflexivity | ].
  split; [reflexivity | ]. split; [discriminate | ].
  vm_compute. reflexivity.
Qed.

(** *** Witnesses *)

Lemma fetch_failure_is_fatal_witness :
  exists e s',
    process_images example.world example.task example.second_unfetchable = (Raise e, s')
    /\ find_product (db s') 2
       = Some (example.item 2 2 "Gadget" "http://x/c.jpg")
    /\ ProcessingRequest_objects (db s') = [example.job].
Proof.
  destruct (fetch_failure_is_fatal
              example.world example.task example.second_unfetchable
              (example.item 2 2 "Gadget" "http://x/c.jpg")
              [] "http://x/c.jpg" [])
    as (_ & e & s' & tr & H & _ & Hreqs & Hrow & _).
  - split; nodup.
  - simpl. right. now left.
  - reflexivity.
  - reflexivity.
  - exists e, s'. split; [exact H | ]. split; [exact Hrow | exact Hreqs].
Defined.

Lemma empty_url_field_is_fatal_witness :
  exists e s',
    process_images example.world example.task example.no_urls = (Raise e, s')
    /\ find_product (db s') 1 = Some (example.item 1 1 "Widget" EmptyString).
Proof.
  destruct (empty_url_field_is_fatal
              example.world example.task example.no_urls
              (example.item 1 1 "Widget" EmptyString))
    as (_ & _ & _ & _ & e & s' & H & Hrow & _).
  - split; nodup.
  - simpl. now left.
  - reflexivity.
  - exists e, s'. split; [exact H | exact Hrow].
Defined.

Lemma outputs_follow_inputs_witness :
  exists done rest tr,
    product_set (db example.sound) example.job = (done ++ rest)%list
    /\ trace (snd (process_images example.world example.task example.sound))
       = (tr ++ [])%list
    /\ saved_products tr = map (processed_row example.world) done
    /\ rest = [].
Proof.
  destruct (outputs_follow_inputs
              example.world example.task example.sound (Ok tt)
              (snd (process_images example.world example.task example.sound)))
    as (done & rest & tr & Hps & Htr & Hsaved & Hok & _).
  - split; nodup.
  - vm_compute. reflexivity.
  - exists done, rest, tr. repeat split; auto.
Defined.

Lemma completed_only_at_the_end_witness :
  all_processed (db example.processed_store) "job-1" = true
  /\ has_result_file (db example.processed_store) "job-1" = true.
Proof.
  destruct (completed_only_at_the_end
              example.world "job-1" example.sound
              (fst (run example.world "job-1" example.sound))
              example.processed_store)
    as (tr & _ & _ & Hfalse).
  - split; nodup.
  - unfold example.processed_store. apply surjective_pairing.
  - destruct (Hfalse eq_refl) as [_ Hend].
    destruct Hend as (_ & Hall & Hfile & _).
    + vm_compute. reflexivity.
    + split; [exact Hall | exact Hfile].
Defined.

Lemma summary_round_trip_witness :
  exists stored text,
    In (stored, text)
       (files (snd (process_images example.world example.task example.sound)))
    /\ csv.reader 100 (csv.StringIO text)
       = (fieldnames
            :: map summary_fields
                 (map (processed_row example.world)
                      (product_set (db example.sound) example.job)),
          None).
Proof.
  destruct (summary_round_trip
              example.world example.task example.sound
              (snd (process_images example.world example.task example.sound)) 100)
    as (stored & text & body & request & Hfile & _ & _ & _ & _ & _ & _ & Hread & _).
  - split; nodup.
  - vm_compute. reflexivity.
  - unfold fields_within. repeat constructor; simpl; lia.
  - unfold fields_within. repeat constructor; simpl; lia.
  - exists stored, text. split; [exact Hfile | exact Hread].
Defined.

Lemma upload_keeps_request_on_invalid_header_witness :
  exists message s',
    views.post example.world example.messages
               (example.upload example.manifest_without_urls) example.sound
    = (Ok (ErrorAPIResponse message (Some HTTP_400_BAD_REQUEST)), s')
    /\ filter_request_id (db s') "job-2"
       = [mkProcessingRequest 2 "job-2" 1700000000 false None].
Proof.
  destruct (upload_keeps_request_on_invalid_header
              example.world example.messages
              (example.upload example.manifest_without_urls) example.sound
              (views.mkUploadedFile "manifest.csv" example.manifest_without_urls))
    as (message & s' & Hpost & _ & _ & Hrow & _).
  - reflexivity.
  - reflexivity.
  - reflexivity.
  - reflexivity.
  - reflexivity.
  - vm_compute. reflexivity.
  - intros p [<- | [<- | []]]; exists example.job; split; simpl; auto.
  - exists message, s'. split; [exact Hpost | exact Hrow].
Defined.

Lemma run_catches_value_errors_witness :
  fst (run example.world "no-such-job" example.sound) = Ok tt.
Proof.
  destruct (run_catches_value_errors
              example.world "no-such-job" example.sound
              (fst (run example.world "no-such-job" example.sound))
              (snd (run example.world "no-such-job" example.sound)))
    as (_ & Hunknown & _).
  - apply surjective_pairing.
  - destruct (Hunknown eq_refl) as [Hok _]. exact Hok.
Defined.

(* ================================================================= *)
(** ** Further properties of the code *)

Import cover cover_facts view_facts pipeline_facts upload_facts.

(** X1. Splitting a URL field on commas loses nothing: the pieces joined by
    commas are the field, no piece has a comma in it, and there is one more
    piece than there are commas. *)
Theorem comma_split_is_lossless (s : string) :
  join "," (split COMMA s) = s
  /\ Forall (fun piece => free_of COMMA piece = true) (split COMMA s)
  /\ List.length (split COMMA s) = S (count_char COMMA s).
Proof.
  split; [apply join_split | ]. split; [apply split_free | apply split_length].
Qed.

(** X2. With a [MEDIA_URL] that has no comma, the outputs of an item can be
    read back from the field they are stored in: when there is at least one,
    splitting the field on commas gives them, in order. An item without
    outputs stores the empty string, which splits into one empty piece. *)
Theorem stored_outputs_decode (w : World) (p : Product) :
  free_of COMMA (MEDIA_URL w) = true ->
  let outs := outputs_due w (split COMMA (input_image_urls p)) in
  output_image_urls (processed_row w p) = join "," outs
  /\ (outs <> [] -> split COMMA (output_image_urls (processed_row w p)) = outs)
  /\ (outs = [] -> split COMMA (output_image_urls (processed_row w p)) = [EmptyString]).
Proof.
  intros Hm outs. split; [reflexivity | ]. split.
  - intros Hne. simpl. apply split_join; [exact Hne | ].
    apply outputs_due_free; [exact Hm | apply split_free].
  - intros E. simpl. fold outs. now rewrite E.
Qed.

Lemma stored_outputs_decode_witness :
  split COMMA (output_image_urls
                 (processed_row example.world
                    (example.item 1 1 "Widget" "http://x/a.jpg,http://x/b.jpg")))
  = ["/media/processed_images/compressed_a.jpg";
     "/media/processed_images/compressed_b.jpg"].
Proof.
  destruct (stored_outputs_decode
              example.world
              (example.item 1 1 "Widget" "http://x/a.jpg,http://x/b.jpg"))
    as (_ & Hsome & _).
  - reflexivity.
  - rewrite Hsome; [reflexivity | discriminate].
Defined.



(** X4. [APIResponse] keeps the status it is given and the body it is
    given; a message that is not empty is put in the body under [message],
    over what was there, and changes no other key. *)
Theorem api_response_body (d : dict) (st : option Z) (message : string) :
  status (APIResponse d st message) = st
  /\ forall k,
      dict_get (data (APIResponse d st message)) k
      = if String.eqb message EmptyString then dict_get d k
        else if String.eqb k "message" then Some (Str message)
             else dict_get d k.
Proof.
  split; [reflexivity | ]. intros k. unfold APIResponse. simpl.
  destruct (String.eqb message EmptyString); [reflexivity | ].
  destruct (String.eqb k "message") eqn:E.
  - apply String.eqb_eq in E. subst k. apply dict_get_set_same.
  - apply String.eqb_neq in E. now apply dict_get_set_other.
Qed.

(** X5. The status view never raises and never writes. A query without a
    [request_id], or with an empty one, is answered with the error response
    of status 400; every other query, whether the store knows the job or
    not, with the error response of the last handler, which has no status.
    The store, the files and the trace are as they were, and the last line
    of the log is an error. *)
Theorem status_view_answers
        (w : World) (messages : views.Messages) (request : views.Request) (s : State) :
  exists s' line older,
    views.get w messages request s
    = (Ok (if no_request_id request
           then ErrorAPIResponse (views.MISSING_REQUEST_ID messages)
                                 (Some HTTP_400_BAD_REQUEST)
           else ErrorAPIResponse (views.STATUS_EXCEPTION messages) None), s')
    /\ same_effects s' s
    /\ log s' = (ERROR, line) :: older.
Proof.
  unfold views.get, no_request_id, try_except.
  destruct (views.lookup (views.query_params request) "request_id") as [[|c rid]|].
  - cbn. eexists _, _, _. repeat split.
  - unfold bind at 1.
    destruct (views.get_object_or_404 (String c rid) s) as [[pr|e] s1] eqn:E;
      pose proof (get_object_or_404_state _ _ _ _ E); subst s1.
    + cbn. eexists _, _, _. repeat split.
    + cbn. eexists _, _, _. repeat split.
  - cbn. eexists _, _, _. repeat split.
Qed.

(** X6. An upload without a [file], or with a file whose name does not end
    in [.csv], is answered with an error response of status 400 carrying the
    message for the case, and nothing is stored, written or fetched. *)
Theorem refused_upload_stores_nothing
        (w : World) (messages : views.Messages) (request : views.Request)
        (s : State) (message : string) :
  refused_upload messages request = Some message ->
  exists s',
    views.post w messages request s
    = (Ok (ErrorAPIResponse message (Some HTTP_400_BAD_REQUEST)), s')
    /\ same_effects s' s.
Proof.
  unfold refused_upload. intros H.
  unfold views.post, bind, try_except, views.post_try.
  destruct (views.lookup (views.FILES request) "file") as [file_obj|].
  - destruct (endswith (views.file_name file_obj) ".csv"); [discriminate | ].
    inv H. cbn. eexists. repeat split.
  - inv H. cbn. eexists. repeat split.
Qed.

Lemma refused_upload_stores_nothing_witness :
  exists s',
    views.post example.world example.messages (views.mkRequest [] []) example.empty_store
    = (Ok (ErrorAPIResponse "No file was uploaded." (Some HTTP_400_BAD_REQUEST)), s')
    /\ same_effects s' example.empty_store.
Proof.
  apply (refused_upload_stores_nothing
           example.world example.messages (views.mkRequest [] []) example.empty_store).
  reflexivity.
Defined.

(** X7. A manifest that the view takes, whose rows the store all takes and
    whose reading ends without an error, gives the store the request of the
    upload and, after the items it had, one item for each row that is not
    blank, in the order of the rows: each has the serial number, the name
    and the input URLs of its row, belongs to the request, is not processed
    and has no outputs. No file is written. *)
Theorem manifest_rows_become_items
        (w : World) (messages : views.Messages) (request : views.Request)
        (s : State) (file_obj : views.UploadedFile) :
  admissible w request s file_obj ->
  forallb (accepted w (created_request w (db s))) (manifest_rows file_obj) = true ->
  manifest_error file_obj = None ->
  exists created s',
    views.post_try w messages request (uuid4 w) s = (Ok None, s')
    /\ ProcessingRequest_objects (db s')
       = (ProcessingRequest_objects (db s) ++ [created_request w (db s)])%list
    /\ Product_objects (db s') = (Product_objects (db s) ++ created)%list
    /\ map (fun p => Some (item_of p)) created
       = map (manifest_item w) (manifest_rows file_obj)
    /\ Forall (newly_created (created_request w (db s))) created
    /\ files s' = files s.
Proof.
  intros Hadm Hall Herr.
  destruct (views.post_try w messages request (uuid4 w) s) as [r s'] eqn:H.
  destruct (post_try_all_rows w messages request s file_obj r s' Hadm Hall H)
    as (created & Hreq & Hprod & Hitems & Hnew & Hfiles & Hend).
  exists created, s'. destruct r as [resp|e].
  - destruct Hend as [-> _]. auto 10.
  - congruence.
Qed.

Lemma manifest_rows_become_items_witness :
  exists created s',
    views.post_try example.world example.messages
                   (example.upload example.manifest_sound) "job-2" example.empty_store
    = (Ok None, s')
    /\ ProcessingRequest_objects (db s')
       = [example.job; mkProcessingRequest 2 "job-2" 1700000000 false None]
    /\ Product_objects (db s') = created
    /\ map (fun p => Some (item_of p)) created
       = [Some (1%Z, "Widget", "http://x/a.jpg");
          Some (2%Z, "Gizmo", "http://x/huge.png")]
    /\ Forall (newly_created (mkProcessingRequest 2 "job-2" 1700000000 false None))
              created
    /\ files s' = [].
Proof.
  apply (manifest_rows_become_items
           example.world example.messages (example.upload example.manifest_sound)
           example.empty_store
           (views.mkUploadedFile "manifest.csv" example.manifest_sound)).
  - repeat split; vm_compute; reflexivity.
  - vm_compute. reflexivity.
  - vm_compute. reflexivity.
Defined.

(** X8. A row that lacks a column, whose serial number is not a number or
    that has an empty cell where the store wants a value ends the upload:
    the view raises [TypeError], from the handler that builds a [Response]
    with a keyword it does not take. The request and the items of the rows
    before that row stay in the store; no item is made of the rows after
    it. *)
Theorem refused_row_ends_the_upload
        (w : World) (messages : views.Messages) (request : views.Request)
        (s : State) (file_obj : views.UploadedFile)
        (made : list dict) (row : dict) (rest : list dict) :
  admissible w request s file_obj ->
  manifest_rows file_obj = (made ++ row :: rest)%list ->
  forallb (accepted w (created_request w (db s))) made = true ->
  manifest_item w row = None ->
  exists msg created s',
    views.post w messages request s = (Raise (Exn TypeError msg), s')
    /\ ProcessingRequest_objects (db s')
       = (ProcessingRequest_objects (db s) ++ [created_request w (db s)])%list
    /\ Product_objects (db s') = (Product_objects (db s) ++ created)%list
    /\ map (fun p => Some (item_of p)) created = map (manifest_item w) made
    /\ files s' = files s.
Proof.
  intros Hadm Hrows Hmade Hrow.
  assert (Hrefused : accepted w (created_request w (db s)) row = false).
  { unfold accepted. now rewrite Hrow. }
  destruct (views.post w messages request s) as [r s'] eqn:H.
  apply post_cases in H.
  destruct H as (s0 & r1 & s1 & (E0 & F0 & _) & Htry & Hcase).
  apply (admissible_same_store w request s s0 file_obj E0) in Hadm.
  destruct (post_try_creates w messages request s0 file_obj r1 s1 Hadm Htry)
    as (made' & rest' & created & Hrows' & Hmade' & Hreq & Hprod & Hitems & _ & Hfiles
        & Hend).
  rewrite E0 in *. rewrite Hrows in Hrows'.
  assert (Hsame : made' = made /\ rest' = row :: rest).
  { apply (first_refused (accepted w (created_request w (db s)))); auto.
    destruct r1 as [resp|e].
    - left. tauto.
    - destruct Hend as [(-> & _) | (x & l & -> & Hx & _)]; [now left | right; eauto]. }
  destruct Hsame as [-> ->].
  destruct r1 as [resp|e]; [destruct Hend as (_ & Hnil & _); discriminate | ].
  destruct Hend as [(Hnil & _) | (x & l & Hx & _ & Hcls)]; [discriminate | ].
  inv Hx. specialize (Hcls Hrow). apply isinstance_row_error in Hcls.
  destruct Hcase as ((E1 & F1 & _) & Hr). rewrite Hcls in Hr.
  destruct Hr as (msg & ->).
  exists msg, created, s'. rewrite E1, F1. split; [reflexivity | ].
  repeat split; congruence.
Qed.

Lemma refused_row_ends_the_upload_witness :
  exists msg created s',
    views.post example.world example.messages
               (example.upload example.manifest_bad_serial) example.empty_store
    = (Raise (Exn TypeError msg), s')
    /\ ProcessingRequest_objects (db s')
       = [example.job; mkProcessingRequest 2 "job-2" 1700000000 false None]
    /\ Product_objects (db s') = created
    /\ map (fun p => Some (item_of p)) created
       = [Some (1%Z, "Widget", "http://x/a.jpg")]
    /\ files s' = [].
Proof.
  apply (refused_row_ends_the_upload
           example.world example.messages (example.upload example.manifest_bad_serial)
           example.empty_store
           (views.mkUploadedFile "manifest.csv" example.manifest_bad_serial)
           [example.row "1" "Widget" "http://x/a.jpg"]
           (example.row "two" "Gadget" "http://x/b.jpg")
           [example.row "3" "Gizmo" "http://x/d.png"]).
  - repeat split; vm_compute; reflexivity.
  - vm_compute. reflexivity.
  - vm_compute. reflexivity.
  - vm_compute. reflexivity.
Defined.

(** X9. When the reading of a manifest ends on an error of the [csv]
    module after rows that the store all takes, the view answers with the
    error response of status 400 for a malformed file; the request and the
    items of the rows read before the error stay in the store. *)
Theorem csv_error_keeps_the_rows_read
        (w : World) (messages : views.Messages) (request : views.Request)
        (s : State) (file_obj : views.UploadedFile) (e : exn) :
  admissible w request s file_obj ->
  forallb (accepted w (created_request w (db s))) (manifest_rows file_obj) = true ->
  manifest_error file_obj = Some e ->
  exists created s',
    views.post w messages request s
    = (Ok (ErrorAPIResponse (views.CSV_ERROR messages) (Some HTTP_400_BAD_REQUEST)), s')
    /\ ProcessingRequest_objects (db s')
       = (ProcessingRequest_objects (db s) ++ [created_request w (db s)])%list
    /\ Product_objects (db s') = (Product_objects (db s) ++ created)%list
    /\ map (fun p => Some (item_of p)) created
       = map (manifest_item w) (manifest_rows file_obj)
    /\ files s' = files s.
Proof.
  intros Hadm Hall Herr.
  destruct (views.post w messages request s) as [r s'] eqn:H.
  apply post_cases in H.
  destruct H as (s0 & r1 & s1 & (E0 & F0 & _) & Htry & Hcase).
  apply (admissible_same_store w request s s0 file_obj E0) in Hadm.
  rewrite <- E0 in Hall.
  destruct (post_try_all_rows w messages request s0 file_obj r1 s1 Hadm Hall Htry)
    as (created & Hreq & Hprod & Hitems & _ & Hfiles & Hend).
  rewrite E0 in *.
  destruct r1 as [resp|e']; [destruct Hend; congruence | ].
  rewrite (manifest_error_class file_obj e' Hend) in Hcase.
  destruct Hcase as ((E1 & F1 & _) & ->).
  exists created, s'. rewrite E1, F1. split; [reflexivity | ].
  repeat split; congruence.
Qed.

Lemma csv_error_keeps_the_rows_read_witness :
  exists created s',
    views.post example.world example.messages
               (example.upload example.manifest_broken) example.empty_store
    = (Ok (ErrorAPIResponse "The CSV file is malformed." (Some HTTP_400_BAD_REQUEST)), s')
    /\ ProcessingRequest_objects (db s')
       = [example.job; mkProcessingRequest 2 "job-2" 1700000000 false None]
    /\ Product_objects (db s') = created
    /\ map (fun p => Some (item_of p)) created
       = [Some (1%Z, "Widget", "http://x/a.jpg")]
    /\ files s' = [].
Proof.
  apply (csv_error_keeps_the_rows_read
           example.world example.messages (example.upload example.manifest_broken)
           example.empty_store
           (views.mkUploadedFile "manifest.csv" example.manifest_broken)
           (Exn csv_Error "new-line character seen in unquoted field")).
  - repeat split; vm_compute; reflexivity.
  - vm_compute. reflexivity.
  - vm_compute. reflexivity.
Defined.

(** X10. The upload view answers in one of three ways, whatever it is
    given: an error response of status 400, the response of status 201 that
    carries the identifier of the upload, or, when it raises, a
    [TypeError]. *)
Theorem upload_view_answers
        (w : World) (messages : views.Messages) (request : views.Request) (s : State) :
  match fst (views.post w messages request s) with
  | Ok resp =>
      (status resp = Some HTTP_400_BAD_REQUEST
       /\ exists msg, data resp = [("error", Str msg)])
      \/ (resp = accepted_response w
          /\ status resp = Some HTTP_201_CREATED
          /\ data resp = [("request_id", Str (uuid4 w))])
  | Raise e => exn_class e = TypeError
  end.
Proof.
  destruct (views.post w messages request s) as [r s'] eqn:H. cbn [fst].
  apply post_cases in H. destruct H as (s0 & r1 & s1 & _ & Htry & Hcase).
  apply post_try_store in Htry. destruct Htry as (_ & _ & Hresp).
  destruct r1 as [[resp|]|e].
  - destruct Hcase as (-> & _). left. now apply Hresp.
  - destruct Hcase as (r2 & s2 & _ & _ & ->). destruct (is_ok r2).
    + right. repeat split.
    + left. split; [reflexivity | eexists; reflexivity].
  - destruct Hcase as (_ & Hr). destruct (isinstance e csv_Error).
    + subst r. left. split; [reflexivity | eexists; reflexivity].
    + destruct Hr as (msg & ->). reflexivity.
Qed.

(** X11. With an output directory that can be made, a record store and a
    file storage that take what they are given, and items whose URLs each go
    through or are skipped, [run] completes the job it is given: it
    returns, every item of the job is in the store as processed, the summary
    file of these items is stored and recorded in the request, and the
    request is marked completed. *)
Theorem run_completes_the_job
        (w : World) (rid : string) (s : State) (r0 : ProcessingRequest) :
  keys_unique (db s) ->
  filter_request_id (db s) rid = [r0] ->
  os_makedirs w (path_join (MEDIA_ROOT w) ["processed_images"]) = None ->
  (forall op, db_fault w op = None) ->
  (forall name content, is_ok (storage_save w name content) = true) ->
  forallb (passable w (mkTask rid r0 (path_join (MEDIA_ROOT w) ["processed_images"])))
          (product_set (db s) r0) = true ->
  exists s' stored,
    run w rid s = (Ok tt, s')
    /\ filter_request_id (db s') rid = [set_completed (set_result_file r0 stored) true]
    /\ product_set (db s') r0 = map (processed_row w) (product_set (db s) r0)
    /\ In (stored,
           file_text (fieldnames
                        :: map summary_fields
                             (map (processed_row w) (product_set (db s) r0))))
          (files s')
    /\ completed_in (db s') rid = true
    /\ all_processed (db s') rid = true
    /\ has_result_file (db s') rid = true.
Proof.
  intros Hkeys Hget Hdir Hdb Hstore Hpass.
  rewrite forallb_forall in Hpass.
  destruct (run_completes w rid s r0 Hkeys Hget Hdir Hdb Hstore Hpass)
    as (s' & stored & Hrun & Hfil & Hps & Hfile).
  exists s', stored. split; [exact Hrun | ]. split; [exact Hfil | ].
  split; [exact Hps | ]. split; [exact Hfile | ].
  unfold completed_in, all_processed, has_result_file. rewrite Hfil.
  split; [reflexivity | ]. split; [ | reflexivity].
  cbn [forallb]. rewrite andb_true_r.
  change (forallb processed (product_set (db s') r0) = true).
  rewrite Hps. apply forallb_processed.
Qed.

Lemma run_completes_the_job_witness :
  exists s' stored,
    run example.world "job-1" example.sound = (Ok tt, s')
    /\ filter_request_id (db s') "job-1"
       = [set_completed (set_result_file example.job stored) true]
    /\ product_set (db s') example.job
       = map (processed_row example.world) (product_set (db example.sound) example.job)
    /\ In (stored,
           file_text (fieldnames
                        :: map summary_fields
                             (map (processed_row example.world)
                                  (product_set (db example.sound) example.job))))
          (files s')
    /\ completed_in (db s') "job-1" = true
    /\ all_processed (db s') "job-1" = true
    /\ has_result_file (db s') "job-1" = true.
Proof.
  apply (run_completes_the_job example.world "job-1" example.sound example.job).
  - split; nodup.
  - reflexivity.
  - reflexivity.
  - intros op. reflexivity.
  - intros name content. reflexivity.
  - vm_compute. reflexivity.
Defined.

(** X12. The upload of a manifest whose rows all make items, with URLs that
    each go through or are skipped, on a store that is consistent and with
    nothing failing outside, is answered with status 201 and leaves the job
    completed: the items of the manifest are in the store as processed, in
    the order of the rows, and the summary file of the job is stored. *)
Theorem good_upload_completes
        (w : World) (messages : views.Messages) (request : views.Request)
        (s : State) (file_obj : views.UploadedFile) :
  consistent (db s) ->
  admissible w request s file_obj ->
  manifest_error file_obj = None ->
  forallb (row_passes w (db s)) (manifest_rows file_obj) = true ->
  (forall op, db_fault w op = None) ->
  (forall name content, is_ok (storage_save w name content) = true) ->
  os_makedirs w (path_join (MEDIA_ROOT w) ["processed_images"]) = None ->
  exists created stored s',
    views.post w messages request s = (Ok (accepted_response w), s')
    /\ map (fun p => Some (item_of p)) created
       = map (manifest_item w) (manifest_rows file_obj)
    /\ filter_request_id (db s') (uuid4 w)
       = [set_completed (set_result_file (created_request w (db s)) stored) true]
    /\ product_set (db s') (created_request w (db s)) = map (processed_row w) created
    /\ In (stored,
           file_text (fieldnames :: map summary_fields (map (processed_row w) created)))
          (files s').
Proof.
  intros Hc Hadm Herr Hrows Hdb Hstore Hdir.
  rewrite forallb_forall in Hrows.
  assert (Hall : forallb (accepted w (created_request w (db s))) (manifest_rows file_obj)
                 = true).
  { apply forallb_forall. intros row Hrow. apply row_passes_accepted; auto. }
  destruct (views.post w messages request s) as [r s'] eqn:H.
  destruct (post_runs_pipeline w messages request s file_obj r s' Hc Hadm Hall Herr H)
    as (created & s1 & r2 & s2 & Hitems & _ & Hc1 & Hget & Hset & Hrun & (E & F & _) & ->).
  destruct (run_completes w (uuid4 w) s1 (created_request w (db s))
              (proj1 Hc1) Hget Hdir Hdb Hstore)
    as (s'' & stored & Hrun' & Hfil & Hps & Hfile).
  { intros p Hp. rewrite Hset in Hp.
    destruct (created_from_rows w created _ p Hitems Hp) as (row & Hrow & Hit).
    specialize (Hrows row Hrow). unfold row_passes in Hrows. rewrite Hit in Hrows.
    exact Hrows. }
  rewrite Hrun' in Hrun. injection Hrun as <- <-. rewrite Hset in Hps, Hfile.
  exists created, stored, s'. rewrite E, F. auto.
Qed.

Lemma good_upload_completes_witness :
  exists created stored s',
    views.post example.world example.messages
               (example.upload example.manifest_sound) example.empty_store
    = (Ok (accepted_response example.world), s')
    /\ map (fun p => Some (item_of p)) created
       = [Some (1%Z, "Widget", "http://x/a.jpg");
          Some (2%Z, "Gizmo", "http://x/huge.png")]
    /\ filter_request_id (db s') "job-2"
       = [mkProcessingRequest 2 "job-2" 1700000000 true (Some stored)]
    /\ product_set (db s') (mkProcessingRequest 2 "job-2" 1700000000 false None)
       = map (processed_row example.world) created
    /\ In (stored,
           file_text (fieldnames
                        :: map summary_fields (map (processed_row example.world) created)))
          (files s').
Proof.
  apply (good_upload_completes
           example.world example.messages (example.upload example.manifest_sound)
           example.empty_store
           (views.mkUploadedFile "manifest.csv" example.manifest_sound)).
  - split; [split; nodup | intros p []].
  - repeat split; vm_compute; reflexivity.
  - vm_compute. reflexivity.
  - vm_compute. reflexivity.
  - intros op. reflexivity.
  - intros name content. reflexivity.
  - reflexivity.
Defined.

(** X13. The answer 201 does not say that the job was done. When the fetch
    of some URL of the manifest fails, every other URL going through or
    being skipped, the pipeline stops on a [ValueError] that [run] logs and
    drops: the upload is answered with status 201 all the same, the request
    stays as it was created, not completed and without a summary file, and
    the item with that URL stays not processed. *)
Theorem failed_fetch_is_answered_201
        (w : World) (messages : views.Messages) (request : views.Request)
        (s : State) (file_obj : views.UploadedFile) :
  consistent (db s) ->
  admissible w request s file_obj ->
  manifest_error file_obj = None ->
  forallb (row_settles w (db s)) (manifest_rows file_obj) = true ->
  existsb (row_unfetchable w) (manifest_rows file_obj) = true ->
  (forall op, db_fault w op = None) ->
  os_makedirs w (path_join (MEDIA_ROOT w) ["processed_images"]) = None ->
  exists p s',
    views.post w messages request s = (Ok (accepted_response w), s')
    /\ filter_request_id (db s') (uuid4 w) = [created_request w (db s)]
    /\ completed_in (db s') (uuid4 w) = false
    /\ has_result_file (db s') (uuid4 w) = false
    /\ In p (product_set (db s') (created_request w (db s)))
    /\ fetchable w p = false
    /\ processed p = false.
Proof.
  intros Hc Hadm Herr Hrows Hbad Hdb Hdir.
  rewrite forallb_forall in Hrows.
  assert (Hall : forallb (accepted w (created_request w (db s))) (manifest_rows file_obj)
                 = true).
  { apply forallb_forall. intros row Hrow. apply row_settles_accepted; auto. }
  destruct (views.post w messages request s) as [r s'] eqn:H.
  destruct (post_runs_pipeline w messages request s file_obj r s' Hc Hadm Hall Herr H)
    as (created & s1 & r2 & s2 & Hitems & Hnew & Hc1 & Hget & Hset & Hrun
        & (E & F & _) & ->).
  apply existsb_exists in Hbad. destruct Hbad as (row & Hrow & Hbad).
  unfold row_unfetchable in Hbad.
  destruct (manifest_item w row) as [[[n nm] urls]|] eqn:Hit; [ | discriminate].
  apply existsb_exists in Hbad. destruct Hbad as (url & Hurl & Hfail).
  destruct (rows_to_created w created _ row _ Hitems Hrow Hit) as (p & Hp & Ep).
  unfold item_of in Ep. injection Ep as <- <- <-.
  assert (Hnf : fetchable w p = false).
  { apply not_fetchable. exists url. auto. }
  rewrite (run_known_request w (uuid4 w) s1 _ Hget Hdir) in Hrun. cbv zeta in Hrun.
  set (self := mkTask (uuid4 w) (created_request w (db s))
                      (path_join (MEDIA_ROOT w) ["processed_images"])) in *.
  set (s0 := mkState (db s1) (files s1) (trace s1) _) in *.
  destruct (process_images_fetch_failure w self s0 p (proj1 Hc1))
    as (e & s3 & tr & Hpi & _ & Hreqs & Hfind & _); [ | exact Hnf | ].
  { change (In p (product_set (db s1) (created_request w (db s)))). now rewrite Hset. }
  assert (Hsettle : forall q,
             In q (product_set (db s0) (processing_request self)) ->
             forallb (settles w self) (split COMMA (input_image_urls q)) = true).
  { intros q Hq.
    change (In q (product_set (db s1) (created_request w (db s)))) in Hq.
    rewrite Hset in Hq.
    destruct (created_from_rows w created _ q Hitems Hq) as (row' & Hrow' & Hit').
    specialize (Hrows row' Hrow'). unfold row_settles in Hrows. rewrite Hit' in Hrows.
    exact Hrows. }
  destruct (process_images_settles w self s0 _ _ (fun q => Hdb (SaveProduct q))
              Hsettle Hpi) as [Hok | (msg & Hmsg)]; [discriminate | ].
  injection Hmsg as ->. unfold try_except in Hrun. rewrite Hpi in Hrun. cbn in Hrun.
  injection Hrun as <- <-.
  cbn [db s0] in Hreqs.
  assert (Hfil : filter_request_id (db s') (uuid4 w) = [created_request w (db s)]).
  { unfold filter_request_id in *. rewrite E. cbn [db]. rewrite Hreqs. exact Hget. }
  exists p, s'. split; [reflexivity | ]. split; [exact Hfil | ].
  unfold completed_in, has_result_file. rewrite Hfil.
  split; [reflexivity | ]. split; [reflexivity | ].
  rewrite Forall_forall in Hnew. destruct (Hnew p Hp) as (Ereq & Eproc & _).
  split; [ | split; [exact Hnf | exact Eproc]].
  unfold product_set. apply filter_In. split.
  - rewrite E. cbn [db]. unfold find_product in Hfind. apply find_some in Hfind.
    tauto.
  - rewrite Ereq. apply Nat.eqb_refl.
Qed.

Lemma failed_fetch_is_answered_201_witness :
  exists p s',
    views.post example.world example.messages
               (example.upload example.manifest_unfetchable) example.empty_store
    = (Ok (accepted_response example.world), s')
    /\ filter_request_id (db s') "job-2"
       = [mkProcessingRequest 2 "job-2" 1700000000 false None]
    /\ completed_in (db s') "job-2" = false
    /\ has_result_file (db s') "job-2" = false
    /\ In p (product_set (db s') (mkProcessingRequest 2 "job-2" 1700000000 false None))
    /\ fetchable example.world p = false
    /\ processed p = false.
Proof.
  apply (failed_fetch_is_answered_201
           example.world example.messages (example.upload example.manifest_unfetchable)
           example.empty_store
           (views.mkUploadedFile "manifest.csv" example.manifest_unfetchable)).
  - split; [split; nodup | intros p []].
  - repeat split; vm_compute; reflexivity.
  - vm_compute. reflexivity.
  - vm_compute. reflexivity.
  - vm_compute. reflexivity.
  - intros op. reflexivity.
  - reflexivity.
Defined.

(** X14. Processing a job, however it ends, touches only that job. No row
    is added or removed, and no item of any job changes its key, its
    request, its serial number, its name or its input URLs; the items of
    the other jobs and the other requests are left exactly as they were. *)
Theorem processing_touches_only_its_job
        (w : World) (self : Task) (s : State) (r : result unit) (s' : State) :
  keys_unique (db s) ->
  process_images w self s = (r, s') ->
  map input_fields (Product_objects (db s')) = map input_fields (Product_objects (db s))
  /\ (forall other,
         request_pk other <> request_pk (processing_request self) ->
         product_set (db s') other = product_set (db s) other)
  /\ filter (fun x => negb (Nat.eqb (request_pk x) (request_pk (processing_request self))))
            (ProcessingRequest_objects (db s'))
     = filter (fun x => negb (Nat.eqb (request_pk x)
                                      (request_pk (processing_request self))))
              (ProcessingRequest_objects (db s)).
Proof.
  intros Hkeys Hrun.
  destruct (process_images_store w self s r s' Hkeys Hrun)
    as (done & rest & saves & Hps & _ & Hprods & Hreqs & Hsaves).
  split; [rewrite Hprods; apply map_input_fields_mark | ]. split.
  - intros other Hother. unfold product_set. rewrite Hprods.
    assert (Hdone : forall q, In q done ->
                              In q (Product_objects (db s))
                              /\ request q = request_pk (processing_request self)).
    { intros q Hq.
      assert (Hq' : In q (product_set (db s) (processing_request self))).
      { rewrite Hps. apply in_or_app. now left. }
      unfold product_set in Hq'. apply filter_In in Hq'. destruct Hq' as [Hin E].
      apply Nat.eqb_eq in E. auto. }
    apply (mark_other_jobs w _ done (request_pk (processing_request self))).
    + apply Hkeys.
    + intros q Hq. now apply Hdone.
    + intros q Hq. now apply Hdone.
    + exact Hother.
  - rewrite Hreqs. now apply saves_keep_others.
Qed.

Lemma processing_touches_only_its_job_witness :
  map input_fields
      (Product_objects (db (snd (process_images example.world example.task
                                                example.second_unfetchable))))
  = [(1, 1, 1%Z, "Widget", "http://x/a.jpg,http://x/b.jpg");
     (2, 1, 2%Z, "Gadget", "http://x/c.jpg")].
Proof.
  destruct (processing_touches_only_its_job
              example.world example.task example.second_unfetchable
              (fst (process_images example.world example.task
                                   example.second_unfetchable))
              (snd (process_images example.world example.task
                                   example.second_unfetchable)))
    as (Hfields & _).
  - split; nodup.
  - apply surjective_pairing.
  - rewrite Hfields. reflexivity.
Defined.

(** X15. [run] keeps the store consistent, however it ends: primary keys
    stay unique and every item still belongs to a request of the store. *)
Theorem run_keeps_the_store_consistent
        (w : World) (rid : string) (s : State) (r : result unit) (s' : State) :
  consistent (db s) ->
  run w rid s = (r, s') ->
  consistent (db s').
Proof. apply run_consistent. Qed.

Lemma run_keeps_the_store_consistent_witness :
  consistent (db example.processed_store).
Proof.
  apply (run_keeps_the_store_consistent
           example.world "job-1" example.sound
           (fst (run example.world "job-1" example.sound))
           example.processed_store).
  - split; [split; nodup | ].
    intros p [<- | [<- | []]]; exists example.job; (split; [now left | reflexivity]).
  - unfold example.processed_store. apply surjective_pairing.
Defined.

(** X16. The upload view keeps the store consistent, whatever it is given
    and however it ends: the request and the items it creates get keys that
    are new, the items belong to the request it created, and the pipeline it
    runs does not undo that. *)
Theorem upload_keeps_the_store_consistent
        (w : World) (messages : views.Messages) (request : views.Request)
        (s : State) (r : result Response) (s' : State) :
  consistent (db s) ->
  views.post w messages request s = (r, s') ->
  consistent (db s').
Proof. apply post_consistent. Qed.

Lemma upload_keeps_the_store_consistent_witness :
  consistent (db (snd (views.post example.world example.messages
                                  (example.upload example.manifest_bad_serial)
                                  example.processed_store))).
Proof.
  apply (upload_keeps_the_store_consistent
           example.world example.messages (example.upload example.manifest_bad_serial)
           example.processed_store
           (fst (views.post example.world example.messages
                            (example.upload example.manifest_bad_serial)
                            example.processed_store))).
  - apply (run_consistent example.world "job-1" example.sound
             (fst (run example.world "job-1" example.sound))).
    + split; [split; nodup | ].
      intros p [<- | [<- | []]]; exists example.job; (split; [now left | reflexivity]).
    + unfold example.processed_store. apply surjective_pairing.
  - apply surjective_pairing.
Defined.

(** X17. [generate_csv] hands the summary to the file storage under the
    name [results/results/result_file.csv]: the upload directory of the
    field, then the name it is given. When it returns, the file is stored
    and the request is saved with the name the storage gave the file;
    nothing else of the request or of the task has changed, and the job is
    not marked completed by it. When it fails it raises [ValueError] and the
    store is as it was; the file may have been stored all the same, which
    happens when the record store then refuses the request. *)
Theorem generate_csv_outcome
        (w : World) (self : Task) (output_data : list dict) (s : State)
        (r : result Task) (s' : State) :
  generate_csv w self output_data s = (r, s') ->
  match r with
  | Ok self' =>
      exists stored text,
        csv_file output_data = Ok text
        /\ storage_save w "results/results/result_file.csv" text = Ok stored
        /\ self' = mkTask (self_request_id self)
                          (set_result_file (processing_request self) stored)
                          (output_directory self)
        /\ completed (processing_request self') = completed (processing_request self)
        /\ db s' = save_request (set_result_file (processing_request self) stored) (db s)
        /\ files s' = (stored, text) :: files s
  | Raise e =>
      exn_class e = ValueError
      /\ db s' = db s
      /\ (files s' = files s
          \/ exists stored text,
              storage_save w "results/results/result_file.csv" text = Ok stored
              /\ files s' = (stored, text) :: files s
              /\ db_fault w (SaveRequest (set_result_file (processing_request self) stored))
                 <> None)
  end.
Proof.
  unfold generate_csv, try_except, bind, lift. intros H.
  destruct (csv_file output_data) as [text|e].
  2:{ cbn in H. inv H. cbn. auto. }
  unfold result_file_save in H.
  change (path_join "results/" ["results/result_file.csv"])
    with "results/results/result_file.csv" in H.
  destruct (storage_save w "results/results/result_file.csv" text) as [stored|e] eqn:Hst.
  2:{ cbn in H. inv H. cbn. auto. }
  unfold bind, store_file, ProcessingRequest_save, ret in H. cbn in H.
  destruct (db_fault w (SaveRequest (set_result_file (processing_request self) stored)))
    as [e|] eqn:Hf.
  - cbn in H. inv H. cbn. split; [reflexivity | ]. split; [reflexivity | ].
    right. exists stored, text. rewrite Hf. repeat split; auto. discriminate.
  - cbn in H. inv H. exists stored, text. repeat split; auto.
Qed.

Lemma generate_csv_outcome_witness :
  exists stored text,
    csv_file [] = Ok text
    /\ storage_save example.world "results/results/result_file.csv" text = Ok stored
    /\ mkTask "job-1" (set_result_file example.job "results/results/result_file.csv")
              "/srv/media/processed_images"
       = mkTask "job-1" (set_result_file example.job stored) "/srv/media/processed_images"
    /\ completed (set_result_file example.job "results/results/result_file.csv")
       = completed example.job
    /\ db (snd (generate_csv example.world example.task [] example.empty_store))
       = save_request (set_result_file example.job stored) (db example.empty_store)
    /\ files (snd (generate_csv example.world example.task [] example.empty_store))
       = (stored, text) :: [].
Proof.
  apply (generate_csv_outcome
           example.world example.task [] example.empty_store
           (Ok (mkTask "job-1"
                       (set_result_file example.job "results/results/result_file.csv")
                       "/srv/media/processed_images"))
           (snd (generate_csv example.world example.task [] example.empty_store))).
  vm_compute. reflexivity.
Defined.

(** X18. The summary file of a job is itself a manifest the upload view
    takes. Its header has the required columns, reading it ends without an
    error, and its rows, in order, make items with the serial numbers, the
    names and the input URLs of the items it was written from; this for
    fields within the size limit of the reader and serial numbers that
    [int] reads back from their decimal text. *)
Theorem summary_is_a_manifest
        (w : World) (items : list Product) (file_obj : views.UploadedFile) :
  views.file_bytes file_obj = file_text (fieldnames :: map summary_fields items) ->
  Forall (fun p => fields_within csv.field_size_limit (summary_fields p)) items ->
  Forall (fun p => int_of_str w (str_int (serial_number p)) = Some (serial_number p))
         items ->
  header_rejected (views.file_bytes file_obj) = false
  /\ manifest_error file_obj = None
  /\ map (manifest_item w) (manifest_rows file_obj)
     = map (fun p => Some (item_of p)) items.
Proof.
  intros Hbytes Hsize Hint.
  destruct (summary_rows items Hsize) as [Hhead Hrows].
  unfold header_rejected, manifest_error, manifest_rows.
  rewrite Hbytes, Hhead, Hrows. cbn [fst snd].
  split; [reflexivity | ]. split; [reflexivity | ].
  rewrite map_map. clear Hsize Hhead Hrows Hbytes.
  induction Hint as [|p items Hp _ IH]; [reflexivity | ].
  cbn [map]. rewrite IH. f_equal. now apply manifest_item_summary.
Qed.

Lemma summary_is_a_manifest_witness :
  map (manifest_item example.world)
      (manifest_rows
         (views.mkUploadedFile
            "result_file.csv"
            (file_text
               (fieldnames
                  :: map summary_fields
                       [processed_row example.world
                          (example.item 1 7 "Widget" "http://x/a.jpg,http://x/b.jpg")]))))
  = [Some (7%Z, "Widget", "http://x/a.jpg,http://x/b.jpg")].
Proof.
  destruct (summary_is_a_manifest
              example.world
              [processed_row example.world
                 (example.item 1 7 "Widget" "http://x/a.jpg,http://x/b.jpg")]
              (views.mkUploadedFile
                 "result_file.csv"
                 (file_text
                    (fieldnames
                       :: map summary_fields
                            [processed_row example.world
                               (example.item 1 7 "Widget"
                                             "http://x/a.jpg,http://x/b.jpg")]))))
    as (_ & _ & Hrows).
  - reflexivity.
  - apply Forall_cons; [ | apply Forall_nil]. unfold fields_within.
    repeat (apply Forall_cons || apply Forall_nil); apply Nat.leb_le; vm_compute;
      reflexivity.
  - apply Forall_cons; [ | apply Forall_nil]. vm_compute. reflexivity.
  - exact Hrows.
Defined.

(** X19. Making the task of a run reads the store and changes nothing.
    It succeeds when the store has exactly one request with the identifier
    and the output directory can be made: the task holds that request and
    the directory [processed_images] under [MEDIA_ROOT]. An identifier the
    store does not have is logged and raised as [ValueError]; a directory
    that cannot be made raises the [OSError] of [os.makedirs], and an
    identifier the store has twice raises [MultipleObjectsReturned], neither
    of which is a [ValueError]. *)
Theorem task_construction
        (w : World) (rid : string) (s : State) (r : result Task) (s' : State) :
  __init__ w rid s = (r, s') ->
  same_effects s' s
  /\ match r with
     | Ok task =>
         exists r0,
           filter_request_id (db s) rid = [r0]
           /\ task = mkTask rid r0 (path_join (MEDIA_ROOT w) ["processed_images"])
           /\ os_makedirs w (output_directory task) = None
           /\ log s' = log s
     | Raise e =>
         match filter_request_id (db s) rid with
         | [] =>
             e = Exn ValueError
                     ("ProcessingRequest with request ID " ++ rid ++ " does not exist.")
             /\ log s' = (ERROR, str e) :: log s
         | [_] =>
             exn_class e = OSError
             /\ os_makedirs w (path_join (MEDIA_ROOT w) ["processed_images"])
                = Some (str e)
             /\ isinstance e ValueError = false
         | _ :: _ :: _ =>
             exn_class e = MultipleObjectsReturned
             /\ isinstance e ValueError = false
         end
     end.
Proof.
  unfold __init__, bind, try_except, objects_get. intros H.
  destruct (filter_request_id (db s) rid) as [|r0 [|r1 l]].
  - cbn in H. inv H. repeat split.
  - destruct (os_makedirs w (path_join (MEDIA_ROOT w) ["processed_images"])) as [msg|]
      eqn:Hdir.
    + cbn in H. inv H. repeat split.
    + cbn in H. inv H. split; [repeat split | ]. exists r0. repeat split; exact Hdir.
  - cbn in H. inv H. repeat split.
Qed.

Lemma task_construction_witness :
  same_effects (snd (__init__ example.world "job-9" example.empty_store))
               example.empty_store
  /\ log (snd (__init__ example.world "job-9" example.empty_store))
     = [(ERROR, "ProcessingRequest with request ID job-9 does not exist.")].
Proof.
  destruct (task_construction
              example.world "job-9" example.empty_store
              (Raise (Exn ValueError
                          "ProcessingRequest with request ID job-9 does not exist."))
              (snd (__init__ example.world "job-9" example.empty_store)))
    as (Hsame & Hcase).
  - vm_compute. reflexivity.
  - split; [exact Hsame | ]. destruct Hcase as [_ Hlog]. exact Hlog.
Defined.


(** X21. What the last handler of the loop over the URLs does take. A URL
    whose fetch, decoding or re-encoding raises an exception that is neither
    one of [requests] nor an [OSError] is skipped: the turn of the loop
    returns with the outputs and the binding of [filename] it had, after
    the fetch and an error in the log; nothing is stored and no file is
    written, and the URL is due no output. *)
Theorem tolerated_failure_skips_the_url
        (w : World) (self : Task) (url : string) (filename : option string)
        (output_urls : list string) (s : State) :
  skipped w url = true ->
  exists s' line,
    process_url w self url filename output_urls s = (Ok (filename, output_urls), s')
    /\ db s' = db s
    /\ files s' = files s
    /\ trace s' = HttpGet url :: trace s
    /\ log s' = (ERROR, line) :: (INFO, "Processing image from URL: " ++ url) :: log s
    /\ outputs_due w [url] = [].
Proof.
  intros H.
  destruct (process_url_skipped w self url filename output_urls s H)
    as (s' & Hrun & Hdb & Hfiles & Htr & line & Hlog).
  exists s', line. repeat split; auto.
  rewrite outputs_due_one. now rewrite (skipped_not_transcoded w url H).
Qed.

Lemma tolerated_failure_skips_the_url_witness :
  exists s' line,
    process_url example.world example.task "http://x/huge.png"
                (Some "compressed_a.jpg") ["/media/processed_images/compressed_a.jpg"]
                example.sound
    = (Ok (Some "compressed_a.jpg", ["/media/processed_images/compressed_a.jpg"]), s')
    /\ db s' = db example.sound
    /\ files s' = files example.sound
    /\ trace s' = HttpGet "http://x/huge.png" :: trace example.sound
    /\ log s' = (ERROR, line)
                  :: (INFO, "Processing image from URL: " ++ "http://x/huge.png")
                  :: log example.sound
    /\ outputs_due example.world ["http://x/huge.png"] = [].
Proof.
  apply (tolerated_failure_skips_the_url
           example.world example.task "http://x/huge.png"
           (Some "compressed_a.jpg") ["/media/processed_images/compressed_a.jpg"]
           example.sound).
  reflexivity.
Defined.
